(** * AdvanceValves: PO/SO reconciliation scripts

    A shallow embedding of [script.py] (class [DocumentProcessor]) and
    [script2.py] (class [ValveProcessor]) together with the properties that
    the design document states about them.

    Conventions of the model.
    - A Python [str] is a Rocq [string]; the text functions work on its
      characters ([list ascii]).  The model is exact on ASCII text, which is
      what the processed documents contain: [upper], [\s], [\d], [\b] and
      case-insensitive matching are the ASCII ones.
    - A Python [set] of [str] is a [gset string], a [defaultdict(set)] is a
      [gmap string (gset string)] read with a default.
    - A Python [float] is a primitive binary64 float.
    - [re] patterns are written as regular-expression syntax trees and run by
      a backtracking matcher that lists the successful continuations of a
      position in the order in which [re] tries them.
    - A Python exception is [None] in an [option] result. *)

From Stdlib Require Import ZArith NArith Ascii String List Bool Lia.
From Stdlib Require Import PrimFloat SpecFloat FloatOps FloatAxioms.
From stdpp Require Import base option list gmap strings pretty.

Set Warnings "-inexact-float".

Local Open Scope string_scope.
Local Open Scope nat_scope.
Local Open Scope list_scope.

Abbreviation chars := list_ascii_of_string.
Abbreviation str := string_of_list_ascii.

(** ** Python built-ins on text *)
Module Py.

Definition code (c : ascii) : nat := nat_of_ascii c.

(** [str.isspace] on one ASCII character; also the class [\s]. *)
Definition is_space (c : ascii) : bool :=
  let n := code c in
  (((9 <=? n) && (n <=? 13)) || ((28 <=? n) && (n <=? 32)))%nat.

Definition is_digit (c : ascii) : bool :=
  let n := code c in ((48 <=? n) && (n <=? 57))%nat.

Definition is_lower (c : ascii) : bool :=
  let n := code c in ((97 <=? n) && (n <=? 122))%nat.

Definition is_upper (c : ascii) : bool :=
  let n := code c in ((65 <=? n) && (n <=? 90))%nat.

(** The class [\w], used by [\b]. *)
Definition is_word (c : ascii) : bool :=
  is_digit c || is_lower c || is_upper c || (code c =? 95)%nat.

Definition upper_char (c : ascii) : ascii :=
  if is_lower c then ascii_of_nat (code c - 32) else c.

Definition lower_char (c : ascii) : ascii :=
  if is_upper c then ascii_of_nat (code c + 32) else c.

Definition upper (s : list ascii) : list ascii := map upper_char s.
Definition lower (s : list ascii) : list ascii := map lower_char s.

Fixpoint lstrip (s : list ascii) : list ascii :=
  match s with
  | c :: s' => if is_space c then lstrip s' else s
  | [] => []
  end.

Definition rstrip (s : list ascii) : list ascii := rev (lstrip (rev s)).

(** [s.strip()] *)
Definition strip (s : list ascii) : list ascii := rstrip (lstrip s).

(** [s.split()]: the maximal runs of non-space characters. *)
Fixpoint split_go (cur : list ascii) (s : list ascii) : list (list ascii) :=
  match s with
  | [] => match cur with [] => [] | _ => [rev cur] end
  | c :: s' =>
      if is_space c
      then match cur with [] => split_go [] s' | _ => rev cur :: split_go [] s' end
      else split_go (c :: cur) s'
  end.
Definition split (s : list ascii) : list (list ascii) := split_go [] s.

(** [sep.join(parts)] *)
Fixpoint join (sep : list ascii) (parts : list (list ascii)) : list ascii :=
  match parts with
  | [] => []
  | [p] => p
  | p :: rest => p ++ sep ++ join sep rest
  end.

Fixpoint starts_with (p s : list ascii) : bool :=
  match p, s with
  | [], _ => true
  | a :: p', b :: s' => Ascii.eqb a b && starts_with p' s'
  | _ :: _, [] => false
  end.

(** [sub in s] *)
Fixpoint contains (sub s : list ascii) : bool :=
  starts_with sub s ||
  match s with
  | [] => false
  | _ :: s' => contains sub s'
  end.

(** [s.replace(old, new)] for a non-empty [old]; [skip] counts the
    characters of an occurrence that are still to be dropped. *)
Fixpoint replace_go (old new : list ascii) (skip : nat) (s : list ascii)
  : list ascii :=
  match s with
  | [] => []
  | c :: s' =>
      match skip with
      | S k => replace_go old new k s'
      | O =>
          if starts_with old s
          then new ++ replace_go old new (length old - 1) s'
          else c :: replace_go old new 0 s'
      end
  end.
Definition replace (old new s : list ascii) : list ascii :=
  replace_go old new 0 s.

(** [int(s)] for a string of ASCII digits. *)
Definition digit_val (c : ascii) : N := N.of_nat (code c - 48).
Definition int_of_digits (s : list ascii) : N :=
  fold_left (fun acc c => (10 * acc + digit_val c)%N) s 0%N.

(** [int(s)]: raises [ValueError] unless [s] is a non-empty digit string. *)
Definition int (s : list ascii) : option N :=
  match s with
  | [] => None
  | _ => if forallb is_digit s then Some (int_of_digits s) else None
  end.

(** [str(n)] for a non-negative integer. *)
Definition str_of_int (n : N) : string := pretty n.

(** [float(s)] for the shapes the price patterns produce once the commas
    are gone: digits, optionally followed by a dot and more digits.  The
    value is the decimal rounded to the nearest binary64, as [float] does;
    the empty string and a lone dot raise [ValueError]. *)
Fixpoint span_digits (s : list ascii) : list ascii * list ascii :=
  match s with
  | c :: s' =>
      if is_digit c
      then let '(ds, rest) := span_digits s' in (c :: ds, rest)
      else ([], s)
  | [] => ([], [])
  end.

Fixpoint pow10 (n : nat) : positive :=
  match n with
  | O => 1%positive
  | S k => (10 * pow10 k)%positive
  end.

Definition float_of_ratio (num : N) (den : positive) : float :=
  match num with
  | N0 => PrimFloat.zero
  | Npos m =>
      SF2Prim (SFdiv prec emax (S754_finite false m 0) (S754_finite false den 0))
  end.

Definition float (s : list ascii) : option float :=
  let '(ip, rest) := span_digits s in
  match rest with
  | [] => match ip with
          | [] => None
          | _ => Some (float_of_ratio (int_of_digits ip) 1)
          end
  | c :: fp =>
      if Ascii.eqb c "." && forallb is_digit fp
         && negb (Nat.eqb (length ip + length fp) 0)
      then Some (float_of_ratio (int_of_digits (ip ++ fp))
                                (pow10 (length fp)))
      else None
  end.

(** [s.split(sep)] for a separator of one character: the pieces between
    its occurrences, of which there is always at least one. *)
Fixpoint split_on (sep : ascii) (s : list ascii) : list (list ascii) :=
  match s with
  | [] => [[]]
  | c :: s' =>
      if Ascii.eqb c sep then [] :: split_on sep s'
      else match split_on sep s' with
           | p :: ps => (c :: p) :: ps
           | [] => [[c]]
           end
  end.

(** [s.endswith(suffix)] *)
Definition ends_with (suffix s : list ascii) : bool :=
  starts_with (rev suffix) (rev s).

(** [s.isspace()]: at least one character and nothing but white space. *)
Definition isspace (s : list ascii) : bool :=
  match s with
  | [] => false
  | _ => forallb is_space s
  end.

(** [os.path.join(a, b)] and [os.path.basename(p)] on POSIX paths. *)
Definition path_join (a b : list ascii) : list ascii :=
  if starts_with (chars "/") b then b
  else match a with
       | [] => b
       | _ => if ends_with (chars "/") a then a ++ b else a ++ chars "/" ++ b
       end.
Definition basename (p : list ascii) : list ascii :=
  List.last (split_on "/" p) [].

(** [a / b] on integers with [b > 0]: the quotient rounded to the nearest
    binary64. *)
Definition true_div (a : N) (b : positive) : PrimFloat.float := float_of_ratio a b.

(** [format(x, '.<d>f')]: the decimal expansion of [x] with [d] digits
    after the point, the exact value rounded half to even. *)
Definition round_half_even (num den : Z) : Z :=
  let q := (num / den)%Z in
  let r := (num mod den)%Z in
  if (2 * r <? den)%Z then q
  else if (2 * r =? den)%Z then (if Z.even q then q else q + 1)%Z
  else (q + 1)%Z.

Definition fixed_digits (d : nat) (scaled : Z) : list ascii :=
  let unit := Z.pow 10 (Z.of_nat d) in
  let ip := chars (pretty (Z.to_N (scaled / unit))) in
  let fp := chars (pretty (Z.to_N (scaled mod unit))) in
  match d with
  | O => ip
  | _ => ip ++ chars "." ++ repeat "0"%char (d - length fp) ++ fp
  end.

Definition format_fixed (d : nat) (x : PrimFloat.float) : list ascii :=
  let sign (s : bool) : list ascii := if s then chars "-" else [] in
  match Prim2SF x with
  | S754_nan => chars "nan"
  | S754_infinity s => sign s ++ chars "inf"
  | S754_zero s => sign s ++ fixed_digits d 0
  | S754_finite s m e =>
      let num := (Z.pos m * Z.pow 10 (Z.of_nat d))%Z in
      let scaled :=
        if (0 <=? e)%Z then (num * Z.pow 2 e)%Z
        else round_half_even num (Z.pow 2 (- e)) in
      sign s ++ fixed_digits d scaled
  end.

End Py.

(** ** The [re] module: patterns and a backtracking matcher *)
Module Re.

(** A member of a bracketed class. *)
Inductive item :=
| IChar (c : ascii)          (* a literal character *)
| IRange (lo hi : ascii)     (* lo-hi *)
| IDigit                     (* \d *)
| ISpace.                    (* \s *)

(** The fragment of the pattern language that the two scripts use.  Every
    repetition in them is over a single character or class, every pattern
    has at most one capturing group, and each look-behind has a fixed
    width. *)
Inductive regex :=
| Eps
| Chr (c : ascii)                                  (* one literal character *)
| Cls (neg : bool) (items : list item)             (* [...] and [^...] *)
| Seq (r1 r2 : regex)
| Alt (r1 r2 : regex)                              (* r1|r2 *)
| Rep (neg : bool) (items : list item) (lo : nat) (hi : option nat)
                                                   (* greedy x{lo,hi} *)
| Opt (r : regex)                                  (* greedy (?:r)? *)
| Grp (r : regex)                                  (* (r), group 1 *)
| Bol                                              (* ^ *)
| Eol                                              (* $ *)
| WordB                                            (* \b *)
| Behind (r : regex)                               (* (?<=r) *)
| Ahead (r : regex).                               (* (?=r) *)

(** A literal string. *)
Fixpoint lit_chars (s : list ascii) : regex :=
  match s with
  | [] => Eps
  | [c] => Chr c
  | c :: s' => Seq (Chr c) (lit_chars s')
  end.
Definition Lit (s : string) : regex := lit_chars (chars s).

Fixpoint seq (rs : list regex) : regex :=
  match rs with
  | [] => Eps
  | [r] => r
  | r :: rs' => Seq r (seq rs')
  end.

Fixpoint alt (r : regex) (rs : list regex) : regex :=
  match rs with
  | [] => r
  | r' :: rs' => Alt r (alt r' rs')
  end.

Definition digit : list item := [IDigit].
Definition space : list item := [ISpace].
Definition Star (items : list item) : regex := Rep false items 0 None.
Definition Plus (items : list item) : regex := Rep false items 1 None.
Definition Times (items : list item) (n : nat) : regex :=
  Rep false items n (Some n).
Definition Between (items : list item) (lo hi : nat) : regex :=
  Rep false items lo (Some hi).

(** A position in the subject: the text before it, nearest character
    first, and the text after it. *)
Record pos := Pos { before : list ascii; after : list ascii }.

Definition in_range (lo hi c : ascii) : bool :=
  (Py.code lo <=? Py.code c)%nat && (Py.code c <=? Py.code hi)%nat.

Definition item_has (i : item) (c : ascii) : bool :=
  match i with
  | IChar a => Ascii.eqb a c
  | IRange lo hi => in_range lo hi c
  | IDigit => Py.is_digit c
  | ISpace => Py.is_space c
  end.

(** Under IGNORECASE a character is in a class when one of its two cases
    is. *)
Definition items_have (ic : bool) (items : list item) (c : ascii) : bool :=
  existsb (fun i => item_has i c
                    || (ic && (item_has i (Py.lower_char c)
                               || item_has i (Py.upper_char c)))) items.

Definition cls_has (ic neg : bool) (items : list item) (c : ascii) : bool :=
  xorb neg (items_have ic items c).

Definition chr_eq (ic : bool) (a c : ascii) : bool :=
  if ic then Ascii.eqb (Py.lower_char a) (Py.lower_char c) else Ascii.eqb a c.

(** The continuations of a greedy bounded repetition of a class, longest
    first. *)
Fixpoint rep_go (p : ascii -> bool) (lo : nat) (hi : option nat)
                (b a : list ascii) : list pos :=
  match a with
  | c :: a' =>
      match hi with
      | Some O => []
      | _ => if p c then rep_go p (pred lo) (pred <$> hi) (c :: b) a' else []
      end
  | [] => []
  end ++
  match lo with
  | O => [Pos b a]
  | S _ => []
  end.

(** The width of a pattern when it is fixed, as a look-behind needs. *)
Fixpoint width (r : regex) : option nat :=
  match r with
  | Eps | Bol | Eol | WordB | Behind _ | Ahead _ => Some 0
  | Chr _ | Cls _ _ => Some 1
  | Seq r1 r2 => w1 ← width r1; w2 ← width r2; Some (w1 + w2)
  | Alt r1 r2 =>
      w1 ← width r1; w2 ← width r2;
      if (w1 =? w2)%nat then Some w1 else None
  | Rep _ _ lo hi => if decide (hi = Some lo) then Some lo else None
  | Opt _ => None
  | Grp r => width r
  end.

(** The position [n] characters back, when there are that many. *)
Fixpoint back (n : nat) (st : pos) : option pos :=
  match n with
  | O => Some st
  | S k =>
      match before st with
      | c :: b => back k (Pos b (c :: after st))
      | [] => None
      end
  end.

(** The text between two positions of one subject. *)
Definition between (st st' : pos) : list ascii :=
  take (length (after st) - length (after st')) (after st).

Definition at_boundary (st : pos) : bool :=
  let w l := match l with c :: _ => Py.is_word c | [] => false end in
  xorb (w (before st)) (w (after st)).

Definition newline : ascii := ascii_of_nat 10.

(** [m ic r st cap]: the ways in which [r] matches at [st], in the order
    in which the backtracking matcher finds them; each is the position
    reached and the text of group 1 so far. *)
Fixpoint m (ic : bool) (r : regex) (st : pos) (cap : option (list ascii))
  : list (pos * option (list ascii)) :=
  match r with
  | Eps => [(st, cap)]
  | Chr a =>
      match after st with
      | c :: a' => if chr_eq ic a c then [(Pos (c :: before st) a', cap)] else []
      | [] => []
      end
  | Cls neg items =>
      match after st with
      | c :: a' =>
          if cls_has ic neg items c then [(Pos (c :: before st) a', cap)] else []
      | [] => []
      end
  | Seq r1 r2 => flat_map (fun '(st', cap') => m ic r2 st' cap') (m ic r1 st cap)
  | Alt r1 r2 => m ic r1 st cap ++ m ic r2 st cap
  | Rep neg items lo hi =>
      map (fun st' => (st', cap))
          (rep_go (cls_has ic neg items) lo hi (before st) (after st))
  | Opt r1 => m ic r1 st cap ++ [(st, cap)]
  | Grp r1 =>
      map (fun '(st', _) => (st', Some (between st st'))) (m ic r1 st cap)
  | Bol => match before st with [] => [(st, cap)] | _ => [] end
  | Eol =>
      match after st with
      | [] => [(st, cap)]
      | [c] => if Ascii.eqb c newline then [(st, cap)] else []
      | _ => []
      end
  | WordB => if at_boundary st then [(st, cap)] else []
  | Behind r1 =>
      match width r1 ≫= (fun w => back w st) with
      | Some st0 =>
          if existsb (fun '(st', _) =>
                        (length (after st') =? length (after st))%nat)
                     (m ic r1 st0 cap)
          then [(st, cap)] else []
      | None => []
      end
  | Ahead r1 =>
      match m ic r1 st cap with
      | [] => []
      | _ => [(st, cap)]
      end
  end.

(** A match object: the matched text and the text of group 1. *)
Record match_ := Match { group0 : list ascii; group1 : option (list ascii) }.

(** The first match that starts at [st]: what [pattern.match] returns
    there. *)
Definition match_at (ic : bool) (r : regex) (st : pos) : option match_ :=
  match m ic r st None with
  | (st', cap) :: _ => Some (Match (between st st') cap)
  | [] => None
  end.

(** [re.search]: the first match at the leftmost position that has one. *)
Fixpoint search_from (ic : bool) (r : regex) (b a : list ascii)
  : option match_ :=
  match match_at ic r (Pos b a) with
  | Some mt => Some mt
  | None =>
      match a with
      | c :: a' => search_from ic r (c :: b) a'
      | [] => None
      end
  end.
Definition search (ic : bool) (r : regex) (s : list ascii) : option match_ :=
  search_from ic r [] s.

(** [re.finditer]: the successive non-overlapping matches, left to right.
    [skip] counts the characters of the last match that the scan still has
    to step over.  (After an empty match the scan moves on by one
    character; no pattern of the scripts matches the empty string.) *)
Fixpoint finditer_go (ic : bool) (r : regex) (skip : nat) (b a : list ascii)
  : list match_ :=
  match skip with
  | S k =>
      match a with
      | c :: a' => finditer_go ic r k (c :: b) a'
      | [] => []
      end
  | O =>
      match match_at ic r (Pos b a) with
      | Some mt =>
          mt :: match a with
                | c :: a' => finditer_go ic r (pred (length (group0 mt))) (c :: b) a'
                | [] => []
                end
      | None =>
          match a with
          | c :: a' => finditer_go ic r 0 (c :: b) a'
          | [] => []
          end
      end
  end.
Definition finditer (ic : bool) (r : regex) (s : list ascii) : list match_ :=
  finditer_go ic r 0 [] s.

(** [re.sub(r, repl, s)] for a replacement without group references. *)
Fixpoint sub_go (ic : bool) (r : regex) (repl : list ascii) (skip : nat)
                (b a : list ascii) : list ascii :=
  match skip with
  | S k =>
      match a with
      | c :: a' => sub_go ic r repl k (c :: b) a'
      | [] => []
      end
  | O =>
      match match_at ic r (Pos b a) with
      | Some mt =>
          repl ++ match a with
                  | c :: a' =>
                      match length (group0 mt) with
                      | O => c :: sub_go ic r repl 0 (c :: b) a'
                      | S k => sub_go ic r repl k (c :: b) a'
                      end
                  | [] => []
                  end
      | None =>
          match a with
          | c :: a' => c :: sub_go ic r repl 0 (c :: b) a'
          | [] => []
          end
      end
  end.
Definition sub (ic : bool) (r : regex) (repl s : list ascii) : list ascii :=
  sub_go ic r repl 0 [] s.

End Re.

(** [next(iter(s))] on a set: some member of [s], [StopIteration] when [s] is
    empty.  Python leaves the order of a set open; the model takes the first
    of [elements], and the proofs rely only on its being a member of [s] and
    on its absence exactly when [s] is empty. *)
Definition next_iter (s : gset string) : option string := head (elements s).

(** [d.get(k, set())] and [d[k]] on a [defaultdict(set)]. *)
Definition get_set (d : gmap string (gset string)) (k : string) : gset string :=
  default ∅ (d !! k).

(** [d[k].add(v)] on a [defaultdict(set)]. *)
Definition add_to (k v : string) (d : gmap string (gset string))
  : gmap string (gset string) :=
  <[k := get_set d k ∪ {[v]}]> d.

(** [a & b] used as a condition. *)
Definition intersects (a b : gset string) : bool := bool_decide (a ∩ b ≠ ∅).

(** The first [\d{4}] of a code: [re.search(r'\d{4}', code)].group(0). *)
Definition four_digits (code : string) : option string :=
  (fun mt => str (Re.group0 mt)) <$> Re.search false (Re.Times Re.digit 4) (chars code).

(** * script.py *)
Module Script.

Import Re.

Record ValveItem := {
  line_number : string;
  item_codes : gset string;
  description : string;
  quantity : string;
  material_spec : string;
  source_doc : string;
  original_line : string;
  price : float;
  delivery_date : string
}.

(** The cells of one catalog row after [str(...)]. *)
Record row := { acode : string; cpartno : string }.

(** *** normalize_code *)

Definition re_bracket_d : regex := seq [Lit "[D]"; Eol].               (* \[D\]$ *)
Definition re_spaces : regex := Plus space.                            (* \s+ *)
Definition re_mr : regex := seq [Lit "MR"; Eol].                       (* MR$ *)
Definition re_prefix : regex :=                     (* ^\s*(?:VALVE|CHECK)\s+ *)
  seq [Bol; Star space; Alt (Lit "VALVE") (Lit "CHECK"); Plus space].

Definition normalize_chars (code : list ascii) : list ascii :=
  let code := Py.upper (Py.strip code) in
  let code := sub false re_bracket_d [] code in
  let code := sub false re_spaces (chars " ") code in
  let code := sub false re_mr [] code in
  let code := sub false re_prefix [] code in
  Py.strip code.

Definition normalize_code (code : string) : string :=
  str (normalize_chars (chars code)).

(** *** load_erp_codes *)

Definition is_nan_text (s : list ascii) : bool :=
  bool_decide (Py.lower s = chars "nan").

Definition load_row (mappings : gmap string (gset string)) (r : row)
  : gmap string (gset string) :=
  let acode := str (Py.strip (chars (acode r))) in
  let cpartno := str (Py.strip (chars (cpartno r))) in
  if bool_decide (acode = "") || bool_decide (cpartno = "")
     || is_nan_text (chars acode) || is_nan_text (chars cpartno)
  then mappings
  else
    let mappings := add_to acode cpartno mappings in
    let mappings := add_to cpartno acode mappings in
    let norm_acode := normalize_code acode in
    let norm_cpartno := normalize_code cpartno in
    let mappings :=
      if bool_decide (norm_acode ≠ acode)
      then add_to norm_acode cpartno mappings else mappings in
    if bool_decide (norm_cpartno ≠ cpartno)
    then add_to norm_cpartno acode mappings else mappings.

(** [code_mappings] after [load_erp_codes] has read the rows [df]. *)
Definition load_erp_codes (df : list row) : gmap string (gset string) :=
  fold_left load_row df ∅.

(** *** extract_codes_from_line *)

Definition skip_patterns : list regex := [
  Lit "Generated on";
  seq [Lit "Page "; Plus digit; Lit " of"];
  Lit "This is acknowledgement";
  Lit "Made By";
  Lit "TOTAL WEIGHT";
  Lit "Unloading point"
].

Definition upper_AZ : list item := [IRange "A" "Z"].

Definition patterns : list regex := [
  (* \b9[0-9]{6}\b *)
  seq [WordB; Chr "9"; Times [IRange "0" "9"] 6; WordB];
  (* (?:DP|DPCV)\s*\d{4}\s*MM\s*#\d{2,4}\s*M-\d+[A-Z]? *)
  seq [Alt (Lit "DP") (Lit "DPCV"); Star space; Times digit 4; Star space;
       Lit "MM"; Star space; Chr "#"; Between digit 2 4; Star space;
       Lit "M-"; Plus digit; Opt (Cls false upper_AZ)];
  (* DP\d{2}\.[A-Z0-9]+\.\d{2}\.[A-Z]{2}\.\d+[A-Z]? *)
  seq [Lit "DP"; Times digit 2; Chr "."; Plus [IRange "A" "Z"; IRange "0" "9"];
       Chr "."; Times digit 2; Chr "."; Times upper_AZ 2; Chr ".";
       Plus digit; Opt (Cls false upper_AZ)];
  (* CH-\d{4}(?:\s+MR)? *)
  seq [Lit "CH-"; Times digit 4; Opt (Seq (Plus space) (Lit "MR"))];
  (* CH[LHS]?-\d{4} *)
  seq [Lit "CH"; Opt (Cls false [IChar "L"; IChar "H"; IChar "S"]); Chr "-";
       Times digit 4];
  (* (?:CHL|CHS)-\d{4} *)
  seq [Alt (Lit "CHL") (Lit "CHS"); Chr "-"; Times digit 4];
  (* (?<=Marc code:\s)\d+ *)
  seq [Behind (Seq (Lit "Marc code:") (Cls false space)); Plus digit];
  (* (?<=Item No\.\s)\d{3,4}(?=\s) *)
  seq [Behind (Seq (Lit "Item No.") (Cls false space)); Between digit 3 4;
       Ahead (Cls false space)]
].

(* Marc code:\s*(\d+) *)
Definition re_marc : regex := seq [Lit "Marc code:"; Star space; Grp (Plus digit)].

(** The body of the inner loop: what one match adds to [codes]. *)
Definition add_match (clean_line : list ascii) (codes : gset string)
                     (mt : match_) : gset string :=
  let code := Py.strip (group0 mt) in
  match code with
  | [] => codes
  | _ =>
      let code := str (Py.upper (sub false re_spaces (chars " ") code)) in
      let codes := codes ∪ {[code]} in
      let codes :=
        if Py.contains (chars "CH-") (chars code)
        then match four_digits code with
             | Some num =>
                 codes ∪ {["DP " +:+ num +:+ " MM"]} ∪ {["DPCV " +:+ num +:+ " MM"]}
             | None => codes
             end
        else codes in
      match search false re_marc clean_line with
      | Some marc_match =>
          codes ∪ {[str (default [] (group1 marc_match))]}
      | None => codes
      end
  end.

(** The loop over the patterns and, for each, over its matches. *)
Definition add_pattern (clean_line : list ascii) (codes : gset string)
                       (pattern : regex) : gset string :=
  fold_left (add_match clean_line) (finditer true pattern clean_line) codes.

Definition extract_codes_from_line (line : string) : gset string :=
  if existsb (fun pattern => bool_decide (is_Some (search true pattern (chars line))))
             skip_patterns
  then ∅
  else
    let clean_line := Py.join (chars " ") (Py.split (chars line)) in
    fold_left (add_pattern clean_line) patterns ∅.

(** *** extract_quantity_and_price *)

Definition colon_eq : regex := Opt (Cls false [IChar ":"; IChar "="]).

Definition qty_patterns : list regex := [
  (* QTY\s*[:=]?\s*(\d+) *)
  seq [Lit "QTY"; Star space; colon_eq; Star space; Grp (Plus digit)];
  (* Quantity\s*[:=]?\s*(\d+) *)
  seq [Lit "Quantity"; Star space; colon_eq; Star space; Grp (Plus digit)];
  (* \s(\d+)\s*(?:NOS|PCS|PIECES|EA|NR) *)
  seq [Cls false space; Grp (Plus digit); Star space;
       alt (Lit "NOS") [Lit "PCS"; Lit "PIECES"; Lit "EA"; Lit "NR"]];
  (* ^\s*(\d+)\s*$ *)
  seq [Bol; Star space; Grp (Plus digit); Star space; Eol];
  (* Quantity\s+(\d+)\s+UM *)
  seq [Lit "Quantity"; Plus space; Grp (Plus digit); Plus space; Lit "UM"];
  (* (?<=\s)(\d+)(?=\s+(?:NR|EA)) *)
  seq [Behind (Cls false space); Grp (Plus digit);
       Ahead (Seq (Plus space) (Alt (Lit "NR") (Lit "EA")))];
  (* (?<=\s)(\d+)(?=\s+(?:USD|USD\s+)) *)
  seq [Behind (Cls false space); Grp (Plus digit);
       Ahead (Seq (Plus space) (Alt (Lit "USD") (Seq (Lit "USD") (Plus space))))]
].

Definition digits_commas : list item := [IDigit; IChar ","].
(* [\d,]+(?:\.\d{2})? *)
Definition amount_opt : regex :=
  Seq (Plus digits_commas) (Opt (Seq (Chr ".") (Times digit 2))).
(* [\d,]+\.\d{2} *)
Definition amount_2 : regex := seq [Plus digits_commas; Chr "."; Times digit 2].

Definition price_patterns : list regex := [
  (* USD\s*([\d,]+(?:\.\d{2})?) *)
  seq [Lit "USD"; Star space; Grp amount_opt];
  (* \$\s*([\d,]+(?:\.\d{2})?) *)
  seq [Chr "$"; Star space; Grp amount_opt];
  (* (?:Price|PRICE)[:\s]*([\d,]+(?:\.\d{2})?) *)
  seq [Alt (Lit "Price") (Lit "PRICE"); Star [IChar ":"; ISpace]; Grp amount_opt];
  (* (?:Unit Price|UNIT PRICE)[:\s]*([\d,]+(?:\.\d{2})?) *)
  seq [Alt (Lit "Unit Price") (Lit "UNIT PRICE"); Star [IChar ":"; ISpace];
       Grp amount_opt];
  (* (?<=\s)([\d,]+\.\d{2})(?=\s+USD) *)
  seq [Behind (Cls false space); Grp amount_2; Ahead (Seq (Plus space) (Lit "USD"))];
  (* Amount\s+USD\s+([\d,]+\.\d{2}) *)
  seq [Lit "Amount"; Plus space; Lit "USD"; Plus space; Grp amount_2];
  (* (?<=[A-Z])\s+([\d,]+\.\d{2})\s*$ *)
  seq [Behind (Cls false upper_AZ); Plus space; Grp amount_2; Star space; Eol]
].

(** What one quantity pattern yields on the line: the integer of group 1
    of its first match. *)
Definition qty_of (line : list ascii) (pattern : regex) : option N :=
  mt ← search true pattern line; Py.int (default [] (group1 mt)).

Definition qty_ok (qty : N) : bool := ((0 <? qty) && (qty <? 10000))%N.

(** The quantity loop: [break] at the first pattern whose integer is in
    range; the value on entry is returned when the patterns run out. *)
Fixpoint qty_loop (patterns : list regex) (line : list ascii) (quantity : string)
  : string :=
  match patterns with
  | [] => quantity
  | pattern :: rest =>
      match qty_of line pattern with
      | Some qty =>
          if qty_ok qty then Py.str_of_int qty else qty_loop rest line quantity
      | None => qty_loop rest line quantity
      end
  end.

(** What one price pattern yields: [float] of group 1 without its commas. *)
Definition price_of (line : list ascii) (pattern : regex) : option float :=
  mt ← search true pattern line;
  Py.float (Py.replace (chars ",") [] (default [] (group1 mt))).

Definition price_ok (p : float) : bool :=
  PrimFloat.ltb 0 p && PrimFloat.ltb p 1000000.

Fixpoint price_loop (patterns : list regex) (line : list ascii) (price : float)
  : float :=
  match patterns with
  | [] => price
  | pattern :: rest =>
      match price_of line pattern with
      | Some price_val =>
          if price_ok price_val then price_val else price_loop rest line price
      | None => price_loop rest line price
      end
  end.

Definition extract_quantity_and_price (line : string) : string * float :=
  (qty_loop qty_patterns (chars line) "1",
   price_loop price_patterns (chars line) 0%float).

(** *** items_match *)

(** First tier: a shared code. *)
Definition direct_match (po_codes so_codes : gset string) : bool :=
  intersects po_codes so_codes.

(** Second tier: a shared first four-digit fragment. *)
Definition numbers_of (codes : gset string) : gset string :=
  set_omap four_digits codes.
Definition numeric_match (po_codes so_codes : gset string) : bool :=
  intersects (numbers_of po_codes) (numbers_of so_codes).

(** Third tier: a catalog mapping of a PO code, or of its normal form,
    that meets the SO codes. *)
Definition mapped_match (mappings : gmap string (gset string))
                        (po_codes so_codes : gset string) : bool :=
  existsb (fun po_code =>
             intersects (get_set mappings po_code) so_codes
             || (let norm_po_code := normalize_code po_code in
                 bool_decide (norm_po_code ≠ po_code)
                 && intersects (get_set mappings norm_po_code) so_codes))
          (elements po_codes).

Definition items_match (mappings : gmap string (gset string))
                       (po_item so_item : ValveItem) : bool :=
  if direct_match (item_codes po_item) (item_codes so_item) then true
  else if numeric_match (item_codes po_item) (item_codes so_item) then true
  else mapped_match mappings (item_codes po_item) (item_codes so_item).

(** *** process_line *)

(* \(([^)]+)\) *)
Definition re_paren : regex := seq [Chr "("; Grp (Rep true [IChar ")"] 1 None); Chr ")"].
(* ^\s*(\d+) *)
Definition re_line_number : regex := seq [Bol; Star space; Grp (Plus digit)].

Definition process_line (line doc_type : string) : option ValveItem :=
  match Py.strip (chars line) with
  | [] => None
  | _ =>
      let codes := extract_codes_from_line line in
      if bool_decide (codes = ∅) then None
      else
        let '(quantity, price) := extract_quantity_and_price line in
        let material_spec :=
          match search false re_paren (chars line) with
          | Some mat_match => str (Py.strip (default [] (group1 mat_match)))
          | None => ""
          end in
        Some {| line_number :=
                  match search false re_line_number (chars line) with
                  | Some mt => str (default [] (group1 mt))
                  | None => ""
                  end;
                item_codes := codes;
                quantity := quantity;
                price := price;
                material_spec := material_spec;
                description := str (Py.strip (chars line));
                source_doc := doc_type;
                original_line := line;
                delivery_date := "" |}
  end.

(** *** process_pdfs, from the text of one document on *)

(** The loop that drops an item whose codes were seen before;
    [tuple(sorted(codes))] identifies the set of codes. *)
Fixpoint unique_items (seen_codes : list (gset string)) (items_found : list ValveItem)
  : list ValveItem :=
  match items_found with
  | [] => []
  | item :: rest =>
      if bool_decide (item_codes item ≠ ∅)
         && negb (bool_decide (item_codes item ∈ seen_codes))
      then item :: unique_items (item_codes item :: seen_codes) rest
      else unique_items seen_codes rest
  end.

(** The items that a document of type [doc_type] with the lines
    [content] adds to [self.items]. *)
Definition process_content (doc_type : string) (content : list string)
  : list ValveItem :=
  unique_items [] (omap (fun line => process_line line doc_type) content).

(** [self.items] after the documents have been processed in order. *)
Definition process_pdfs (docs : list (string * list string)) : list ValveItem :=
  flat_map (fun '(doc_type, content) => process_content doc_type content) docs.

(** *** analyze_and_report *)

(** The [analysis] dictionary, without [doc_summary] (the number of items
    per document type, which only the report shows).  A mismatch entry holds
    the three values that the report line interpolates: the code, the PO and
    the SO value; an unmatched entry holds the code and the material text
    shown. *)
Record analysis := {
  total_po_items : nat;
  matched_items : nat;
  mismatched_items : nat;
  quantity_mismatches : list (string * string * string);
  price_mismatches : list (string * float * float);
  material_spec_mismatches : list (string * string * string);
  unmatched_items : list (string * string)
}.

Definition analysis0 : analysis :=
  {| total_po_items := 0; matched_items := 0; mismatched_items := 0;
     quantity_mismatches := []; price_mismatches := [];
     material_spec_mismatches := []; unmatched_items := [] |}.

(** [abs(a - b) > 0.01] *)
Definition price_differs (a b : float) : bool :=
  PrimFloat.ltb 0.01 (PrimFloat.abs (PrimFloat.sub a b)).

(** The body of [if self.items_match(po_item, so_item):] up to [break]. *)
Definition record_match (po_item so_item : ValveItem) (a : analysis)
  : option analysis :=
  code ← next_iter (item_codes po_item);
  Some {| total_po_items := total_po_items a;
          matched_items := matched_items a + 1;
          mismatched_items := mismatched_items a;
          quantity_mismatches :=
            if bool_decide (quantity po_item ≠ quantity so_item)
            then quantity_mismatches a ++ [(code, quantity po_item, quantity so_item)]
            else quantity_mismatches a;
          price_mismatches :=
            if price_differs (price po_item) (price so_item)
            then price_mismatches a ++ [(code, price po_item, price so_item)]
            else price_mismatches a;
          material_spec_mismatches :=
            if bool_decide (material_spec po_item ≠ material_spec so_item)
            then material_spec_mismatches a
                 ++ [(code, material_spec po_item, material_spec so_item)]
            else material_spec_mismatches a;
          unmatched_items := unmatched_items a |}.

(** The inner loop [for so_item in so_items]: [found_match] and the
    analysis when it ends. *)
Fixpoint scan_so_items (mappings : gmap string (gset string)) (po_item : ValveItem)
                       (so_items : list ValveItem) (a : analysis)
  : option (bool * analysis) :=
  match so_items with
  | [] => Some (false, a)
  | so_item :: rest =>
      if items_match mappings po_item so_item
      then a' ← record_match po_item so_item a; Some (true, a')
      else scan_so_items mappings po_item rest a
  end.

Definition record_unmatched (po_item : ValveItem) (a : analysis) : analysis :=
  let code := default "Unknown" (next_iter (item_codes po_item)) in
  {| total_po_items := total_po_items a;
     matched_items := matched_items a;
     mismatched_items := mismatched_items a + 1;
     quantity_mismatches := quantity_mismatches a;
     price_mismatches := price_mismatches a;
     material_spec_mismatches := material_spec_mismatches a;
     unmatched_items :=
       unmatched_items a
       ++ [(code, if bool_decide (material_spec po_item = "")
                  then "No material spec" else material_spec po_item)] |}.

Definition count_po (a : analysis) : analysis :=
  {| total_po_items := total_po_items a + 1;
     matched_items := matched_items a;
     mismatched_items := mismatched_items a;
     quantity_mismatches := quantity_mismatches a;
     price_mismatches := price_mismatches a;
     material_spec_mismatches := material_spec_mismatches a;
     unmatched_items := unmatched_items a |}.

(** The body of the outer loop [for po_item in po_items]. *)
Definition analyze_po (mappings : gmap string (gset string))
                      (so_items : list ValveItem) (a : option analysis)
                      (po_item : ValveItem) : option analysis :=
  match a with
  | None => None
  | Some a =>
      match scan_so_items mappings po_item so_items (count_po a) with
      | None => None
      | Some (found_match, a) =>
          Some (if found_match then a else record_unmatched po_item a)
      end
  end.

Definition is_doc (doc_type : string) (item : ValveItem) : bool :=
  bool_decide (source_doc item = doc_type).

(** The analysis that [analyze_and_report] computes before it renders the
    report; [None] is an exception escaping from it. *)
Definition analyze_and_report (mappings : gmap string (gset string))
                              (items : list ValveItem) : option analysis :=
  let po_items := List.filter (is_doc "PO") items in
  let so_items := List.filter (is_doc "SO") items in
  fold_left (analyze_po mappings so_items) po_items (Some analysis0).

(** *** extract_text_from_pdf *)

(* (?<=[a-zA-Z])(?=\d) *)
Definition re_letter_digit : regex :=
  Seq (Behind (Cls false [IRange "a" "z"; IRange "A" "Z"])) (Ahead (Cls false digit)).

Definition form_feed : ascii := ascii_of_nat 12.

(** The body of the loop over the pages: the lines that a page with the
    text [text] adds to [pages_text]. *)
Definition page_lines (text : string) : list (list ascii) :=
  let text := chars text in
  match text with
  | [] => []
  | _ =>
      let text := sub false re_spaces (chars " ") text in
      let text := Py.replace [form_feed] [newline] text in
      let text := sub false re_letter_digit (chars " ") text in
      let lines := map Py.strip (Py.split_on newline text) in
      List.filter (fun line => negb (bool_decide (line = [])) && negb (Py.isspace line))
                  lines
  end.

(** [reader] is the text of each page as [page.extract_text()] returns it,
    or [None] when reading the file raises, which the function answers with
    the empty string. *)
Definition extract_text_from_pdf (reader : option (list string)) : string :=
  match reader with
  | Some pages => str (Py.join [newline] (flat_map page_lines pages))
  | None => ""
  end.

(** *** determine_doc_type *)

Definition po_terms : list string := ["PURCHASE_ORDER"; "PO_"; "_PO"; "1487633"].

Definition determine_doc_type (filename content : string) : string :=
  let filename_upper := Py.upper (chars filename) in
  let content_upper := Py.upper (chars content) in
  if Py.contains (chars "DSS") filename_upper
     || Py.contains (chars "DATASHEET") filename_upper
  then "DataSheet"
  else if existsb (fun term => Py.contains (chars term) filename_upper) po_terms
  then "PO"
  else if Py.contains (chars "ACKNOWLEDGMENT") content_upper
          || Py.contains (chars "SALES ORDER") content_upper
  then "SO"
  else if Py.contains (chars "00240030") filename_upper
  then "SO"
  else "SO".

(** *** process_pdfs, from the directory listing on *)

(** The body of the loop over the file names: the items that one entry of
    the folder adds to [self.items]. *)
Definition process_file (filename : string) (reader : option (list string))
  : list ValveItem :=
  if negb (Py.ends_with (chars ".pdf") (Py.lower (chars filename))) then []
  else
    let content := extract_text_from_pdf reader in
    if bool_decide (content = "") then []
    else
      let doc_type := determine_doc_type filename content in
      process_content doc_type (map str (Py.split_on newline (chars content))).

(** [self.items] after [process_pdfs] on a folder whose listing gives the
    names in the order of [entries], each with what the PDF reader finds. *)
Definition process_folder (entries : list (string * option (list string)))
  : list ValveItem :=
  flat_map (fun '(filename, reader) => process_file filename reader) entries.

(** *** analyze_and_report: the document summary *)

(** [d[k] += 1] on a [defaultdict(int)], which keeps its keys in the order
    of their first use. *)
Fixpoint bump (k : string) (d : list (string * nat)) : list (string * nat) :=
  match d with
  | [] => [(k, 1)]
  | (k', n) :: d' => if bool_decide (k' = k) then (k', n + 1) :: d' else (k', n) :: bump k d'
  end.

Definition doc_summary (items : list ValveItem) : list (string * nat) :=
  fold_left (fun d item => bump (source_doc item) d) items [].

(** *** analyze_and_report: the report *)









End Script.

(** * script2.py *)
Module Script2.

Import Re.

Record ValveItem := {
  item_number : string;
  codes : gset string;
  marc_code : string;
  material_spec : string;
  quantity : string;
  price : float;
  source_doc : string;
  original_line : string;
  doc_type : string
}.

(** *** extract_codes_from_line *)

Definition skip_words : list string := ["DOCUSIGN"; "PAGE"; "GENERATED"].

Definition patterns : list regex := [
  (* (?:DP|DPCV)\s*\d{4}\s*MM\s*#\d{2,4}\s*M-\d+[A-Z]? *)
  seq [Alt (Lit "DP") (Lit "DPCV"); Star space; Times digit 4; Star space;
       Lit "MM"; Star space; Chr "#"; Between digit 2 4; Star space;
       Lit "M-"; Plus digit; Opt (Cls false [IRange "A" "Z"])];
  (* CH-\d{4}(?:\s+MR)? *)
  seq [Lit "CH-"; Times digit 4; Opt (Seq (Plus space) (Lit "MR"))];
  (* DP\d{2}\.[A-Z0-9]+\.\d{2}\.[A-Z]{2}\.\d+[A-Z]? *)
  seq [Lit "DP"; Times digit 2; Chr "."; Plus [IRange "A" "Z"; IRange "0" "9"];
       Chr "."; Times digit 2; Chr "."; Times [IRange "A" "Z"] 2; Chr ".";
       Plus digit; Opt (Cls false [IRange "A" "Z"])];
  (* \b9[0-9]{6}\b *)
  seq [WordB; Chr "9"; Times [IRange "0" "9"] 6; WordB]
].

Definition add_match (codes : gset string) (mt : match_) : gset string :=
  codes ∪ {[str (Py.upper (Py.strip (group0 mt)))]}.

Definition add_pattern (line : list ascii) (codes : gset string) (pattern : regex)
  : gset string :=
  fold_left add_match (finditer true pattern line) codes.

Definition extract_codes_from_line (line : string) : gset string :=
  if existsb (fun x => Py.contains (chars x) (Py.upper (chars line))) skip_words
  then ∅
  else fold_left (add_pattern (chars line)) patterns ∅.

(** *** extract_quantity_and_price *)

Definition colon_eq : regex := Opt (Cls false [IChar ":"; IChar "="]).

Definition qty_patterns : list regex := [
  (* QTY\s*[:=]?\s*(\d+) *)
  seq [Lit "QTY"; Star space; colon_eq; Star space; Grp (Plus digit)];
  (* Quantity\s*[:=]?\s*(\d+) *)
  seq [Lit "Quantity"; Star space; colon_eq; Star space; Grp (Plus digit)];
  (* \s(\d+)\s*(?:NOS|PCS|PIECES|EA|NR) *)
  seq [Cls false space; Grp (Plus digit); Star space;
       alt (Lit "NOS") [Lit "PCS"; Lit "PIECES"; Lit "EA"; Lit "NR"]];
  (* ^\s*(\d+)\s*$ *)
  seq [Bol; Star space; Grp (Plus digit); Star space; Eol]
].

(* [\d,]+(?:\.\d{2})? *)
Definition amount_opt : regex :=
  Seq (Plus [IDigit; IChar ","]) (Opt (Seq (Chr ".") (Times digit 2))).

Definition price_patterns : list regex := [
  (* USD\s*([\d,]+(?:\.\d{2})?) *)
  seq [Lit "USD"; Star space; Grp amount_opt];
  (* \$\s*([\d,]+(?:\.\d{2})?) *)
  seq [Chr "$"; Star space; Grp amount_opt];
  (* (?:Price|PRICE)[:\s]*([\d,]+(?:\.\d{2})?) *)
  seq [Alt (Lit "Price") (Lit "PRICE"); Star [IChar ":"; ISpace]; Grp amount_opt]
].

Definition qty_of (line : list ascii) (pattern : regex) : option N :=
  mt ← search true pattern line; Py.int (default [] (group1 mt)).

Definition qty_ok (qty : N) : bool := ((0 <? qty) && (qty <? 10000))%N.

Fixpoint qty_loop (patterns : list regex) (line : list ascii) (quantity : string)
  : string :=
  match patterns with
  | [] => quantity
  | pattern :: rest =>
      match qty_of line pattern with
      | Some qty =>
          if qty_ok qty then Py.str_of_int qty else qty_loop rest line quantity
      | None => qty_loop rest line quantity
      end
  end.

Definition price_of (line : list ascii) (pattern : regex) : option float :=
  mt ← search true pattern line;
  Py.float (Py.replace (chars ",") [] (default [] (group1 mt))).

Definition price_ok (p : float) : bool :=
  PrimFloat.ltb 0 p && PrimFloat.ltb p 1000000.

(** Here [price] is assigned before the range test, so a value out of
    range stays in [price] unless a later pattern replaces it. *)
Fixpoint price_loop (patterns : list regex) (line : list ascii) (price : float)
  : float :=
  match patterns with
  | [] => price
  | pattern :: rest =>
      match price_of line pattern with
      | Some price => if price_ok price then price else price_loop rest line price
      | None => price_loop rest line price
      end
  end.

Definition extract_quantity_and_price (line : string) : string * float :=
  (qty_loop qty_patterns (chars line) "1",
   price_loop price_patterns (chars line) 0%float).

(** *** extract_material_spec *)

(* \(([^)]+)\) *)
Definition re_paren : regex := seq [Chr "("; Grp (Rep true [IChar ")"] 1 None); Chr ")"].

Definition material_words : list string := ["ASTM"; "GR."; "WCB"; "LCC"; "CF8M"].

(** [any(x in spec.upper() for x in [...])] *)
Definition plausible (spec : list ascii) : bool :=
  existsb (fun x => Py.contains (chars x) (Py.upper spec)) material_words.

Definition extract_material_spec (line : string) : string :=
  match search false re_paren (chars line) with
  | Some mat_match =>
      let spec := Py.strip (default [] (group1 mat_match)) in
      if plausible spec then str spec else ""
  | None => ""
  end.

(** *** process_line *)

(* Marc code:\s*(\d+) *)
Definition re_marc : regex := seq [Lit "Marc code:"; Star space; Grp (Plus digit)].

Definition process_line (line doc_type : string) : option ValveItem :=
  match Py.strip (chars line) with
  | [] => None
  | _ =>
      let codes := extract_codes_from_line line in
      if bool_decide (codes = ∅) then None
      else
        let '(quantity, price) := extract_quantity_and_price line in
        let material_spec := extract_material_spec line in
        let marc_code :=
          match search false re_marc (chars line) with
          | Some marc_match => str (default [] (group1 marc_match))
          | None => ""
          end in
        Some {| item_number := "";
                codes := codes;
                marc_code := marc_code;
                material_spec := material_spec;
                quantity := quantity;
                price := price;
                source_doc := doc_type;
                original_line := line;
                doc_type := doc_type |}
  end.

(** The items that [process_pdf] extracts from the lines of a document of
    type [doc_type]. *)
Definition process_pdf (doc_type : string) (lines : list string) : list ValveItem :=
  omap (fun line => process_line (str (Py.strip (chars line))) doc_type) lines.

(** *** match_items *)

Definition direct_match (po_codes so_codes : gset string) : bool :=
  intersects po_codes so_codes.

(** The two nested loops over the codes: a PO code with "MR" in it that
    equals an SO code once its " MR" is removed. *)
Definition fuzzy_match (po_codes so_codes : gset string) : bool :=
  existsb (fun po_code =>
             existsb (fun so_code =>
                        Py.contains (chars "MR") (chars po_code)
                        && bool_decide
                             (str (Py.replace (chars " MR") [] (chars po_code)) = so_code))
                     (elements so_codes))
          (elements po_codes).

Fixpoint match_items (po_item : ValveItem) (so_items : list ValveItem)
  : option ValveItem * nat :=
  match so_items with
  | [] => (None, 0)
  | so_item :: rest =>
      if direct_match (codes po_item) (codes so_item) then (Some so_item, 100)
      else if fuzzy_match (codes po_item) (codes so_item) then (Some so_item, 95)
      else match_items po_item rest
  end.

(** *** analyze_matches *)

(** The columns of the data frame. *)
Record analysis := {
  po_items : list string;
  so_matches : list string;
  match_scores : list nat;
  quantity_matches : list bool;
  price_matches : list bool;
  material_matches : list bool
}.

Definition analysis0 : analysis :=
  {| po_items := []; so_matches := []; match_scores := [];
     quantity_matches := []; price_matches := []; material_matches := [] |}.

(** [abs(a - b) < 0.01] *)
Definition price_close (a b : float) : bool :=
  PrimFloat.ltb (PrimFloat.abs (PrimFloat.sub a b)) 0.01.

(** The body of the loop [for po_item in po_items]. *)
Definition analyze_po (so_items : list ValveItem) (a : option analysis)
                      (po_item : ValveItem) : option analysis :=
  a ← a;
  let '(matched_item, score) := match_items po_item so_items in
  po_code ← next_iter (codes po_item);
  match matched_item with
  | Some matched_item =>
      so_code ← next_iter (codes matched_item);
      Some {| po_items := po_items a ++ [po_code];
              match_scores := match_scores a ++ [score];
              so_matches := so_matches a ++ [so_code];
              quantity_matches :=
                quantity_matches a
                ++ [bool_decide (quantity po_item = quantity matched_item)];
              price_matches :=
                price_matches a ++ [price_close (price po_item) (price matched_item)];
              material_matches :=
                material_matches a
                ++ [bool_decide (material_spec po_item = material_spec matched_item)] |}
  | None =>
      Some {| po_items := po_items a ++ [po_code];
              match_scores := match_scores a ++ [score];
              so_matches := so_matches a ++ ["No Match"];
              quantity_matches := quantity_matches a ++ [false];
              price_matches := price_matches a ++ [false];
              material_matches := material_matches a ++ [false] |}
  end.

Definition is_doc (t : string) (item : ValveItem) : bool :=
  bool_decide (doc_type item = t).

Definition analyze_matches (items : list ValveItem) : option analysis :=
  let po_items := List.filter (is_doc "PO") items in
  let so_items := List.filter (is_doc "SO") items in
  fold_left (analyze_po so_items) po_items (Some analysis0).

(** *** process_pdf, from the path of the file on *)

(** ["PO" if "PURCHASE_ORDER" in filename else "SO"] on the upper-case base
    name of the path. *)
Definition doc_type_of (pdf_path : string) : string :=
  let filename := Py.upper (Py.basename (chars pdf_path)) in
  if Py.contains (chars "PURCHASE_ORDER") filename then "PO" else "SO".

(** [doc] is the text of each page as [page.get_text()] returns it, or
    [None] when opening or reading the file raises, which the function
    answers with the empty list. *)
Definition process_pdf_file (pdf_path : string) (doc : option (list string))
  : list ValveItem :=
  match doc with
  | Some pages =>
      process_pdf (doc_type_of pdf_path)
        (flat_map (fun text => map str (Py.split_on newline (chars text))) pages)
  | None => []
  end.

(** *** generate_insights *)

Record insight := {
  Category : string;
  Observation : string;
  Recommendation : string
}.

(** [len([x for x in column if f(x)])] *)
Definition count {A} (f : A → bool) (column : list A) : nat :=
  length (List.filter f column).

(** The number of rows of the data frame: its columns have one length. *)
Definition rows (df : analysis) : nat := length (po_items df).

(** [None] is the [ZeroDivisionError] of the match rate on a frame without
    rows. *)
Definition generate_insights (df : analysis) : option (list insight) :=
  match N.of_nat (rows df) with
  | N0 => None
  | Npos n =>
      let matched := count (fun s => 80 <=? s) (match_scores df) in
      let match_rate := PrimFloat.mul (Py.true_div (N.of_nat matched) n) 100 in
      let insights :=
        if PrimFloat.ltb match_rate 95
        then [ {| Category := "Matching";
                  Observation :=
                    "Match rate is " +:+ str (Py.format_fixed 1 match_rate) +:+ "%";
                  Recommendation := "Review unmatched items" |} ]
        else [] in
      let mr_items := count (fun x => Py.contains (chars "MR") (chars x)) (po_items df) in
      let insights :=
        if 0 <? mr_items
        then insights
             ++ [ {| Category := "Code Patterns";
                     Observation :=
                       Py.str_of_int (N.of_nat mr_items) +:+ " items with MR suffix";
                     Recommendation := "Standardize MR suffix handling" |} ]
        else insights in
      let qty_mismatches := count negb (quantity_matches df) in
      let insights :=
        if 0 <? qty_mismatches
        then insights
             ++ [ {| Category := "Quantities";
                     Observation :=
                       Py.str_of_int (N.of_nat qty_mismatches) +:+ " quantity mismatches";
                     Recommendation := "Verify quantity mappings" |} ]
        else insights in
      Some insights
  end.

(** *** generate_excel_report *)

(** [column[mask]]: the entries of a column at the rows where the mask
    holds. *)
Fixpoint select {A} (mask : list bool) (column : list A) : list A :=
  match mask, column with
  | b :: mask', x :: column' =>
      if b then x :: select mask' column' else select mask' column'
  | _, _ => []
  end.

Definition select_rows (mask : list bool) (df : analysis) : analysis :=
  {| po_items := select mask (po_items df);
     so_matches := select mask (so_matches df);
     match_scores := select mask (match_scores df);
     quantity_matches := select mask (quantity_matches df);
     price_matches := select mask (price_matches df);
     material_matches := select mask (material_matches df) |}.

(** The sheets of the report; the sheet of the unmatched items is written
    only when it has a row. *)
Record workbook := {
  summary : list (string * nat);
  matching_details : analysis;
  insights : list insight;
  unmatched_items : option analysis
}.

Definition summary_data (items : list ValveItem) (df : analysis)
  : list (string * nat) :=
  [ ("Total PO Items", count (is_doc "PO") items);
    ("Total SO Items", count (is_doc "SO") items);
    ("Matched Items", count (fun s => 80 <=? s) (match_scores df));
    ("Unmatched Items", count (fun s => s <? 80) (match_scores df));
    ("Quantity Mismatches", count negb (quantity_matches df));
    ("Material Spec Mismatches", count negb (material_matches df)) ].

(** [None] is an exception escaping from the report, which is the one of
    [generate_insights]. *)
Definition generate_excel_report (items : list ValveItem) (df : analysis)
  : option workbook :=
  let summary_data := summary_data items df in
  found ← generate_insights df;
  let unmatched := select_rows (map (fun s => s <? 80) (match_scores df)) df in
  Some {| summary := summary_data;
          matching_details := df;
          insights := found;
          unmatched_items :=
            if bool_decide (rows unmatched = 0) then None else Some unmatched |}.

(** *** process_all *)

(** What a call ends with: an exception, or the value returned. *)
Inductive outcome (A : Type) :=
| Raised
| Returned (value : A).
Arguments Raised {A}.
Arguments Returned {A} value.

(** The items that the loop over the directory listing accumulates: an
    entry is a file name with the pages of the document. *)
Definition collect_items (pdf_folder : string)
                         (entries : list (string * option (list string)))
  : list ValveItem :=
  flat_map (fun '(filename, doc) =>
              if Py.ends_with (chars ".pdf") (chars filename)
              then process_pdf_file
                     (str (Py.path_join (chars pdf_folder) (chars filename))) doc
              else [])
           entries.

(** [erp_loaded] tells that [load_erp_codes] could read the catalog.  The
    value returned is the workbook written ([True] in the source), or
    nothing when there are no items. *)
Definition process_all (erp_loaded : bool) (pdf_folder : string)
                       (entries : list (string * option (list string)))
  : outcome (option workbook) :=
  if negb erp_loaded then Raised
  else
    let items := collect_items pdf_folder entries in
    match items with
    | [] => Returned None
    | _ =>
        match analyze_matches items with
        | None => Raised
        | Some df =>
            match generate_excel_report items df with
            | None => Raised
            | Some wb => Returned (Some wb)
            end
        end
    end.

End Script2.

(** * Vocabulary of the statements *)

Ltac compute_eq := apply (bool_decide_eq_true_1 (_ = _)); vm_compute; reflexivity.
Ltac compute_in := apply (bool_decide_eq_true_1 (_ ∈ _)); vm_compute; reflexivity.

(** The length of the longest prefix whose characters satisfy [p]. *)
Fixpoint run_len (p : ascii → bool) (a : list ascii) : nat :=
  match a with
  | c :: a' => if p c then S (run_len p a') else 0
  | [] => 0
  end.

(** Some SO item of the list matches the PO item. *)
Definition has_match (mappings : gmap string (gset string))
                     (so_items : list Script.ValveItem) (po_item : Script.ValveItem)
  : bool :=
  existsb (Script.items_match mappings po_item) so_items.

(** The null marker of the catalog: "nan" in any case. *)
Definition null_marker (s : string) : Prop := Py.lower (chars s) = chars "nan".

(** A catalog with the pair of the design document, a row with untrimmed
    cells and a null row. *)
Definition catalog_example : list Script.row :=
  [ {| Script.acode := "VLV-100"; Script.cpartno := "X100" |};
    {| Script.acode := " ch-7 mr "; Script.cpartno := "DP 7" |};
    {| Script.acode := "NaN"; Script.cpartno := "X200" |} ].

(** An item of script2.py with at least one code. *)
Definition has_codes2 (item : Script2.ValveItem) : Prop := Script2.codes item ≠ ∅.

(** The items that script2.py accumulates from documents given as a type
    and the lines of the text. *)
Definition process_all2 (docs : list (string * list string)) : list Script2.ValveItem :=
  flat_map (fun '(doc_type, lines) => Script2.process_pdf doc_type lines) docs.

(** A pattern fails on a line when it has no match there or when the
    integer of its first match is out of range. *)
Definition qty_fails (line : list ascii) (pattern : Re.regex) : Prop :=
  ∀ qty, Script.qty_of line pattern = Some qty → Script.qty_ok qty = false.

(** The four tiers of the design document on two sets of codes: the three
    of [items_match] in script.py and the one that [match_items] of
    script2.py adds to the direct tier. *)
Definition any_tier (mappings : gmap string (gset string))
                    (po_codes so_codes : gset string) : bool :=
  Script.direct_match po_codes so_codes
  || Script.numeric_match po_codes so_codes
  || Script.mapped_match mappings po_codes so_codes
  || Script2.fuzzy_match po_codes so_codes.

(** The tiers that each engine has. *)
Definition tiers2 (po_item so_item : Script2.ValveItem) : bool :=
  Script2.direct_match (Script2.codes po_item) (Script2.codes so_item)
  || Script2.fuzzy_match (Script2.codes po_item) (Script2.codes so_item).

(** Items that carry a set of codes and defaults elsewhere. *)
Definition item_of (codes : gset string) (doc_type : string) : Script.ValveItem :=
  {| Script.line_number := ""; Script.item_codes := codes; Script.description := "";
     Script.quantity := "1"; Script.material_spec := ""; Script.source_doc := doc_type;
     Script.original_line := ""; Script.price := 0; Script.delivery_date := "" |}.

Definition item2_of (codes : gset string) (doc_type : string) : Script2.ValveItem :=
  {| Script2.item_number := ""; Script2.codes := codes; Script2.marc_code := "";
     Script2.material_spec := ""; Script2.quantity := "1"; Script2.price := 0;
     Script2.source_doc := doc_type; Script2.original_line := "";
     Script2.doc_type := doc_type |}.

(** The candidates of the design document's precedence scenario, in the
    other order, and a pair that only the fuzzy tier relates. *)
Definition po_ch : Script2.ValveItem := item2_of {["CH-1234"]} "PO".
Definition so_dp : Script2.ValveItem := item2_of {["DP 1234 MM"]} "SO".
Definition so_ch : Script2.ValveItem := item2_of {["CH-1234"]} "SO".
Definition po_vlv_mr : Script.ValveItem := item_of {["VLV MR"]} "PO".
Definition so_vlv : Script.ValveItem := item_of {["VLV"]} "SO".

(** [abs(a - b)] *)
Definition price_gap (a b : float) : float := PrimFloat.abs (PrimFloat.sub a b).

(** Items with the code CH-1234 and a given price. *)
Definition priced (p : float) (doc_type : string) : Script.ValveItem :=
  {| Script.line_number := ""; Script.item_codes := {["CH-1234"]};
     Script.description := ""; Script.quantity := "1"; Script.material_spec := "";
     Script.source_doc := doc_type; Script.original_line := ""; Script.price := p;
     Script.delivery_date := "" |}.

Definition priced2 (p : float) (doc_type : string) : Script2.ValveItem :=
  {| Script2.item_number := ""; Script2.codes := {["CH-1234"]}; Script2.marc_code := "";
     Script2.material_spec := ""; Script2.quantity := "1"; Script2.price := p;
     Script2.source_doc := doc_type; Script2.original_line := "";
     Script2.doc_type := doc_type |}.

(** The text of group 1 of the first match of [\(([^)]+)\)], trimmed. *)
Definition first_segment (line : string) : option (list ascii) :=
  (fun mt => Py.strip (default [] (Re.group1 mt)))
    <$> Re.search false Script2.re_paren (chars line).

Definition po_line : string := "CH-1234 MR QTY 10 USD 250.00 (ASTM A216 GR WCB)".
Definition so_line : string :=
  "DP 1234 MM #12 M-5 Quantity 10 UM Amount USD 250.00 (ASTM A216 GR WCB)".

(** The catalog of the scenario. *)
Definition scenario_catalog : gmap string (gset string) :=
  Script.load_erp_codes [ {| Script.acode := "VLV-100"; Script.cpartno := "X100" |} ].

(** What script.py parses from the two lines. *)
Definition po_parsed : Script.ValveItem :=
  {| Script.line_number := "";
     Script.item_codes := {["CH-1234 MR"; "CH-1234"; "DP 1234 MM"; "DPCV 1234 MM"]};
     Script.description := po_line;
     Script.quantity := "10";
     Script.material_spec := "ASTM A216 GR WCB";
     Script.source_doc := "PO";
     Script.original_line := po_line;
     Script.price := 250;
     Script.delivery_date := "" |}.

Definition so_parsed : Script.ValveItem :=
  {| Script.line_number := "";
     Script.item_codes := {["DP 1234 MM #12 M-5"]};
     Script.description := so_line;
     Script.quantity := "10";
     Script.material_spec := "ASTM A216 GR WCB";
     Script.source_doc := "SO";
     Script.original_line := so_line;
     Script.price := 250;
     Script.delivery_date := "" |}.

(** What script2.py parses from them. *)
Definition po_parsed2 : Script2.ValveItem :=
  {| Script2.item_number := ""; Script2.codes := {["CH-1234 MR"]};
     Script2.marc_code := ""; Script2.material_spec := "ASTM A216 GR WCB";
     Script2.quantity := "10"; Script2.price := 250; Script2.source_doc := "PO";
     Script2.original_line := po_line; Script2.doc_type := "PO" |}.

Definition so_parsed2 : Script2.ValveItem :=
  {| Script2.item_number := ""; Script2.codes := {["DP 1234 MM #12 M-5"]};
     Script2.marc_code := ""; Script2.material_spec := "ASTM A216 GR WCB";
     Script2.quantity := "10"; Script2.price := 250; Script2.source_doc := "SO";
     Script2.original_line := so_line; Script2.doc_type := "SO" |}.

Definition ch_prefixed (code : string) : Prop :=
  Py.starts_with (chars "CH-") (chars code) = true.

Definition dp_of (num : string) : string := "DP " +:+ num +:+ " MM".
Definition dpcv_of (num : string) : string := "DPCV " +:+ num +:+ " MM".

(** The invariant of the extraction loops: a CH code in the set comes with
    its two derived codes. *)
Definition derived_closed (codes : gset string) : Prop :=
  ∀ code num,
    code ∈ codes → ch_prefixed code → four_digits code = Some num →
    dp_of num ∈ codes ∧ dpcv_of num ∈ codes.

(** Texts that do not begin, or do not end, with white space. *)
Definition no_lead (l : list ascii) : Prop :=
  match l with c :: _ => Py.is_space c = false | [] => True end.
Definition no_trail (l : list ascii) : Prop := no_lead (rev l).

(** A character that [upper] leaves alone. *)
Definition upper_fixed (c : ascii) : Prop := Py.upper_char c = c.

(** The text with every run of white space replaced by one blank;
    [in_run] tells that the previous character was white space. *)
Fixpoint collapse_go (in_run : bool) (a : list ascii) : list ascii :=
  match a with
  | [] => []
  | c :: a' =>
      if Py.is_space c
      then if in_run then collapse_go true a' else " "%char :: collapse_go true a'
      else c :: collapse_go false a'
  end.

(** A text whose only white space is single blanks; [prev] tells that the
    character before the text is white space. *)
Fixpoint collapsed_go (prev : bool) (l : list ascii) : bool :=
  match l with
  | [] => true
  | c :: l' =>
      if Py.is_space c
      then Ascii.eqb c " " && negb prev && collapsed_go true l'
      else collapsed_go false l'
  end.
Definition collapsed (l : list ascii) : Prop := collapsed_go false l = true.

(** What the passes of [normalize_code] leave behind: single blanks as the
    only white space, none of it at the ends, and no lower-case letter. *)
Record clean (y : list ascii) : Prop := {
  clean_collapsed : collapsed y;
  clean_lead : no_lead y;
  clean_trail : no_trail y;
  clean_upper : Forall upper_fixed y
}.

(** Suffix and prefix tests on strings. *)
Definition ends_with (s t : string) : Prop := chars s `suffix_of` chars t.
Definition begins_with (s t : string) : Prop := chars s `prefix_of` chars t.

(** A letter of [[a-zA-Z]]. *)
Definition is_letter (c : ascii) : bool := Py.is_lower c || Py.is_upper c.

(** No letter of the text is directly followed by a digit; [prev] tells
    that the character before the text is a letter. *)
Fixpoint separated_go (prev : bool) (l : list ascii) : bool :=
  match l with
  | [] => true
  | c :: l' => negb (prev && Py.is_digit c) && separated_go (is_letter c) l'
  end.
Definition separated (l : list ascii) : Prop := separated_go false l = true.

(** The text with a blank put between every letter and a digit that
    follows it. *)
Fixpoint space_out (prev : bool) (a : list ascii) : list ascii :=
  match a with
  | [] => []
  | c :: a' =>
      if prev && Py.is_digit c
      then " "%char :: c :: space_out (is_letter c) a'
      else c :: space_out (is_letter c) a'
  end.

(** The line that the text of a page becomes. *)
Definition page_line (text : list ascii) : list ascii :=
  Py.strip (space_out false (collapse_go false text)).

(** A line as the text extraction leaves it: not empty, single blanks as
    the only white space, none of it at the ends, and no digit directly
    after a letter. *)
Record tidy (l : list ascii) : Prop := {
  tidy_nonempty : l ≠ [];
  tidy_collapsed : collapsed l;
  tidy_lead : no_lead l;
  tidy_trail : no_trail l;
  tidy_separated : separated l
}.

(** [content.split('\n')] *)
Definition lines_of (content : string) : list string :=
  map str (Py.split_on Re.newline (chars content)).

(** A file name that [determine_doc_type] takes for a data sheet. *)
Definition data_sheet_name (filename : string) : bool :=
  Py.contains (chars "DSS") (Py.upper (chars filename))
  || Py.contains (chars "DATASHEET") (Py.upper (chars filename)).

(** The lists of the analysis agree with its counters: one entry per
    unmatched item, at most one entry of each kind per matched item. *)
Definition lists_agree (a : Script.analysis) : Prop :=
  length (Script.unmatched_items a) = Script.mismatched_items a
  ∧ length (Script.quantity_mismatches a) ≤ Script.matched_items a
  ∧ length (Script.price_mismatches a) ≤ Script.matched_items a
  ∧ length (Script.material_spec_mismatches a) ≤ Script.matched_items a.

(** A price pattern that does not stop the loop on a line: it has no match
    there, its text is no number, or its number is out of range. *)
Definition price_fails2 (line : list ascii) (pattern : Re.regex) : Prop :=
  ∀ p, Script2.price_of line pattern = Some p → Script2.price_ok p = false.

(** A text without lower-case letters. *)
Definition upper_text (s : string) : Prop := Py.upper (chars s) = chars s.

(** A catalog row that [load_erp_codes] does not skip: both cells, once
    trimmed, are non-empty and not the null marker. *)
Definition kept_row (r : Script.row) : Prop :=
  let a := str (Py.strip (chars (Script.acode r))) in
  let c := str (Py.strip (chars (Script.cpartno r))) in
  a ≠ "" ∧ c ≠ "" ∧ ¬ null_marker a ∧ ¬ null_marker c.

(** What a kept row puts into the table: under each of its two codes, and
    under the normal form of each, the other code. *)
Definition links (r : Script.row) (k v : string) : Prop :=
  let a := str (Py.strip (chars (Script.acode r))) in
  let c := str (Py.strip (chars (Script.cpartno r))) in
  kept_row r
  ∧ (((k = a ∨ k = Script.normalize_code a) ∧ v = c)
     ∨ ((k = c ∨ k = Script.normalize_code c) ∧ v = a)).

(** The columns of a frame of [n] rows in which every row without a match
    has the score 0 and no agreement, and every other row the score 95 or
    100. *)
Record frame_ok (n : nat) (df : Script2.analysis) : Prop := {
  frame_po_items : length (Script2.po_items df) = n;
  frame_so_matches : length (Script2.so_matches df) = n;
  frame_match_scores : length (Script2.match_scores df) = n;
  frame_quantity_matches : length (Script2.quantity_matches df) = n;
  frame_price_matches : length (Script2.price_matches df) = n;
  frame_material_matches : length (Script2.material_matches df) = n;
  frame_scores : Forall (fun s => s = 0 ∨ s = 95 ∨ s = 100) (Script2.match_scores df);
  frame_quantity :
    Script2.count (fun s => s <? 80) (Script2.match_scores df)
    ≤ Script2.count negb (Script2.quantity_matches df);
  frame_price :
    Script2.count (fun s => s <? 80) (Script2.match_scores df)
    ≤ Script2.count negb (Script2.price_matches df);
  frame_material :
    Script2.count (fun s => s <? 80) (Script2.match_scores df)
    ≤ Script2.count negb (Script2.material_matches df)
}.

(** The test by which [extract_codes_from_line] of script.py skips a line. *)
Definition skipped (line : string) : bool :=
  existsb (fun pattern => bool_decide (is_Some (Re.search true pattern (chars line))))
          Script.skip_patterns.

(** Patterns that match without consuming text. *)
Definition zero_width (r : Re.regex) : bool :=
  match r with
  | Re.Eps | Re.Bol | Re.Eol | Re.WordB | Re.Behind _ | Re.Ahead _ => true
  | _ => false
  end.

(** Patterns whose every match begins with a literal character that is not
    white space. *)
Fixpoint leads (r : Re.regex) : bool :=
  match r with
  | Re.Chr x => negb (Py.is_space (Py.lower_char x))
  | Re.Seq r1 r2 => leads r1 || (zero_width r1 && leads r2)
  | Re.Alt r1 r2 => leads r1 && leads r2
  | Re.Grp r1 => leads r1
  | _ => false
  end.

(** Every opening parenthesis of the text is directly followed by a closing
    one. *)
Fixpoint closed_at_once (l : list ascii) : bool :=
  match l with
  | [] => true
  | c :: rest =>
      (if Ascii.eqb c "("
       then match rest with
            | c' :: _ => Ascii.eqb c' ")"
            | [] => false
            end
       else true)
      && closed_at_once rest
  end.

(** A text of ASCII characters only. *)
Definition ascii_text (s : string) : bool :=
  forallb (fun c => Py.code c <? 128) (chars s).



(** * Properties *)

(** ** Facts about the matcher *)
Section matcher.
Import Re.

Lemma run_len_le p a : run_len p a ≤ length a.
Proof. induction a as [|c a IH]; simpl; [lia|]. destruct (p c); simpl; lia. Qed.

Lemma run_len_take p a : Forall (fun c => p c = true) (take (run_len p a) a).
Proof.
  induction a as [|c a IH]; simpl; [constructor|].
  destruct (p c) eqn:E; simpl; [by constructor|constructor].
Qed.

Lemma run_len_drop p a :
  match drop (run_len p a) a with c :: _ => p c = false | [] => True end.
Proof.
  induction a as [|c a IH]; simpl; [done|].
  destruct (p c) eqn:E; simpl; done.
Qed.

(** A greedy repetition first offers the longest run, provided it is long
    enough, and offers nothing when the run is too short. *)
Lemma rep_go_head p lo b a :
  lo ≤ run_len p a →
  ∃ tl, rep_go p lo None b a
        = Pos (rev (take (run_len p a) a) ++ b) (drop (run_len p a) a) :: tl.
Proof.
  revert lo b. induction a as [|c a IH]; intros lo b Hlo; simpl in *.
  - assert (lo = 0) as -> by lia. eauto.
  - destruct (p c) eqn:E; simpl in *.
    + destruct (IH (pred lo) (c :: b)) as [tl ->]; [lia|]. simpl.
      rewrite <- app_assoc. simpl. eauto.
    + assert (lo = 0) as -> by lia. eauto.
Qed.

Lemma rep_go_none p lo b a : run_len p a < lo → rep_go p lo None b a = [].
Proof.
  revert lo b. induction a as [|c a IH]; intros lo b Hlo; simpl in *.
  - destruct lo; [lia|done].
  - destruct (p c) eqn:E; simpl in *.
    + rewrite IH by lia. destruct lo; [lia|done].
    + destruct lo; [lia|done].
Qed.

(** Every continuation of a repetition lies after a run of at least [lo]
    characters of the class. *)
Lemma rep_go_elem p lo hi b a st' :
  In st' (rep_go p lo hi b a) →
  ∃ run, a = run ++ after st' ∧ before st' = rev run ++ b
         ∧ Forall (fun c => p c = true) run ∧ lo ≤ length run.
Proof.
  revert lo hi b. induction a as [|c a IH]; intros lo hi b; simpl.
  - destruct lo; simpl; [|done]. intros [<-|[]]. exists []. simpl.
    repeat split; [constructor|lia].
  - rewrite in_app_iff. intros [H|H].
    + assert (Hc : p c = true ∧ In st' (rep_go p (pred lo) (pred <$> hi) (c :: b) a)).
      { destruct hi as [[|h]|]; simpl in H; try done;
          destruct (p c); try done. }
      destruct Hc as [Hc H']. apply IH in H' as (run & -> & Hb & Hrun & Hlen).
      exists (c :: run). simpl. rewrite Hb, <- app_assoc. simpl.
      repeat split; [by constructor|lia].
    + destruct lo; simpl in H; [|done]. destruct H as [<-|[]].
      exists []. simpl. repeat split; [constructor|lia].
Qed.

Lemma cls_space c : cls_has false false space c = Py.is_space c.
Proof. unfold cls_has, items_have, space. simpl. by destruct (Py.is_space c). Qed.

Lemma cls_digit c : cls_has false false digit c = Py.is_digit c.
Proof. unfold cls_has, items_have, digit. simpl. by destruct (Py.is_digit c). Qed.

Lemma between_take b a n :
  n ≤ length a → between (Pos b a) (Pos (rev (take n a) ++ b) (drop n a)) = take n a.
Proof.
  intros Hn. unfold between. simpl. rewrite length_drop. f_equal. lia.
Qed.

Lemma m_seq ic r1 r2 st cap :
  m ic (Seq r1 r2) st cap
  = flat_map (fun '(st', cap') => m ic r2 st' cap') (m ic r1 st cap).
Proof. reflexivity. Qed.

(** A literal matches exactly where the text starts with it. *)
Lemma m_lit s b a cap :
  m false (lit_chars s) (Pos b a) cap
  = if Py.starts_with s a then [(Pos (rev s ++ b) (drop (length s) a), cap)] else [].
Proof.
  revert b a. induction s as [|c s IH]; intros b a.
  - simpl. by destruct a.
  - assert (Hc : m false (Chr c) (Pos b a) cap
                 = match a with
                   | x :: a' => if Ascii.eqb c x then [(Pos (x :: b) a', cap)] else []
                   | [] => []
                   end) by done.
    destruct s as [|c' s].
    + change (lit_chars [c]) with (Chr c). rewrite Hc. destruct a as [|x a]; [done|]. simpl.
      destruct (Ascii.eqb_spec c x) as [->|]; [|done].
      simpl. by destruct a.
    + change (lit_chars (c :: c' :: s)) with (Seq (Chr c) (lit_chars (c' :: s))).
      rewrite m_seq, Hc. destruct a as [|x a]; [done|].
      change (Py.starts_with (c :: c' :: s) (x :: a))
        with (Ascii.eqb c x && Py.starts_with (c' :: s) a).
      destruct (Ascii.eqb_spec c x) as [->|]; [|done].
      cbn [flat_map andb]. rewrite IH, app_nil_r.
      destruct (Py.starts_with (c' :: s) a); [|done].
      change (rev (x :: c' :: s)) with (rev (c' :: s) ++ [x]).
      change (drop (length (x :: c' :: s)) (x :: a)) with (drop (length (c' :: s)) a).
      by rewrite <- app_assoc.
Qed.

Lemma starts_with_app s a : Py.starts_with s a = true ↔ ∃ t, a = s ++ t.
Proof.
  revert a. induction s as [|c s IH]; intros a; simpl.
  - split; [eauto|done].
  - destruct a as [|x a]; [split; [done|by intros [? ?]]|].
    rewrite andb_true_iff, IH. split.
    + intros [Hc [t ->]]. apply Ascii.eqb_eq in Hc as ->. eauto.
    + intros [t [= -> ->]]. split; [apply Ascii.eqb_refl|eauto].
Qed.

End matcher.

Section matcher_inversion.
Import Re.

Lemma m_seq_elem ic r1 r2 st cap x :
  In x (m ic (Seq r1 r2) st cap)
  ↔ ∃ st1 cap1, In (st1, cap1) (m ic r1 st cap) ∧ In x (m ic r2 st1 cap1).
Proof.
  rewrite m_seq, in_flat_map. split.
  - intros ([st1 cap1] & ? & ?). eauto.
  - intros (st1 & cap1 & ? & ?). exists (st1, cap1). eauto.
Qed.

Lemma m_alt_elem ic r1 r2 st cap x :
  In x (m ic (Alt r1 r2) st cap) ↔ In x (m ic r1 st cap) ∨ In x (m ic r2 st cap).
Proof. apply in_app_iff. Qed.

Lemma m_rep_elem ic neg items lo hi b a cap st' cap' :
  In (st', cap') (m ic (Rep neg items lo hi) (Pos b a) cap) →
  cap' = cap
  ∧ ∃ run, a = run ++ after st' ∧ before st' = rev run ++ b
           ∧ Forall (fun c => cls_has ic neg items c = true) run ∧ lo ≤ length run.
Proof.
  cbn [m before after]. rewrite in_map_iff. intros (st1 & [= -> ->] & Hin).
  split; [done|]. by eapply rep_go_elem.
Qed.

Lemma m_lit_elem s b a cap st' cap' :
  In (st', cap') (m false (lit_chars s) (Pos b a) cap) →
  cap' = cap ∧ a = s ++ after st' ∧ before st' = rev s ++ b.
Proof.
  rewrite m_lit. destruct (Py.starts_with s a) eqn:E; [|done].
  apply starts_with_app in E as [t ->].
  intros [[= <- <-]|[]]. simpl. rewrite drop_app_length. done.
Qed.

Lemma m_bol_elem ic st cap st' cap' :
  In (st', cap') (m ic Bol st cap) → st' = st ∧ cap' = cap ∧ before st = [].
Proof. simpl. destruct (before st); [|done]. by intros [[= <- <-]|[]]. Qed.

Lemma m_eol_elem ic st cap st' cap' :
  In (st', cap') (m ic Eol st cap) →
  st' = st ∧ cap' = cap ∧ (after st = [] ∨ after st = [newline]).
Proof.
  simpl. destruct (after st) as [|c [|c' l]]; [| |done].
  - intros [[= <- <-]|[]]. eauto.
  - destruct (Ascii.eqb_spec c newline) as [->|]; [|done].
    intros [[= <- <-]|[]]. eauto.
Qed.

Lemma m_grp_elem ic r st cap st' cap' :
  In (st', cap') (m ic (Grp r) st cap) →
  cap' = Some (between st st') ∧ ∃ cap0, In (st', cap0) (m ic r st cap).
Proof.
  cbn [m]. rewrite in_map_iff. intros ([st1 cap1] & [= -> <-] & Hin). eauto.
Qed.

(** A match at a position is the first of the listed continuations. *)
Lemma match_at_Some ic r st mt :
  match_at ic r st = Some mt →
  ∃ st' cap, In (st', cap) (m ic r st None) ∧ mt = Match (between st st') cap.
Proof.
  unfold match_at. destruct (m ic r st None) as [|[st' cap] l]; [done|].
  intros [= <-]. exists st', cap. split; [by left|done].
Qed.

Lemma match_at_None ic r st : m ic r st None = [] → match_at ic r st = None.
Proof. unfold match_at. by intros ->. Qed.

(** A successful search matched at some position of the subject. *)
Lemma search_from_Some ic r b a mt :
  search_from ic r b a = Some mt →
  ∃ pre a', a = pre ++ a' ∧ match_at ic r (Pos (rev pre ++ b) a') = Some mt.
Proof.
  revert b. induction a as [|c a IH]; intros b; simpl.
  - destruct (match_at ic r (Pos b [])) eqn:E; [|done].
    intros [= <-]. by exists [], [].
  - destruct (match_at ic r (Pos b (c :: a))) eqn:E.
    + intros [= <-]. by exists [], (c :: a).
    + intros (pre & a' & -> & H)%IH. exists (c :: pre), a'.
      split; [done|]. simpl. by rewrite <- app_assoc.
Qed.

Lemma between_app b run rest b' :
  between (Pos b (run ++ rest)) (Pos b' rest) = run.
Proof.
  unfold between. simpl. rewrite length_app.
  replace (length run + length rest - length rest) with (length run) by lia.
  by rewrite take_app_length.
Qed.

(** [s$]: the pattern matches only where the rest of the text is [s],
    possibly followed by a final newline, and it matches [s]. *)
Lemma match_at_lit_eol s b a mt :
  match_at false (Seq (lit_chars s) Eol) (Pos b a) = Some mt →
  (a = s ∨ a = s ++ [newline]) ∧ mt = Match s None.
Proof.
  intros (st' & cap & Hin & ->)%match_at_Some.
  apply m_seq_elem in Hin as (st1 & cap1 & H1 & H2).
  apply m_lit_elem in H1 as (-> & -> & Hb).
  apply m_eol_elem in H2 as (-> & -> & Ha).
  destruct st1 as [b1 a1]. simpl in *. rewrite between_app.
  destruct Ha as [->| ->]; [rewrite app_nil_r|]; eauto.
Qed.

(** [Marc code:\s*(\d+)]: group 1 of a match is a non-empty string of
    digits. *)
Lemma search_marc_digits s mt :
  search false Script.re_marc s = Some mt →
  ∃ ds, group1 mt = Some ds ∧ ds ≠ [] ∧ Forall (fun c => Py.is_digit c = true) ds.
Proof.
  unfold search. intros (pre & a & _ & H)%search_from_Some.
  apply match_at_Some in H as (st' & cap & Hin & ->). simpl.
  change Script.re_marc
    with (Seq (lit_chars (chars "Marc code:"))
              (Seq (Star space) (Grp (Plus digit)))) in Hin.
  apply m_seq_elem in Hin as ([b1 a1] & cap1 & H1 & Hin).
  apply m_seq_elem in Hin as ([b2 a2] & cap2 & H2 & Hin).
  apply m_grp_elem in Hin as (-> & cap0 & Hin).
  apply m_rep_elem in Hin as (_ & run & Ha & Hb & Hrun & Hlen).
  simpl in Ha. subst a2. destruct st' as [b3 a3]. simpl in *.
  rewrite between_app. exists run. split; [done|]. split.
  - intros ->. simpl in Hlen. lia.
  - eapply Forall_impl; [exact Hrun|]. intros c Hc. by rewrite <- cls_digit.
Qed.

End matcher_inversion.

(** ** The first parenthesized segment *)
Section segments.
Import Re.

Lemma run_len_app p run c rest :
  Forall (fun x => p x = true) run → p c = false →
  run_len p (run ++ c :: rest) = length run.
Proof.
  induction 1 as [|x run Hx _ IH]; intros Hc; simpl; [by rewrite Hc|].
  by rewrite Hx, IH.
Qed.

Lemma not_paren c : cls_has false true [IChar ")"] c = negb (Ascii.eqb ")" c).
Proof.
  unfold cls_has, items_have. cbn [existsb item_has andb].
  by destruct (Ascii.eqb ")" c).
Qed.

Lemma m_chr_cons ic x b c a cap :
  m ic (Chr x) (Pos b (c :: a)) cap
  = if chr_eq ic x c then [(Pos (c :: b) a, cap)] else [].
Proof. reflexivity. Qed.

Lemma m_grp_rep ic neg items lo hi b a cap :
  m ic (Grp (Rep neg items lo hi)) (Pos b a) cap
  = map (fun st' => (st', Some (between (Pos b a) st')))
        (rep_go (cls_has ic neg items) lo hi b a).
Proof. cbn [m before after]. by rewrite map_map. Qed.

(** At an opening parenthesis that is followed by a non-empty text without
    a closing one and then a closing one, [\(([^)]+)\)] matches up to that
    closing parenthesis and group 1 is the text between the two. *)
Lemma match_at_paren b seg post :
  seg ≠ [] → ¬ In ")"%char seg →
  match_at false Script2.re_paren (Pos b ("("%char :: seg ++ ")"%char :: post))
  = Some (Match ("("%char :: seg ++ [")"%char]) (Some seg)).
Proof.
  intros Hne Hseg. unfold match_at.
  change Script2.re_paren
    with (Seq (Chr "(") (Seq (Grp (Rep true [IChar ")"] 1 None)) (Chr ")"))).
  rewrite m_seq, m_chr_cons. cbn [chr_eq]. rewrite Ascii.eqb_refl.
  cbn [flat_map]. rewrite app_nil_r, m_seq, m_grp_rep.
  set (p := cls_has false true [IChar ")"]).
  assert (Hrun : run_len p (seg ++ ")"%char :: post) = length seg).
  { apply run_len_app.
    - apply Forall_forall. intros x Hx. subst p. cbv beta. rewrite not_paren.
      apply negb_true_iff, Ascii.eqb_neq. intros <-. apply Hseg.
      by apply list_elem_of_In.
    - subst p. cbv beta. by rewrite not_paren, Ascii.eqb_refl. }
  destruct (rep_go_head p 1 ("("%char :: b) (seg ++ ")"%char :: post)) as [tl ->].
  { rewrite Hrun. destruct seg; [done|simpl; lia]. }
  rewrite Hrun, take_app_length, drop_app_length. cbn [map flat_map].
  rewrite m_chr_cons. cbn [chr_eq]. rewrite Ascii.eqb_refl. cbn [app].
  f_equal. f_equal.
  - unfold between. cbn [after length].
    rewrite length_app. cbn [length].
    replace (S (length seg + S (length post)) - length post) with (S (S (length seg)))
      by lia.
    cbn [take]. f_equal.
    replace (seg ++ ")"%char :: post) with ((seg ++ [")"%char]) ++ post)
      by (by rewrite <- app_assoc).
    apply take_app_length'. rewrite length_app. simpl. lia.
  - unfold between. cbn [after]. rewrite length_app. cbn [length].
    replace (length seg + S (length post) - S (length post)) with (length seg) by lia.
    by rewrite take_app_length.
Qed.

Lemma match_at_not_paren b c a :
  c ≠ "("%char → match_at false Script2.re_paren (Pos b (c :: a)) = None.
Proof.
  intros Hc. apply match_at_None.
  change Script2.re_paren
    with (Seq (Chr "(") (Seq (Grp (Rep true [IChar ")"] 1 None)) (Chr ")"))).
  rewrite m_seq, m_chr_cons. cbn [chr_eq].
  destruct (Ascii.eqb_spec "(" c); [by subst|done].
Qed.

End segments.


(** ** Sets and their first element *)
Section sets.
Implicit Types s a b : gset string.

Lemma next_iter_None s : next_iter s = None ↔ s = ∅.
Proof.
  unfold next_iter. rewrite head_None. split.
  - intros H. apply leibniz_equiv. by apply elements_empty_inv.
  - intros ->. apply elements_empty.
Qed.

Lemma next_iter_Some s x : next_iter s = Some x → x ∈ s.
Proof.
  unfold next_iter. intros H. apply elem_of_elements.
  destruct (elements s); simplify_eq/=. left.
Qed.

Lemma next_iter_is_Some s : s ≠ ∅ → is_Some (next_iter s).
Proof.
  intros Hs. destruct (next_iter s) eqn:E; [eauto|].
  by apply next_iter_None in E.
Qed.

Lemma intersects_true a b : intersects a b = true ↔ ∃ x, x ∈ a ∧ x ∈ b.
Proof.
  unfold intersects. rewrite bool_decide_eq_true. split.
  - intros H. apply set_choose_L in H as [x Hx].
    exists x. by apply elem_of_intersection.
  - intros [x [? ?]] E. apply (not_elem_of_empty (C:=gset string) x).
    rewrite <- E. by apply elem_of_intersection.
Qed.

Lemma intersects_nonempty a b : intersects a b = true → a ≠ ∅.
Proof.
  rewrite intersects_true. intros (x & Hx & _) ->.
  by apply (not_elem_of_empty (C:=gset string) x).
Qed.

Lemma existsb_elements_nonempty (f : string → bool) s :
  existsb f (elements s) = true → s ≠ ∅.
Proof. intros H ->. by rewrite elements_empty in H. Qed.
End sets.

(** ** The counters of the script.py analysis *)
Section counters.
Import Script.
Variable mappings : gmap string (gset string).

Lemma numbers_of_nonempty po_codes :
  numbers_of po_codes ≠ ∅ → po_codes ≠ ∅.
Proof. intros H ->. apply H. unfold numbers_of. apply set_omap_empty. Qed.

(** A PO item that matches some SO item has a code. *)
Lemma items_match_codes po_item so_item :
  items_match mappings po_item so_item = true → item_codes po_item ≠ ∅.
Proof.
  unfold items_match, direct_match, numeric_match, mapped_match.
  destruct (intersects (item_codes po_item) _) eqn:E1.
  { intros _. by eapply intersects_nonempty. }
  destruct (intersects (numbers_of _) _) eqn:E2.
  { intros _. apply numbers_of_nonempty. by eapply intersects_nonempty. }
  apply existsb_elements_nonempty.
Qed.

(** The matched pair is recorded whenever the PO item has a code. *)
Lemma record_match_is_Some po_item so_item a :
  item_codes po_item ≠ ∅ → is_Some (record_match po_item so_item a).
Proof.
  intros H. unfold record_match.
  destruct (next_iter_is_Some _ H) as [code ->]. simpl. eauto.
Qed.

Lemma record_match_counters po_item so_item a a' :
  record_match po_item so_item a = Some a' →
  total_po_items a' = total_po_items a
  ∧ matched_items a' = matched_items a + 1
  ∧ mismatched_items a' = mismatched_items a.
Proof.
  unfold record_match. destruct (next_iter _); intros; simplify_eq/=. done.
Qed.

(** The inner loop always ends normally; it reports whether some SO item
    matches and, if so, adds one to the matched counter only. *)
Lemma scan_so_items_counters po_item so_items a :
  ∃ a', scan_so_items mappings po_item so_items a
        = Some (has_match mappings so_items po_item, a')
    ∧ total_po_items a' = total_po_items a
    ∧ mismatched_items a' = mismatched_items a
    ∧ matched_items a'
      = matched_items a + (if has_match mappings so_items po_item then 1 else 0).
Proof.
  unfold has_match. induction so_items as [|so_item rest IH]; simpl.
  - exists a. repeat split; lia.
  - destruct (items_match mappings po_item so_item) eqn:E; simpl.
    + destruct (record_match_is_Some po_item so_item a) as [a' Ha'].
      { by eapply items_match_codes. }
      rewrite Ha'. simpl. exists a'.
      apply record_match_counters in Ha' as (? & ? & ?). by repeat split.
    + apply IH.
Qed.

Lemma analyze_loop_counters so_items po_items a :
  ∃ a', fold_left (analyze_po mappings so_items) po_items (Some a) = Some a'
    ∧ total_po_items a' = total_po_items a + length po_items
    ∧ matched_items a'
      = matched_items a + length (List.filter (has_match mappings so_items) po_items)
    ∧ mismatched_items a'
      = mismatched_items a
        + length (List.filter (fun po => negb (has_match mappings so_items po)) po_items).
Proof.
  revert a. induction po_items as [|po_item rest IH]; intros a; simpl.
  - exists a. repeat split; lia.
  - destruct (scan_so_items_counters po_item so_items (count_po a))
      as (a1 & -> & Ht & Hu & Hm). simpl in *.
    destruct (has_match mappings so_items po_item) eqn:E; simpl.
    + destruct (IH a1) as (a' & -> & ? & ? & ?). exists a'.
      repeat split; simpl; lia.
    + destruct (IH (record_unmatched po_item a1)) as (a' & -> & ? & ? & ?).
      exists a'. simpl in *. repeat split; lia.
Qed.
End counters.

(** C10.  For every collection of accumulated items the analysis of
    script.py ends normally, its total is the number of items whose document
    type is PO, and matched + mismatched = total: the matched counter is the
    number of PO items for which some SO item matches, the mismatched counter
    the number of the others. *)
Theorem analyze_counts_partition (mappings : gmap string (gset string))
                                 (items : list Script.ValveItem) :
  let po_items := List.filter (Script.is_doc "PO") items in
  let so_items := List.filter (Script.is_doc "SO") items in
  ∃ a, Script.analyze_and_report mappings items = Some a
    ∧ Script.total_po_items a = length po_items
    ∧ Script.matched_items a + Script.mismatched_items a = Script.total_po_items a
    ∧ Script.matched_items a
      = length (List.filter (has_match mappings so_items) po_items)
    ∧ Script.mismatched_items a
      = length (List.filter (fun po => negb (has_match mappings so_items po)) po_items).
Proof.
  intros po_items so_items. unfold Script.analyze_and_report.
  destruct (analyze_loop_counters mappings so_items po_items Script.analysis0)
    as (a & Ha & Ht & Hm & Hu).
  exists a. fold po_items so_items. rewrite Ha. simpl in *.
  repeat split; try lia.
  rewrite Ht, Hm, Hu. clear.
  induction po_items as [|p l IH]; simpl; [done|].
  destruct (has_match mappings so_items p); simpl; lia.
Qed.

(** ** The alias table *)
Section alias_table.
Import Script.
Implicit Types d : gmap string (gset string).

Lemma add_to_here k v d : v ∈ get_set (add_to k v d) k.
Proof.
  unfold add_to, get_set. rewrite lookup_insert_eq. simpl.
  apply elem_of_union_r. by apply elem_of_singleton.
Qed.

(** Insertions are set unions: nothing is ever removed. *)
Lemma add_to_keeps k v d k' v' :
  v' ∈ get_set d k' → v' ∈ get_set (add_to k v d) k'.
Proof.
  unfold add_to. intros H. destruct (decide (k = k')) as [->|Hne].
  - unfold get_set at 1. rewrite lookup_insert_eq. simpl.
    by apply elem_of_union_l.
  - unfold get_set at 1. by rewrite lookup_insert_ne.
Qed.

Lemma load_row_keeps d r k v : v ∈ get_set d k → v ∈ get_set (load_row d r) k.
Proof.
  intros H. unfold load_row.
  destruct (_ || _); [done|].
  do 2 destruct (bool_decide (normalize_code _ ≠ _));
    repeat apply add_to_keeps; done.
Qed.

Lemma load_rows_keep df d k v :
  v ∈ get_set d k → v ∈ get_set (fold_left load_row df d) k.
Proof.
  revert d. induction df as [|r df IH]; intros d H; simpl; [done|].
  apply IH. by apply load_row_keeps.
Qed.

(** A row that is not skipped links its two codes both ways. *)
Lemma load_row_links d r :
  let a := str (Py.strip (chars (acode r))) in
  let c := str (Py.strip (chars (cpartno r))) in
  a ≠ "" → c ≠ "" → ¬ null_marker a → ¬ null_marker c →
  c ∈ get_set (load_row d r) a ∧ a ∈ get_set (load_row d r) c.
Proof.
  intros a c Ha Hc Hna Hnc. unfold load_row. fold a c.
  rewrite (bool_decide_eq_false_2 (a = "")) by done.
  rewrite (bool_decide_eq_false_2 (c = "")) by done.
  unfold is_nan_text.
  rewrite (bool_decide_eq_false_2 (Py.lower (chars a) = _)) by done.
  rewrite (bool_decide_eq_false_2 (Py.lower (chars c) = _)) by done.
  change (false || false || false || false) with false. cbv iota.
  split; do 2 destruct (bool_decide (normalize_code _ ≠ _));
    repeat first [apply add_to_here | apply add_to_keeps].
Qed.
End alias_table.

(** C6.  Alias-table symmetry.  Let [a] and [c] be the two code cells of a
    catalog row as the loader reads them, that is [str(cell).strip()].  If
    both are non-empty and neither is the null marker "nan" (in any case),
    then after [load_erp_codes] the table maps [a] to a set that contains [c]
    and [c] to a set that contains [a]. *)
Theorem alias_table_symmetry (df : list Script.row) (r : Script.row) :
  let a := str (Py.strip (chars (Script.acode r))) in
  let c := str (Py.strip (chars (Script.cpartno r))) in
  r ∈ df → a ≠ "" → c ≠ "" → ¬ null_marker a → ¬ null_marker c →
  c ∈ get_set (Script.load_erp_codes df) a
  ∧ a ∈ get_set (Script.load_erp_codes df) c.
Proof.
  intros a c Hin Ha Hc Hna Hnc. unfold Script.load_erp_codes.
  generalize (∅ : gmap string (gset string)) as d.
  induction df as [|r' df IH]; intros d; [by apply not_elem_of_nil in Hin|].
  simpl. apply elem_of_cons in Hin as [<-|Hin].
  - destruct (load_row_links d r Ha Hc Hna Hnc) as [H1 H2].
    split; by apply load_rows_keep.
  - by apply IH.
Qed.

(** The pair of the design document in a catalog of three rows. *)
Lemma alias_table_symmetry_witness :
  "X100" ∈ get_set (Script.load_erp_codes catalog_example) "VLV-100"
  ∧ "VLV-100" ∈ get_set (Script.load_erp_codes catalog_example) "X100".
Proof.
  apply (alias_table_symmetry catalog_example
           {| Script.acode := "VLV-100"; Script.cpartno := "X100" |}).
  - left.
  - discriminate.
  - discriminate.
  - unfold null_marker. vm_compute. discriminate.
  - unfold null_marker. vm_compute. discriminate.
Defined.

(** ** Parsed items carry codes *)
Section parsed_items.

Lemma process_line_codes line doc_type item :
  Script.process_line line doc_type = Some item →
  Script.item_codes item = Script.extract_codes_from_line line
  ∧ Script.item_codes item ≠ ∅.
Proof.
  unfold Script.process_line. destruct (Py.strip (chars line)); [done|].
  case_bool_decide as Hc; [done|].
  destruct (Script.extract_quantity_and_price line).
  intros [= <-]. done.
Qed.

Lemma process_line2_codes line doc_type item :
  Script2.process_line line doc_type = Some item →
  Script2.codes item = Script2.extract_codes_from_line line
  ∧ Script2.codes item ≠ ∅.
Proof.
  unfold Script2.process_line. destruct (Py.strip (chars line)); [done|].
  case_bool_decide as Hc; [done|].
  destruct (Script2.extract_quantity_and_price line).
  intros [= <-]. done.
Qed.

(** The duplicate filter only removes items. *)
Lemma unique_items_subset seen items item :
  item ∈ Script.unique_items seen items → item ∈ items.
Proof.
  revert seen. induction items as [|i items IH]; intros seen; simpl; [done|].
  destruct (_ && _).
  - intros [->|H]%elem_of_cons; [left|right; eauto].
  - intros H. right. eauto.
Qed.

Lemma process_pdfs_codes docs item :
  item ∈ Script.process_pdfs docs → Script.item_codes item ≠ ∅.
Proof.
  unfold Script.process_pdfs. rewrite list_elem_of_In, in_flat_map.
  intros ([doc_type content] & _ & Hin). apply list_elem_of_In in Hin.
  apply unique_items_subset, list_elem_of_omap in Hin as (line & _ & Hl).
  by apply process_line_codes in Hl as [_ ?].
Qed.

Lemma process_pdf2_codes doc_type lines item :
  item ∈ Script2.process_pdf doc_type lines → Script2.codes item ≠ ∅.
Proof.
  intros (line & _ & Hl)%list_elem_of_omap.
  by apply process_line2_codes in Hl as [_ ?].
Qed.

(** The engine of script2.py returns one of the candidates. *)
Lemma match_items_elem po_item so_items so_item score :
  Script2.match_items po_item so_items = (Some so_item, score) →
  so_item ∈ so_items.
Proof.
  induction so_items as [|s rest IH]; simpl; [done|].
  destruct (Script2.direct_match _ _); [intros [= <- _]; left|].
  destruct (Script2.fuzzy_match _ _); [intros [= <- _]; left|].
  intros H. right. eauto.
Qed.

Lemma analyze_po2_is_Some so_items a po_item :
  has_codes2 po_item → Forall has_codes2 so_items →
  is_Some (Script2.analyze_po so_items (Some a) po_item).
Proof.
  intros Hpo Hso. unfold Script2.analyze_po. simpl.
  destruct (Script2.match_items po_item so_items) as [matched score] eqn:E.
  destruct (next_iter_is_Some _ Hpo) as [po_code ->]. simpl.
  destruct matched as [matched|]; [|eauto].
  apply match_items_elem in E.
  rewrite Forall_forall in Hso. apply Hso in E.
  destruct (next_iter_is_Some _ E) as [so_code ->]. simpl. eauto.
Qed.

Lemma analyze_matches_loop_is_Some so_items po_items a :
  Forall has_codes2 po_items → Forall has_codes2 so_items →
  is_Some (fold_left (Script2.analyze_po so_items) po_items (Some a)).
Proof.
  intros Hpo Hso. revert a.
  induction Hpo as [|po_item rest Hp _ IH]; intros a; cbn [fold_left]; [eauto|].
  destruct (analyze_po2_is_Some so_items a po_item Hp Hso) as [a' ->].
  apply IH.
Qed.

Lemma Forall_filter_keep {A} (P : A → Prop) (f : A → bool) (l : list A) :
  Forall P l → Forall P (List.filter f l).
Proof.
  induction 1 as [|x l Hx _ IH]; simpl; [constructor|].
  destruct (f x); [by constructor|done].
Qed.

Lemma analyze_matches_is_Some items :
  Forall has_codes2 items → is_Some (Script2.analyze_matches items).
Proof.
  intros H. unfold Script2.analyze_matches.
  apply analyze_matches_loop_is_Some; by apply Forall_filter_keep.
Qed.
End parsed_items.

(** C9.  In both scripts the line parser returns either nothing or an item
    whose set of codes is the extractor's set for the line and is not empty,
    so that taking the first element of that set succeeds.  Consequently
    every item accumulated from documents has a code, and the analyzers,
    which take the first code of the items, end without an exception on
    them. *)
Theorem parsed_item_has_codes (line doc_type : string)
                              (mappings : gmap string (gset string))
                              (docs : list (string * list string)) :
  (∀ item, Script.process_line line doc_type = Some item →
     Script.item_codes item ≠ ∅ ∧ is_Some (next_iter (Script.item_codes item)))
  ∧ (∀ item, Script2.process_line line doc_type = Some item →
     Script2.codes item ≠ ∅ ∧ is_Some (next_iter (Script2.codes item)))
  ∧ (Script.extract_codes_from_line line = ∅ →
     Script.process_line line doc_type = None)
  ∧ (Script2.extract_codes_from_line line = ∅ →
     Script2.process_line line doc_type = None)
  ∧ Forall (fun item => Script.item_codes item ≠ ∅) (Script.process_pdfs docs)
  ∧ Forall (fun item => Script2.codes item ≠ ∅) (process_all2 docs)
  ∧ is_Some (Script.analyze_and_report mappings (Script.process_pdfs docs))
  ∧ is_Some (Script2.analyze_matches (process_all2 docs)).
Proof.
  assert (H2 : Forall has_codes2 (process_all2 docs)).
  { apply Forall_forall. intros item. unfold process_all2.
    rewrite list_elem_of_In, in_flat_map. intros ([t lines] & _ & Hin).
    apply list_elem_of_In in Hin. by eapply process_pdf2_codes. }
  repeat split.
  - by apply process_line_codes in H as [_ ?].
  - apply next_iter_is_Some. by apply process_line_codes in H as [_ ?].
  - by apply process_line2_codes in H as [_ ?].
  - apply next_iter_is_Some. by apply process_line2_codes in H as [_ ?].
  - intros He. unfold Script.process_line. destruct (Py.strip _); [done|].
    by rewrite bool_decide_eq_true_2.
  - intros He. unfold Script2.process_line. destruct (Py.strip _); [done|].
    by rewrite bool_decide_eq_true_2.
  - apply Forall_forall. intros item. apply process_pdfs_codes.
  - exact H2.
  - unfold Script.analyze_and_report.
    edestruct analyze_loop_counters as (a & -> & _). eauto.
  - by apply analyze_matches_is_Some.
Qed.

(** The line "CH-1234" gives an item in both scripts. *)
Lemma parsed_item_has_codes_witness :
  ∃ item item2,
    Script.process_line "CH-1234" "PO" = Some item
    ∧ Script2.process_line "CH-1234" "PO" = Some item2
    ∧ Script.item_codes item ≠ ∅
    ∧ Script2.codes item2 ≠ ∅.
Proof.
  destruct (Script.process_line "CH-1234" "PO") as [item|] eqn:E1;
    [|vm_compute in E1; discriminate].
  destruct (Script2.process_line "CH-1234" "PO") as [item2|] eqn:E2;
    [|vm_compute in E2; discriminate].
  exists item, item2.
  destruct (parsed_item_has_codes "CH-1234" "PO" ∅ []) as (H1 & H2 & _).
  repeat split; [apply (H1 item E1) | apply (H2 item2 E2)].
Defined.

(** ** The quantity loop *)
Section quantity.

Lemma qty_loop_first pre pattern post line quantity qty :
  Forall (qty_fails line) pre →
  Script.qty_of line pattern = Some qty → Script.qty_ok qty = true →
  Script.qty_loop (pre ++ pattern :: post) line quantity = Py.str_of_int qty.
Proof.
  intros Hpre Hq Hok. induction Hpre as [|p pre Hp _ IH]; simpl.
  - by rewrite Hq, Hok.
  - destruct (Script.qty_of line p) as [q|] eqn:E; [|done].
    by rewrite (Hp q E).
Qed.

Lemma qty_loop_default patterns line quantity :
  Forall (qty_fails line) patterns →
  Script.qty_loop patterns line quantity = quantity.
Proof.
  induction 1 as [|p l Hp _ IH]; simpl; [done|].
  destruct (Script.qty_of line p) as [q|] eqn:E; [|done].
  by rewrite (Hp q E).
Qed.

(** The same loop in script2.py. *)
Lemma qty_loop2_eq patterns line quantity :
  Script2.qty_loop patterns line quantity = Script.qty_loop patterns line quantity.
Proof. induction patterns as [|p l IH]; simpl; [done|]. by rewrite IH. Qed.

(** Either some pattern is the first to succeed or all of them fail. *)
Lemma qty_patterns_split line patterns :
  Forall (qty_fails line) patterns
  ∨ ∃ pre pattern post qty,
      patterns = pre ++ pattern :: post ∧ Forall (qty_fails line) pre
      ∧ Script.qty_of line pattern = Some qty ∧ Script.qty_ok qty = true.
Proof.
  induction patterns as [|p l IH]; [left; constructor|].
  destruct (Script.qty_of line p) as [q|] eqn:E.
  - destruct (Script.qty_ok q) eqn:Hok.
    + right. exists [], p, l, q. repeat split; [constructor|done..].
    + destruct IH as [IH|(pre & p' & post & q' & -> & ? & ? & ?)].
      * left. constructor; [|done]. intros q' Hq'. congruence.
      * right. exists (p :: pre), p', post, q'.
        repeat split; [|done..]. constructor; [|done].
        intros q'' Hq''. congruence.
  - destruct IH as [IH|(pre & p' & post & q' & -> & ? & ? & ?)].
    + left. constructor; [|done]. intros q' Hq'. congruence.
    + right. exists (p :: pre), p', post, q'.
      repeat split; [|done..]. constructor; [|done].
      intros q'' Hq''. congruence.
Qed.
End quantity.

(** C7.  In both scripts the quantity is decided by the first pattern of the
    ordered list whose first match on the line yields an integer strictly
    between 0 and 10000: whatever patterns come after it, the quantity is
    that integer printed in decimal.  If no pattern yields such an integer
    the quantity is "1".  One of the two cases always applies.  The line
    "QTY: 15000" has quantity "1" and the line "QTY: 25" has quantity
    "25".  (What a pattern yields, [qty_of], is the same function in the two
    scripts; their lists of patterns differ.) *)
Theorem quantity_first_in_range (line : string) :
  (∀ pre pattern post qty,
     Forall (qty_fails (chars line)) pre →
     Script.qty_of (chars line) pattern = Some qty →
     (0 < qty < 10000)%N →
     (Script.qty_patterns = pre ++ pattern :: post →
      (Script.extract_quantity_and_price line).1 = Py.str_of_int qty)
     ∧ (Script2.qty_patterns = pre ++ pattern :: post →
        (Script2.extract_quantity_and_price line).1 = Py.str_of_int qty))
  ∧ (Forall (qty_fails (chars line)) Script.qty_patterns →
     (Script.extract_quantity_and_price line).1 = "1")
  ∧ (Forall (qty_fails (chars line)) Script2.qty_patterns →
     (Script2.extract_quantity_and_price line).1 = "1")
  ∧ (∀ patterns,
       Forall (qty_fails (chars line)) patterns
       ∨ ∃ pre pattern post qty,
           patterns = pre ++ pattern :: post
           ∧ Forall (qty_fails (chars line)) pre
           ∧ Script.qty_of (chars line) pattern = Some qty
           ∧ (0 < qty < 10000)%N)
  ∧ (Script.extract_quantity_and_price "QTY: 15000").1 = "1"
  ∧ (Script.extract_quantity_and_price "QTY: 25").1 = "25"
  ∧ (Script2.extract_quantity_and_price "QTY: 15000").1 = "1"
  ∧ (Script2.extract_quantity_and_price "QTY: 25").1 = "25".
Proof.
  assert (Hok : ∀ q, (0 < q < 10000)%N ↔ Script.qty_ok q = true).
  { intros q. unfold Script.qty_ok.
    rewrite andb_true_iff, !N.ltb_lt. done. }
  split; [|split; [|split; [|split]]].
  - intros pre pattern post qty Hpre Hq Hr. apply Hok in Hr.
    unfold Script.extract_quantity_and_price, Script2.extract_quantity_and_price.
    cbn [fst]. split; intros ->.
    + by apply qty_loop_first.
    + rewrite qty_loop2_eq. by apply qty_loop_first.
  - intros H. cbn [fst Script.extract_quantity_and_price].
    by apply qty_loop_default.
  - intros H. cbn [fst Script2.extract_quantity_and_price].
    rewrite qty_loop2_eq. by apply qty_loop_default.
  - intros patterns.
    destruct (qty_patterns_split (chars line) patterns)
      as [?|(pre & p & post & q & ? & ? & ? & ?)]; [by left|right].
    exists pre, p, post, q. by rewrite Hok.
  - repeat split; vm_compute; reflexivity.
Qed.

(** On "QTY: 25" the first pattern of either list succeeds with 25. *)
Lemma quantity_first_in_range_witness :
  (Script.extract_quantity_and_price "QTY: 25").1 = Py.str_of_int 25
  ∧ (Script2.extract_quantity_and_price "QTY: 25").1 = Py.str_of_int 25.
Proof.
  destruct (quantity_first_in_range "QTY: 25") as [H _].
  split.
  - destruct (H [] (hd Re.Eps Script.qty_patterns) (tl Script.qty_patterns) 25%N)
      as [H1 _]; [constructor | vm_compute; reflexivity | lia |].
    apply H1. reflexivity.
  - destruct (H [] (hd Re.Eps Script2.qty_patterns) (tl Script2.qty_patterns) 25%N)
      as [_ H2]; [constructor | vm_compute; reflexivity | lia |].
    apply H2. reflexivity.
Defined.

(** ** The matching engines *)

Section engines.
Variable mappings : gmap string (gset string).

Lemma scan_so_items_first po_item so_items a :
  (∃ pre so_item post a',
      so_items = pre ++ so_item :: post
      ∧ Forall (fun s => Script.items_match mappings po_item s = false) pre
      ∧ Script.items_match mappings po_item so_item = true
      ∧ Script.record_match po_item so_item a = Some a'
      ∧ Script.scan_so_items mappings po_item so_items a = Some (true, a'))
  ∨ (Forall (fun s => Script.items_match mappings po_item s = false) so_items
     ∧ Script.scan_so_items mappings po_item so_items a = Some (false, a)).
Proof.
  induction so_items as [|s rest IH]; simpl.
  - right. split; [constructor|done].
  - destruct (Script.items_match mappings po_item s) eqn:E.
    + left. destruct (record_match_is_Some po_item s a) as [a' Ha'].
      { by eapply items_match_codes. }
      exists [], s, rest, a'. rewrite Ha'. repeat split; [constructor|done..].
    + destruct IH as [(pre & so & post & a' & -> & Hpre & ? & ? & ?)|[Hall ?]].
      * left. exists (s :: pre), so, post, a'.
        repeat split; [by constructor|done..].
      * right. split; [by constructor|done].
Qed.

Lemma match_items_first po_item so_items :
  (∃ pre so_item post,
      so_items = pre ++ so_item :: post
      ∧ Forall (fun s => tiers2 po_item s = false) pre
      ∧ ((Script2.direct_match (Script2.codes po_item) (Script2.codes so_item) = true
          ∧ Script2.match_items po_item so_items = (Some so_item, 100))
         ∨ (Script2.direct_match (Script2.codes po_item) (Script2.codes so_item) = false
            ∧ Script2.fuzzy_match (Script2.codes po_item) (Script2.codes so_item) = true
            ∧ Script2.match_items po_item so_items = (Some so_item, 95))))
  ∨ (Forall (fun s => tiers2 po_item s = false) so_items
     ∧ Script2.match_items po_item so_items = (None, 0)).
Proof.
  induction so_items as [|s rest IH]; simpl.
  - right. split; [constructor|done].
  - destruct (Script2.direct_match _ (Script2.codes s)) eqn:E1.
    { left. exists [], s, rest. split; [done|]. split; [constructor|].
      left. by rewrite E1. }
    destruct (Script2.fuzzy_match _ (Script2.codes s)) eqn:E2.
    { left. exists [], s, rest. split; [done|]. split; [constructor|].
      right. by rewrite E1, E2. }
    assert (tiers2 po_item s = false) by (unfold tiers2; by rewrite E1, E2).
    destruct IH as [(pre & so & post & -> & Hpre & Hso)|[Hall ?]].
    + left. exists (s :: pre), so, post.
      split; [done|]. split; [by constructor|done].
    + right. split; [by constructor|done].
Qed.
End engines.

(** C1, as stated, fails.  The first candidate [so_dp] satisfies the numeric
    tier, yet [match_items] of script2.py, which has no such tier, returns
    the later candidate [so_ch]; and [so_vlv] satisfies the fuzzy tier, yet
    [items_match] of script.py, which has no such tier, rejects it and the
    PO item is counted as unmatched. *)
Lemma first_any_tier_candidate_missed :
  any_tier ∅ (Script2.codes po_ch) (Script2.codes so_dp) = true
  ∧ Script2.match_items po_ch [so_dp; so_ch] = (Some so_ch, 100)
  ∧ Script2.codes so_ch ≠ Script2.codes so_dp
  ∧ any_tier ∅ (Script.item_codes po_vlv_mr) (Script.item_codes so_vlv) = true
  ∧ Script.items_match ∅ po_vlv_mr so_vlv = false
  ∧ Script.mismatched_items <$> Script.analyze_and_report ∅ [po_vlv_mr; so_vlv]
    = Some 1.
Proof.
  repeat split; try (vm_compute; reflexivity).
  intros H. apply (f_equal (fun s => bool_decide ("CH-1234" ∈ s))) in H.
  vm_compute in H. discriminate.
Qed.

(** C1, amended.  Each engine returns the first SO item, in the order of the
    list, that satisfies one of the tiers that the engine has, and no later
    one; when no SO item satisfies any of them there is no match.
    In script.py the tiers are those of [items_match] (direct, numeric,
    mapped): the loop of the analyzer records the first SO item accepted by
    [items_match] and stops, or reports that nothing was found and leaves
    the analysis as it was.  In script2.py the tiers are the direct one
    (score 100) and the fuzzy one (score 95): [match_items] returns the first
    SO item that satisfies either, or no item and score 0. *)
Theorem first_sufficient_candidate
    (mappings : gmap string (gset string))
    (po_item : Script.ValveItem) (so_items : list Script.ValveItem)
    (a : Script.analysis)
    (po_item2 : Script2.ValveItem) (so_items2 : list Script2.ValveItem) :
  ((∃ pre so_item post a',
       so_items = pre ++ so_item :: post
       ∧ Forall (fun s => Script.items_match mappings po_item s = false) pre
       ∧ Script.items_match mappings po_item so_item = true
       ∧ Script.record_match po_item so_item a = Some a'
       ∧ Script.scan_so_items mappings po_item so_items a = Some (true, a'))
   ∨ (Forall (fun s => Script.items_match mappings po_item s = false) so_items
      ∧ Script.scan_so_items mappings po_item so_items a = Some (false, a)))
  ∧ (∀ so_item,
       Script.items_match mappings po_item so_item
       = Script.direct_match (Script.item_codes po_item) (Script.item_codes so_item)
         || Script.numeric_match (Script.item_codes po_item) (Script.item_codes so_item)
         || Script.mapped_match mappings (Script.item_codes po_item)
                                (Script.item_codes so_item))
  ∧ ((∃ pre so_item post,
         so_items2 = pre ++ so_item :: post
         ∧ Forall (fun s => tiers2 po_item2 s = false) pre
         ∧ ((Script2.direct_match (Script2.codes po_item2) (Script2.codes so_item) = true
             ∧ Script2.match_items po_item2 so_items2 = (Some so_item, 100))
            ∨ (Script2.direct_match (Script2.codes po_item2) (Script2.codes so_item) = false
               ∧ Script2.fuzzy_match (Script2.codes po_item2) (Script2.codes so_item) = true
               ∧ Script2.match_items po_item2 so_items2 = (Some so_item, 95))))
     ∨ (Forall (fun s => tiers2 po_item2 s = false) so_items2
        ∧ Script2.match_items po_item2 so_items2 = (None, 0))).
Proof.
  split; [apply scan_so_items_first|]. split; [|apply match_items_first].
  intros so_item. unfold Script.items_match.
  destruct (Script.direct_match _ _); [done|].
  destruct (Script.numeric_match _ _); done.
Qed.

(** ** The price comparison *)
Section prices.

Lemma SFcompare_flip x y c :
  SFcompare x y = Some c → SFcompare y x = Some (CompOpp c).
Proof.
  destruct x as [[]|[]| |[] m1 e1], y as [[]|[]| |[] m2 e2]; simpl;
    intros [= <-]; try reflexivity.
  - rewrite (Z.compare_antisym e1 e2).
    destruct (e1 ?= e2)%Z; simpl; try reflexivity.
    rewrite (Pos.compare_cont_antisym m1 m2 Eq). simpl.
    by destruct (Pos.compare_cont Eq m2 m1).
  - rewrite (Z.compare_antisym e1 e2).
    destruct (e1 ?= e2)%Z; simpl; try reflexivity.
    rewrite (Pos.compare_cont_antisym m1 m2 Eq). simpl.
    by destruct (Pos.compare_cont Eq m2 m1).
Qed.

(** On numbers, "does not exceed" is "is at most". *)
Lemma ltb_negb_leb (x y : float) :
  PrimFloat.is_nan x = false → PrimFloat.is_nan y = false →
  PrimFloat.ltb x y = negb (PrimFloat.leb y x).
Proof.
  unfold PrimFloat.is_nan.
  rewrite !FloatAxioms.eqb_spec, FloatAxioms.ltb_spec, FloatAxioms.leb_spec.
  unfold SFeqb, SFltb, SFleb.
  destruct (SFcompare (Prim2SF y) (Prim2SF x)) as [c|] eqn:E.
  - apply SFcompare_flip in E. rewrite E. by destruct c.
  - intros Hx Hy. exfalso.
    destruct (Prim2SF x) as [[]|[]| |[] m1 e1], (Prim2SF y) as [[]|[]| |[] m2 e2];
      simpl in *; discriminate.
Qed.

Lemma app_singleton_neq {A} (l : list A) (x : A) : l ++ [x] ≠ l.
Proof.
  intros H. apply (f_equal length) in H. rewrite length_app in H. simpl in H. lia.
Qed.

End prices.

(** C5, as stated, fails on script2.py.  The prices 0.01 and 0.0 differ by
    exactly 0.01, which is at most 0.01, and the pair is matched (score
    100); [analyze_matches] nevertheless records that the prices do not
    match, because it compares with [<]. *)
Lemma price_gap_of_tolerance_mismatch2 :
  price_gap 0.01 0 = 0.01%float
  ∧ PrimFloat.leb (price_gap 0.01 0) 0.01 = true
  ∧ Script2.match_scores <$> Script2.analyze_matches [priced2 0.01 "PO"; priced2 0 "SO"]
    = Some [100]
  ∧ Script2.price_matches <$> Script2.analyze_matches [priced2 0.01 "PO"; priced2 0 "SO"]
    = Some [false].
Proof. repeat split; vm_compute; reflexivity. Qed.

(** C5, amended.  For a matched pair, script.py records a price discrepancy
    exactly when the absolute difference of the prices exceeds 0.01, so it
    treats the prices as equal exactly when the difference is at most 0.01
    (a difference of exactly 0.01 counts as equal); script2.py marks the
    prices as matching exactly when the absolute difference is strictly less
    than 0.01 (a difference of exactly 0.01 counts as a mismatch).  In both,
    100.00 and 100.005 are equal and 100.00 and 100.02 are not. *)
Theorem price_tolerance
    (po_item so_item : Script.ValveItem) (a a' : Script.analysis)
    (po_item2 so_item2 : Script2.ValveItem) (so_items2 : list Script2.ValveItem)
    (score : nat) (b b' : Script2.analysis) :
  let d := price_gap (Script.price po_item) (Script.price so_item) in
  let d2 := price_gap (Script2.price po_item2) (Script2.price so_item2) in
  (Script.record_match po_item so_item a = Some a' →
     (Script.price_mismatches a' = Script.price_mismatches a
      ↔ PrimFloat.ltb 0.01 d = false)
     ∧ (PrimFloat.ltb 0.01 d = true →
        ∃ code, Script.price_mismatches a'
                = Script.price_mismatches a
                  ++ [(code, Script.price po_item, Script.price so_item)])
     ∧ (PrimFloat.is_nan d = false →
        (Script.price_mismatches a' = Script.price_mismatches a
         ↔ PrimFloat.leb d 0.01 = true)))
  ∧ (Script2.match_items po_item2 so_items2 = (Some so_item2, score) →
     Script2.analyze_po so_items2 (Some b) po_item2 = Some b' →
     Script2.price_matches b' = Script2.price_matches b ++ [PrimFloat.ltb d2 0.01])
  ∧ Script.price_mismatches
      <$> Script.analyze_and_report ∅ [priced 100 "PO"; priced 100.005 "SO"] = Some []
  ∧ Script.price_mismatches
      <$> Script.analyze_and_report ∅ [priced 100 "PO"; priced 100.02 "SO"]
    = Some [("CH-1234", 100%float, 100.02%float)]
  ∧ Script.price_mismatches
      <$> Script.analyze_and_report ∅ [priced 0.01 "PO"; priced 0 "SO"] = Some []
  ∧ Script2.price_matches
      <$> Script2.analyze_matches [priced2 100 "PO"; priced2 100.005 "SO"] = Some [true]
  ∧ Script2.price_matches
      <$> Script2.analyze_matches [priced2 100 "PO"; priced2 100.02 "SO"] = Some [false].
Proof.
  intros d d2. split; [|split].
  - unfold Script.record_match. destruct (next_iter _) as [code|]; [|done].
    simpl. intros [= <-]. simpl. fold d. unfold Script.price_differs.
    change (PrimFloat.abs _) with d.
    assert (H1 : Script.price_mismatches a ++ [(code, Script.price po_item,
                   Script.price so_item)] ≠ Script.price_mismatches a)
      by apply app_singleton_neq.
    destruct (PrimFloat.ltb 0.01 d) eqn:E.
    + split; [split; [done|discriminate]|]. split; [eauto|].
      intros Hd. rewrite ltb_negb_leb in E by done.
      apply negb_true_iff in E. rewrite E. split; [done|discriminate].
    + split; [done|]. split; [discriminate|].
      intros Hd. rewrite ltb_negb_leb in E by done.
      apply negb_false_iff in E. by rewrite E.
  - intros Hm. unfold Script2.analyze_po. simpl. rewrite Hm.
    destruct (next_iter (Script2.codes po_item2)); [|done]. simpl.
    destruct (next_iter (Script2.codes so_item2)); [|done]. simpl.
    by intros [= <-].
  - repeat split; vm_compute; reflexivity.
Qed.

(** A matched pair with the prices 100.00 and 100.02 in the two analyses. *)
Lemma price_tolerance_witness :
  ∃ a' b',
    Script.record_match (priced 100 "PO") (priced 100.02 "SO") Script.analysis0 = Some a'
    ∧ Script.price_mismatches a' ≠ []
    ∧ Script2.analyze_po [priced2 100.02 "SO"] (Some Script2.analysis0) (priced2 100 "PO")
      = Some b'
    ∧ Script2.price_matches b' = [false].
Proof.
  destruct (Script.record_match (priced 100 "PO") (priced 100.02 "SO") Script.analysis0)
    as [a'|] eqn:Ea; [|vm_compute in Ea; discriminate].
  destruct (Script2.analyze_po [priced2 100.02 "SO"] (Some Script2.analysis0)
              (priced2 100 "PO")) as [b'|] eqn:Eb; [|vm_compute in Eb; discriminate].
  exists a', b'.
  destruct (price_tolerance (priced 100 "PO") (priced 100.02 "SO") Script.analysis0 a'
              (priced2 100 "PO") (priced2 100.02 "SO") [priced2 100.02 "SO"] 100
              Script2.analysis0 b') as (H1 & H2 & _).
  destruct (H1 Ea) as (_ & (code & Hc) & _); [vm_compute; reflexivity|].
  repeat split.
  - rewrite Hc. simpl. discriminate.
  - rewrite (H2 ltac:(vm_compute; reflexivity) Eb). vm_compute. reflexivity.
Defined.

(** ** The material specification *)

Section segment_search.
Import Re.

(** [\(([^)]+)\)] matches only at an opening parenthesis that is followed
    by a non-empty text without a closing one and then a closing one; group
    1 is that text. *)
Lemma match_at_paren_inv b a mt :
  match_at false Script2.re_paren (Pos b a) = Some mt →
  ∃ seg post,
    a = "("%char :: seg ++ ")"%char :: post
    ∧ seg ≠ [] ∧ ¬ In ")"%char seg ∧ group1 mt = Some seg.
Proof.
  intros ([b' a'] & cap & Hin & ->)%match_at_Some.
  change Script2.re_paren
    with (Seq (Chr "(") (Seq (Grp (Rep true [IChar ")"] 1 None)) (Chr ")"))) in Hin.
  apply m_seq_elem in Hin as ([b1 a1] & cap1 & H1 & Hin).
  destruct a as [|c a]; [done|]. rewrite m_chr_cons in H1. cbn [chr_eq] in H1.
  destruct (Ascii.eqb_spec "(" c) as [<-|]; [|done].
  destruct H1 as [[= <- <- <-]|[]].
  apply m_seq_elem in Hin as ([b2 a2] & cap2 & H2 & Hin).
  apply m_grp_elem in H2 as (-> & cap0 & H2).
  apply m_rep_elem in H2 as (_ & run & Ha & _ & Hrun & Hlen).
  cbn [after] in Ha. subst a.
  destruct a2 as [|c2 a2]; [done|]. rewrite m_chr_cons in Hin. cbn [chr_eq] in Hin.
  destruct (Ascii.eqb_spec ")" c2) as [<-|]; [|done].
  destruct Hin as [[= <- <- <-]|[]].
  exists run, a2. split; [done|]. split; [by destruct run; simpl in Hlen; [lia|]|].
  split.
  - intros Hin. rewrite Forall_forall in Hrun. apply list_elem_of_In, Hrun in Hin.
    by rewrite not_paren, Ascii.eqb_refl in Hin.
  - cbn [group1]. by rewrite between_app.
Qed.

Lemma match_at_paren_empty b a :
  match_at false Script2.re_paren (Pos b ("("%char :: ")"%char :: a)) = None.
Proof.
  destruct (match_at _ _ _) as [mt|] eqn:E; [|done].
  apply match_at_paren_inv in E as (seg & post & [= E] & Hne & Hseg & _).
  destruct seg as [|c seg]; [done|]. injection E as <- _. destruct Hseg. by left.
Qed.

Lemma search_from_None ic r b a :
  search_from ic r b a = None →
  ∀ pre a', a = pre ++ a' → match_at ic r (Pos (rev pre ++ b) a') = None.
Proof.
  revert b. induction a as [|c a IH]; intros b; cbn [search_from].
  - destruct (match_at ic r (Pos b [])) eqn:E; [done|]. intros _ pre a' Ha.
    symmetry in Ha. apply app_eq_nil in Ha as [-> ->]. exact E.
  - destruct (match_at ic r (Pos b (c :: a))) eqn:E; [done|]. intros Hs pre a' Ha.
    destruct pre as [|x pre]; cbn [app] in Ha.
    + subst a'. exact E.
    + injection Ha as -> Ha. cbn [rev]. rewrite <- app_assoc. by apply (IH (x :: b)).
Qed.

(** A successful search matched at some position and at none before it. *)
Lemma search_from_first ic r b a mt :
  search_from ic r b a = Some mt →
  ∃ pre a',
    a = pre ++ a' ∧ match_at ic r (Pos (rev pre ++ b) a') = Some mt
    ∧ ∀ p1 c p2, pre = p1 ++ c :: p2 →
        match_at ic r (Pos (rev p1 ++ b) (c :: p2 ++ a')) = None.
Proof.
  revert b. induction a as [|c a IH]; intros b; cbn [search_from].
  - destruct (match_at ic r (Pos b [])) eqn:E; [|done].
    intros [= <-]. exists [], []. split; [done|]. split; [done|].
    intros p1 c p2 Hp. by destruct p1.
  - destruct (match_at ic r (Pos b (c :: a))) eqn:E.
    + intros [= <-]. exists [], (c :: a). split; [done|]. split; [done|].
      intros p1 c' p2 Hp. by destruct p1.
    + intros (pre & a' & -> & H & Hfirst)%IH. exists (c :: pre), a'.
      split; [done|]. split; [cbn [rev]; by rewrite <- app_assoc|].
      intros p1 c' p2 Hp. destruct p1 as [|x p1]; cbn [app] in Hp.
      * injection Hp as <- <-. exact E.
      * injection Hp as <- Hp. cbn [rev]. rewrite <- app_assoc.
        by apply Hfirst.
Qed.

(** Where [\(([^)]+)\)] does not match at an opening parenthesis although a
    closing one comes later, a closing one follows directly. *)
Lemma match_at_paren_None b rest :
  match_at false Script2.re_paren (Pos b ("("%char :: rest)) = None →
  In ")"%char rest → ∃ rest', rest = ")"%char :: rest'.
Proof.
  intros Hn Hin. destruct rest as [|c rest]; [done|].
  destruct (Ascii.eqb_spec c ")") as [->|Hc]; [by eexists|].
  apply list_elem_of_In, list_elem_of_split_l in Hin as (run & post & E & Hrun).
  destruct run as [|x run]; [by injection E as -> _|].
  rewrite E, (match_at_paren b (x :: run) post) in Hn; [done|done|].
  by intros ?%list_elem_of_In.
Qed.

(** The search passes over an opening parenthesis that a closing one
    follows directly. *)
Lemma search_from_paren_first b pre seg post :
  (∀ p1 p2, pre = p1 ++ "("%char :: p2 → ∃ p3, p2 = ")"%char :: p3) →
  seg ≠ [] → ¬ In ")"%char seg →
  search_from false Script2.re_paren b (pre ++ "("%char :: seg ++ ")"%char :: post)
  = Some (Match ("("%char :: seg ++ [")"%char]) (Some seg)).
Proof.
  intros Hpre Hne Hseg. revert b.
  induction pre as [|c pre IH]; intros b.
  - cbn [app]. unfold search_from. by rewrite match_at_paren.
  - assert (Hpre' : ∀ p1 p2, pre = p1 ++ "("%char :: p2 → ∃ p3, p2 = ")"%char :: p3).
    { intros p1 p2 ->. by apply (Hpre (c :: p1) p2). }
    cbn [app search_from].
    destruct (Ascii.eqb_spec c "(") as [->|Hc].
    + destruct (Hpre [] pre eq_refl) as [p3 ->]. cbn [app].
      rewrite match_at_paren_empty. by apply (IH Hpre').
    + rewrite match_at_not_paren by done. by apply IH.
Qed.

Lemma closed_at_once_spec l :
  closed_at_once l = true →
  ∀ p1 p2, l = p1 ++ "("%char :: p2 → ∃ p3, p2 = ")"%char :: p3.
Proof.
  induction l as [|c l IH]; intros H p1 p2 E; [by destruct p1|].
  cbn [closed_at_once] in H. apply andb_true_iff in H as [Hc Hl].
  destruct p1 as [|x p1]; cbn [app] in E.
  - injection E as -> ->. rewrite Ascii.eqb_refl in Hc.
    destruct p2 as [|y p2]; [done|]. apply Ascii.eqb_eq in Hc as ->. eauto.
  - injection E as -> E. by apply (IH Hl p1 p2).
Qed.

End segment_search.

(** C8, as stated, fails on script.py: its parser has no plausibility check
    and keeps the text of the first parenthesized segment whatever it says.
    Here the segment names no material, yet it becomes the material
    specification of the item (script2.py leaves it empty). *)
Lemma material_spec_unchecked :
  Script.material_spec <$> Script.process_line "CH-1234 (SPARE PART)" "PO"
  = Some "SPARE PART"
  ∧ Script2.plausible (chars "SPARE PART") = false
  ∧ Script2.material_spec <$> Script2.process_line "CH-1234 (SPARE PART)" "PO"
    = Some "".
Proof. repeat split; vm_compute; reflexivity. Qed.

(** C8, amended.  In script2.py the material specification of the item
    produced from a line is the trimmed text of the first parenthesized
    segment when that text contains one of the material keywords, and the
    empty string when the line has no such segment or the text fails the
    check; so a non-empty material specification always passes the check.
    In script.py there is no check: the material specification is the
    trimmed text of the first parenthesized segment whatever it says, and
    the empty string when the line has no such segment; so it is empty
    exactly when there is no segment or the segment is blank.  The first
    parenthesized segment is the text between the first opening parenthesis
    of the line that is not directly followed by a closing one and has a
    closing one somewhere after it, and the next closing parenthesis; a line
    without such an opening parenthesis has no segment. *)
Theorem material_spec_field (line doc_type : string) :
  (∀ item, Script2.process_line line doc_type = Some item →
     match first_segment line with
     | None => Script2.material_spec item = ""
     | Some spec =>
         (Script2.plausible spec = true → Script2.material_spec item = str spec)
         ∧ (Script2.plausible spec = false → Script2.material_spec item = "")
     end
     ∧ (Script2.material_spec item ≠ "" →
        Script2.plausible (chars (Script2.material_spec item)) = true))
  ∧ (∀ item, Script.process_line line doc_type = Some item →
       Script.material_spec item = str (default [] (first_segment line))
       ∧ (Script.material_spec item = ""
          ↔ first_segment line = None ∨ first_segment line = Some []))
  ∧ (∀ spec,
       first_segment line = Some spec
       ↔ ∃ pre seg post,
           chars line = pre ++ "("%char :: seg ++ ")"%char :: post
           ∧ (∀ p1 p2, pre = p1 ++ "("%char :: p2 → ∃ p3, p2 = ")"%char :: p3)
           ∧ seg ≠ [] ∧ ¬ In ")"%char seg ∧ spec = Py.strip seg)
  ∧ (first_segment line = None
     ↔ ¬ ∃ pre seg post,
           chars line = pre ++ "("%char :: seg ++ ")"%char :: post
           ∧ seg ≠ [] ∧ ¬ In ")"%char seg).
Proof.
  split; [|split; [|split]].
  - intros item. unfold Script2.process_line.
    destruct (Py.strip (chars line)); [done|].
    case_bool_decide; [done|].
    destruct (Script2.extract_quantity_and_price line).
    intros [= <-]. simpl.
    unfold Script2.extract_material_spec, first_segment.
    destruct (Re.search false Script2.re_paren (chars line)) as [mt|]; simpl; [|done].
    destruct (Script2.plausible _) eqn:E; rewrite ?E.
    + split; [split; [done|discriminate]|].
      intros _. by rewrite list_ascii_of_string_of_list_ascii.
    + split; [split; [discriminate|done]|]. done.
  - intros item. unfold Script.process_line.
    destruct (Py.strip (chars line)); [done|].
    case_bool_decide; [done|].
    destruct (Script.extract_quantity_and_price line).
    intros [= <-]. simpl. unfold first_segment.
    change Script.re_paren with Script2.re_paren.
    destruct (Re.search false Script2.re_paren (chars line)) as [mt|]; simpl.
    + split; [done|]. split.
      * intros E. right. f_equal.
        apply (f_equal chars) in E.
        by rewrite list_ascii_of_string_of_list_ascii in E.
      * intros [?|[= ->]]; done.
    + split; [done|]. split; [by left|done].
  - intros spec. unfold first_segment, Re.search. split.
    + destruct (Re.search_from _ _ _ _) as [mt|] eqn:E; [|done].
      apply search_from_first in E as (pre & a & Ha & E & Hfirst).
      apply match_at_paren_inv in E as (seg & post & -> & Hne & Hseg & Hg).
      intros [= <-]. exists pre, seg, post. rewrite Hg.
      split; [done|]. split; [|done].
      intros p1 p2 Hp.
      destruct (match_at_paren_None _ _ (Hfirst p1 _ p2 Hp)) as [rest' Hr].
      { apply in_or_app. right. right. apply in_or_app. right. by left. }
      destruct p2 as [|y p2]; cbn [app] in Hr; [discriminate|].
      injection Hr as -> _. by eexists.
    + intros (pre & seg & post & Hl & Hpre & Hne & Hseg & ->).
      rewrite Hl, search_from_paren_first by done. done.
  - unfold first_segment, Re.search. split.
    + destruct (Re.search_from _ _ _ _) as [mt|] eqn:E; [done|]. intros _.
      intros (pre & seg & post & Hl & Hne & Hseg).
      pose proof (search_from_None _ _ _ _ E pre _ Hl) as Hn.
      by rewrite match_at_paren in Hn.
    + intros Hno.
      destruct (Re.search_from _ _ _ _) as [mt|] eqn:E; [|done].
      apply search_from_Some in E as (pre & a & Ha & E).
      apply match_at_paren_inv in E as (seg & post & -> & Hne & Hseg & Hg).
      destruct Hno. by exists pre, seg, post.
Qed.

(** A line with two parenthesized segments, the first one a material; a
    line whose first pair of parentheses is empty; a line whose segment is
    blank. *)
Lemma material_spec_field_witness :
  ∃ item item2,
    Script.process_line "CH-1234 ( ASTM A216 ) (x)" "PO" = Some item
    ∧ Script2.process_line "CH-1234 ( ASTM A216 ) (x)" "PO" = Some item2
    ∧ Script.material_spec item = "ASTM A216"
    ∧ Script2.plausible (chars (Script2.material_spec item2)) = true
    ∧ first_segment "CH-1234 () (LCC)" = Some (chars "LCC")
    ∧ Script.material_spec <$> Script.process_line "CH-1234 ( )" "PO" = Some "".
Proof.
  destruct (Script.process_line "CH-1234 ( ASTM A216 ) (x)" "PO") as [item|] eqn:E1;
    [|vm_compute in E1; discriminate].
  destruct (Script2.process_line "CH-1234 ( ASTM A216 ) (x)" "PO") as [item2|] eqn:E2;
    [|vm_compute in E2; discriminate].
  exists item, item2.
  destruct (material_spec_field "CH-1234 ( ASTM A216 ) (x)" "PO") as (H2 & H1 & _).
  split; [done|]. split; [done|]. split; [|split; [|split]].
  - destruct (H1 item E1) as [-> _]. vm_compute. reflexivity.
  - destruct (H2 item2 E2) as [H _].
    assert (Hs : first_segment "CH-1234 ( ASTM A216 ) (x)" = Some (chars "ASTM A216"))
      by (vm_compute; reflexivity).
    rewrite Hs in H. destruct H as [H _].
    rewrite H by (vm_compute; reflexivity). vm_compute. reflexivity.
  - destruct (material_spec_field "CH-1234 () (LCC)" "PO") as (_ & _ & H & _).
    apply H. exists (chars "CH-1234 () "), (chars "LCC"), [].
    split; [reflexivity|]. split; [|split; [done|split; [|reflexivity]]].
    + apply closed_at_once_spec. vm_compute. reflexivity.
    + apply (bool_decide_eq_true_1 (¬ _)). vm_compute. reflexivity.
  - vm_compute. reflexivity.
Defined.

(** ** The end-to-end scenario *)

(** C4, as stated, fails on [match_items] of script2.py, which has no
    numeric tier: the two lines parse to items that share the fragment 1234,
    but the engine returns no match (score 0) for the pair and the analysis
    marks the PO item "No Match". *)
Lemma scenario_unmatched2 :
  Script2.process_line po_line "PO" = Some po_parsed2
  ∧ Script2.process_line so_line "SO" = Some so_parsed2
  ∧ Script.numeric_match (Script2.codes po_parsed2) (Script2.codes so_parsed2) = true
  ∧ Script2.match_items po_parsed2 [so_parsed2] = (None, 0)
  ∧ Script2.match_items (item2_of (Script.item_codes po_parsed) "PO") [so_parsed2]
    = (None, 0)
  ∧ Script2.so_matches <$> Script2.analyze_matches [po_parsed2; so_parsed2]
    = Some ["No Match"].
Proof. repeat split; vm_compute; reflexivity. Qed.

(** C4, amended.  In script.py the two lines parse to items with non-empty
    sets of codes whose first four-digit fragments share 1234; the sets have
    no code in common, so the pair is matched by the numeric tier of
    [items_match]; and the analysis of the two items counts one PO item, one
    match, and records no quantity, price or material discrepancy and no
    unmatched item.  ([match_items] of script2.py, which has only the direct
    and the fuzzy tier, does not match the pair.) *)
Theorem scenario_numeric_match :
  Script.process_line po_line "PO" = Some po_parsed
  ∧ Script.process_line so_line "SO" = Some so_parsed
  ∧ Script.item_codes po_parsed ≠ ∅
  ∧ Script.item_codes so_parsed ≠ ∅
  ∧ Script.numbers_of (Script.item_codes po_parsed) = {["1234"]}
  ∧ Script.numbers_of (Script.item_codes so_parsed) = {["1234"]}
  ∧ Script.direct_match (Script.item_codes po_parsed) (Script.item_codes so_parsed) = false
  ∧ Script.numeric_match (Script.item_codes po_parsed) (Script.item_codes so_parsed) = true
  ∧ Script.items_match scenario_catalog po_parsed so_parsed = true
  ∧ Script.analyze_and_report scenario_catalog [po_parsed; so_parsed]
    = Some {| Script.total_po_items := 1; Script.matched_items := 1;
              Script.mismatched_items := 0; Script.quantity_mismatches := [];
              Script.price_mismatches := []; Script.material_spec_mismatches := [];
              Script.unmatched_items := [] |}.
Proof.
  assert (Hne : ∀ (x : string) (s : gset string), x ∈ s → s ≠ ∅).
  { intros x s Hx ->. by apply (not_elem_of_empty (C:=gset string) x). }
  repeat split; try (vm_compute; reflexivity).
  - apply (Hne "CH-1234").
    apply (bool_decide_eq_true_1 ("CH-1234" ∈ Script.item_codes po_parsed)).
    vm_compute. reflexivity.
  - apply (Hne "DP 1234 MM #12 M-5").
    apply (bool_decide_eq_true_1 ("DP 1234 MM #12 M-5" ∈ Script.item_codes so_parsed)).
    vm_compute. reflexivity.
Qed.

(** ** Codes derived from CH codes *)
Section derived_codes.
Import Script.

Lemma starts_with_contains p s : Py.starts_with p s = true → Py.contains p s = true.
Proof. intros H. destruct s; simpl in *; by rewrite H. Qed.

Lemma dp_not_ch num : ¬ ch_prefixed (dp_of num).
Proof. unfold ch_prefixed, dp_of. cbv. discriminate. Qed.

Lemma dpcv_not_ch num : ¬ ch_prefixed (dpcv_of num).
Proof. unfold ch_prefixed, dpcv_of. cbv. discriminate. Qed.

Lemma digits_not_ch ds :
  ds ≠ [] → Forall (fun c => Py.is_digit c = true) ds → ¬ ch_prefixed (str ds).
Proof.
  unfold ch_prefixed. rewrite list_ascii_of_string_of_list_ascii.
  intros Hne Hds H. destruct Hds as [|c ds Hc _]; [done|].
  change (Py.starts_with (chars "CH-") (c :: ds))
    with (Ascii.eqb "C" c && Py.starts_with (chars "H-") ds) in H.
  destruct (Ascii.eqb_spec "C" c) as [<-|]; [|done].
  vm_compute in Hc. discriminate.
Qed.

Lemma add_match_grows clean_line codes mt :
  codes ⊆ add_match clean_line codes mt.
Proof.
  unfold add_match. destruct (Py.strip (Re.group0 mt)); [done|].
  destruct (Re.search false re_marc clean_line) as [mm|];
    (destruct (Py.contains _ _); [destruct (four_digits _) as [num|]|]);
    repeat apply union_subseteq_l'; done.
Qed.

Local Ltac unfold_elem :=
  rewrite ?elem_of_union, ?elem_of_singleton in *.

Lemma add_match_closed clean_line codes mt :
  derived_closed codes → derived_closed (add_match clean_line codes mt).
Proof.
  intros Hc code num Hin Hch Hnum. revert Hin. unfold add_match.
  destruct (Py.strip (Re.group0 mt)) as [|c0 g];
    [intros Hin; by apply (Hc code num)|].
  set (new := str (Py.upper (Re.sub false re_spaces (chars " ") (c0 :: g)))).
  set (codes2 :=
         if Py.contains (chars "CH-") (chars new)
         then match four_digits new with
              | Some num0 =>
                  codes ∪ {[new]} ∪ {["DP " +:+ num0 +:+ " MM"]}
                  ∪ {["DPCV " +:+ num0 +:+ " MM"]}
              | None => codes ∪ {[new]}
              end
         else codes ∪ {[new]}).
  assert (H2 : code ∈ codes2 → dp_of num ∈ codes2 ∧ dpcv_of num ∈ codes2).
  { subst codes2. clearbody new. intros Hin.
    destruct (decide (code = new)) as [->|Hne].
    - rewrite (starts_with_contains _ _ Hch), Hnum. unfold dp_of, dpcv_of.
      unfold_elem. tauto.
    - assert (Hold : code ∈ codes).
      { destruct (Py.contains _ _); [destruct (four_digits new) as [num0|]|];
          unfold_elem; [|tauto..].
        destruct Hin as [[[?|?]|?]|?]; [done|done|subst..].
        - by apply (dp_not_ch num0) in Hch.
        - by apply (dpcv_not_ch num0) in Hch. }
      destruct (Hc code num Hold Hch Hnum) as [H1 H2].
      destruct (Py.contains _ _); [destruct (four_digits new) as [num0|]|];
        unfold_elem; tauto. }
  clearbody codes2.
  destruct (Re.search false re_marc clean_line) as [mm|] eqn:Em; [|exact H2].
  apply search_marc_digits in Em as (ds & -> & Hne & Hds). cbn [default].
  intros [Hin| ->%elem_of_singleton]%elem_of_union.
  - destruct (H2 Hin). split; by apply elem_of_union_l.
  - by apply digits_not_ch in Hch.
Qed.

Lemma fold_matches_closed clean_line mts codes :
  derived_closed codes → derived_closed (fold_left (add_match clean_line) mts codes).
Proof.
  revert codes. induction mts as [|mt mts IH]; intros codes H; simpl; [done|].
  by apply IH, add_match_closed.
Qed.

Lemma fold_patterns_closed clean_line ps codes :
  derived_closed codes → derived_closed (fold_left (add_pattern clean_line) ps codes).
Proof.
  revert codes. induction ps as [|p ps IH]; intros codes H; simpl; [done|].
  by apply IH, fold_matches_closed.
Qed.

Lemma extract_codes_closed line : derived_closed (extract_codes_from_line line).
Proof.
  unfold extract_codes_from_line. destruct (existsb _ _).
  - intros code num Hin. by apply not_elem_of_empty in Hin.
  - apply fold_patterns_closed. intros code num Hin. by apply not_elem_of_empty in Hin.
Qed.

End derived_codes.

(** C2, as stated, fails on script2.py: its extractor adds the matched text
    only.  From the line "CH-1234" it extracts the CH code, which embeds
    1234, but neither derived code. *)
Lemma ch_code_not_derived2 :
  Script2.extract_codes_from_line "CH-1234" = {["CH-1234"]}
  ∧ ch_prefixed "CH-1234"
  ∧ four_digits "CH-1234" = Some "1234"
  ∧ ¬ (dp_of "1234" ∈ Script2.extract_codes_from_line "CH-1234")
  ∧ ¬ (dpcv_of "1234" ∈ Script2.extract_codes_from_line "CH-1234").
Proof.
  split; [compute_eq|]. split; [vm_compute; reflexivity|].
  split; [vm_compute; reflexivity|].
  split; apply (bool_decide_eq_false_1 (_ ∈ _)); vm_compute; reflexivity.
Qed.

(** C2, amended.  In script.py, whenever the extractor's set for a line
    contains a CH-prefixed code whose first four-digit number is [num], the
    set also contains "DP num MM" and "DPCV num MM"; the line "CH-1234"
    yields exactly CH-1234, DP 1234 MM and DPCV 1234 MM.  A code with a
    letter between CH and the dash is not CH-prefixed in this sense:
    "CHL-1234" yields CHL-1234 alone.  (The extractor of script2.py derives
    nothing: from "CH-1234" it yields CH-1234 alone.) *)
Theorem ch_code_derivation (line code num : string) :
  (code ∈ Script.extract_codes_from_line line →
   ch_prefixed code → four_digits code = Some num →
   ("DP " +:+ num +:+ " MM") ∈ Script.extract_codes_from_line line
   ∧ ("DPCV " +:+ num +:+ " MM") ∈ Script.extract_codes_from_line line)
  ∧ Script.extract_codes_from_line "CH-1234"
    = {["CH-1234"; "DP 1234 MM"; "DPCV 1234 MM"]}
  ∧ Script.extract_codes_from_line "CHL-1234" = {["CHL-1234"]}
  ∧ Script2.extract_codes_from_line "CH-1234" = {["CH-1234"]}.
Proof.
  split; [apply extract_codes_closed|].
  split; [compute_eq|]. split; compute_eq.
Qed.

(** The derivation on a line with a lower-case CH code between other text. *)
Lemma ch_code_derivation_witness :
  "DP 5678 MM" ∈ Script.extract_codes_from_line "12 x ch-5678  mr 4 NOS"
  ∧ "DPCV 5678 MM" ∈ Script.extract_codes_from_line "12 x ch-5678  mr 4 NOS".
Proof.
  destruct (ch_code_derivation "12 x ch-5678  mr 4 NOS" "CH-5678 MR" "5678") as [H _].
  apply H.
  - compute_in.
  - vm_compute. reflexivity.
  - vm_compute. reflexivity.
Defined.

(** ** Trimming *)
Section trimming.

Lemma lstrip_no_lead l : no_lead (Py.lstrip l).
Proof.
  induction l as [|c l IH]; simpl; [done|].
  destruct (Py.is_space c) eqn:E; [done|]. simpl. done.
Qed.

Lemma lstrip_id l : no_lead l → Py.lstrip l = l.
Proof. destruct l as [|c l]; simpl; [done|]. by intros ->. Qed.

(** [lstrip] drops a prefix of spaces. *)
Lemma lstrip_suffix l :
  ∃ ws, l = ws ++ Py.lstrip l ∧ Forall (fun c => Py.is_space c = true) ws.
Proof.
  induction l as [|c l (ws & Hl & Hws)]; simpl.
  - by exists [].
  - destruct (Py.is_space c) eqn:E.
    + exists (c :: ws). split; [by rewrite Hl at 1|by constructor].
    + by exists [].
Qed.

(** [rstrip] drops a suffix of spaces. *)
Lemma rstrip_prefix l :
  ∃ ws, l = Py.rstrip l ++ ws ∧ Forall (fun c => Py.is_space c = true) ws.
Proof.
  unfold Py.rstrip. destruct (lstrip_suffix (rev l)) as (ws & Hl & Hws).
  exists (rev ws). split.
  - rewrite <- rev_app_distr, <- Hl. by rewrite rev_involutive.
  - by apply Forall_rev.
Qed.

Lemma rstrip_no_trail l : no_trail (Py.rstrip l).
Proof. unfold no_trail, Py.rstrip. rewrite rev_involutive. apply lstrip_no_lead. Qed.

Lemma rstrip_id l : no_trail l → Py.rstrip l = l.
Proof.
  unfold no_trail, Py.rstrip. intros H. rewrite lstrip_id by done.
  apply rev_involutive.
Qed.

Lemma no_lead_prefix l t : no_lead (l ++ t) → l ≠ [] → no_lead l.
Proof. by destruct l. Qed.

Lemma rstrip_no_lead l : no_lead l → no_lead (Py.rstrip l).
Proof.
  intros H. destruct (rstrip_prefix l) as (ws & Hl & _).
  destruct (Py.rstrip l) as [|c r] eqn:E; [done|].
  rewrite Hl in H. done.
Qed.

Lemma strip_trimmed l : no_lead (Py.strip l) ∧ no_trail (Py.strip l).
Proof.
  unfold Py.strip. split.
  - apply rstrip_no_lead, lstrip_no_lead.
  - apply rstrip_no_trail.
Qed.

Lemma strip_id l : no_lead l → no_trail l → Py.strip l = l.
Proof. intros H1 H2. unfold Py.strip. rewrite lstrip_id by done. by apply rstrip_id. Qed.

(** [strip] keeps a contiguous part of the text. *)
Lemma strip_infix l : ∃ ws1 ws2, l = ws1 ++ Py.strip l ++ ws2.
Proof.
  unfold Py.strip. destruct (lstrip_suffix l) as (ws1 & H1 & _).
  destruct (rstrip_prefix (Py.lstrip l)) as (ws2 & H2 & _).
  exists ws1, ws2. by rewrite <- H2.
Qed.

End trimming.

(** ** Upper case *)
Section upper_case.

Lemma upper_char_idemp c : upper_fixed (Py.upper_char c).
Proof. unfold upper_fixed. destruct c as [[] [] [] [] [] [] [] []]; reflexivity. Qed.

Lemma upper_fixed_all l : Forall upper_fixed (Py.upper l).
Proof. apply Forall_forall. intros c (c0 & -> & _)%list_elem_of_fmap. apply upper_char_idemp. Qed.

Lemma upper_id l : Forall upper_fixed l → Py.upper l = l.
Proof.
  induction 1 as [|c l Hc _ IH]; [done|]. unfold Py.upper in *. simpl.
  by rewrite Hc, IH.
Qed.

End upper_case.

(** ** Collapsing white space *)
Section collapsing.
Import Re.

Lemma run_len_space a : run_len (cls_has false false space) a = run_len Py.is_space a.
Proof. induction a as [|c a IH]; cbn [run_len]; [done|]. by rewrite cls_space, IH. Qed.

(** [\s+] matches the longest run of white space at a position, if any. *)
Lemma match_at_spaces b a :
  match_at false Script.re_spaces (Pos b a)
  = match run_len Py.is_space a with
    | O => None
    | S n => Some (Match (take (S n) a) None)
    end.
Proof.
  unfold match_at, Script.re_spaces, Plus. cbn [m before after].
  pose proof (run_len_space a) as Hr. pose proof (run_len_le Py.is_space a) as Hle.
  destruct (run_len Py.is_space a) as [|n] eqn:E.
  - rewrite rep_go_none by lia. done.
  - destruct (rep_go_head (cls_has false false space) 1 b a) as [tl ->]; [lia|].
    simpl map. rewrite Hr. by rewrite between_take by lia.
Qed.

Lemma sub_spaces_go a :
  (∀ b, sub_go false Script.re_spaces (chars " ") 0 b a = collapse_go false a)
  ∧ (∀ k b, k ≤ length a →
       Forall (fun c => Py.is_space c = true) (take k a) →
       no_lead (drop k a) →
       sub_go false Script.re_spaces (chars " ") k b a = collapse_go true a).
Proof.
  induction a as [|c a [IH1 IH2]].
  - split; [intros b|intros k b Hk _ _]; [|destruct k; [|simpl in Hk; lia]];
      cbn [sub_go]; by rewrite match_at_spaces.
  - assert (H1 : ∀ b, sub_go false Script.re_spaces (chars " ") 0 b (c :: a)
                      = collapse_go false (c :: a)).
    { intros b. cbn [sub_go]. rewrite match_at_spaces. cbn [run_len collapse_go].
      destruct (Py.is_space c) eqn:E.
      - pose proof (run_len_le Py.is_space a).
        cbn [group0]. rewrite length_take. cbn [length].
        replace (S (run_len Py.is_space a) `min` S (length a))
          with (S (run_len Py.is_space a)) by lia.
        simpl. f_equal. apply IH2; [done|apply run_len_take|apply run_len_drop].
      - by rewrite IH1. }
    split; [exact H1|]. intros [|k] b Hk Hsp Hnl.
    + rewrite H1. simpl in Hnl. simpl. by rewrite Hnl.
    + cbn [sub_go]. simpl in *. apply Forall_cons in Hsp as [Hc Hsp].
      rewrite Hc. apply IH2; [lia|done..].
Qed.

(** [re.sub(r'\s+', ' ', s)] collapses the white space of [s]. *)
Lemma sub_spaces a : sub false Script.re_spaces (chars " ") a = collapse_go false a.
Proof. apply sub_spaces_go. Qed.

Lemma collapse_collapsed prev a : collapsed_go prev (collapse_go prev a) = true.
Proof.
  revert prev. induction a as [|c a IH]; intros prev; simpl; [done|].
  destruct (Py.is_space c) eqn:E.
  - destruct prev; [apply IH|]. simpl. apply IH.
  - simpl. rewrite E. apply IH.
Qed.

Lemma collapsed_id prev a : collapsed_go prev a = true → collapse_go prev a = a.
Proof.
  revert prev. induction a as [|c a IH]; intros prev; simpl; [done|].
  destruct (Py.is_space c) eqn:E.
  - rewrite !andb_true_iff. intros [[Hc Hp] Ha].
    apply Ascii.eqb_eq in Hc as ->. apply negb_true_iff in Hp as ->.
    by rewrite IH.
  - intros Ha. by rewrite IH.
Qed.

Lemma collapsed_weaken l : collapsed_go true l = true → collapsed_go false l = true.
Proof.
  destruct l as [|c l]; simpl; [done|].
  destruct (Py.is_space c); [|done]. rewrite !andb_true_iff. by intros [[? ?] ?].
Qed.

Lemma collapsed_tail prev c l : collapsed_go prev (c :: l) = true → collapsed l.
Proof.
  unfold collapsed. simpl. destruct (Py.is_space c); [|done].
  rewrite !andb_true_iff. intros [_ H]. by apply collapsed_weaken.
Qed.

Lemma collapsed_suffix prev ws l : collapsed_go prev (ws ++ l) = true → collapsed l.
Proof.
  revert prev. induction ws as [|c ws IH]; intros prev; simpl app.
  - destruct prev; [apply collapsed_weaken|done].
  - intros H%collapsed_tail. by eapply IH.
Qed.

Lemma collapsed_prefix prev l t :
  collapsed_go prev (l ++ t) = true → collapsed_go prev l = true.
Proof.
  revert prev. induction l as [|c l IH]; intros prev; simpl; [done|].
  destruct (Py.is_space c).
  - rewrite !andb_true_iff. intros [? ?%IH]. done.
  - apply IH.
Qed.

(** In a collapsed text every white-space character is a blank. *)
Lemma collapsed_space prev l c :
  collapsed_go prev l = true → In c l → Py.is_space c = true → c = " "%char.
Proof.
  revert prev. induction l as [|x l IH]; intros prev; simpl; [done|].
  intros H [->|Hin] Hc.
  - rewrite Hc, !andb_true_iff in H. destruct H as [[H _] _].
    by apply Ascii.eqb_eq in H.
  - apply collapsed_tail in H. by eapply IH.
Qed.

End collapsing.

(** ** Substitution *)
Section substitution.
Import Re.

(** [re.sub] only copies characters of the subject and of the replacement. *)
Lemma sub_go_Forall (P : ascii → Prop) ic r repl k b a :
  Forall P a → Forall P repl → Forall P (sub_go ic r repl k b a).
Proof.
  intros Ha Hr. revert k b. induction Ha as [|c a Hc Ha IH]; intros k b.
  - destruct k; cbn [sub_go]; [|constructor].
    destruct (match_at _ _ _); [by rewrite app_nil_r|constructor].
  - destruct k; cbn [sub_go]; [|apply IH].
    destruct (match_at _ _ _) as [mt|].
    + apply Forall_app. split; [done|].
      destruct (length (group0 mt)); [constructor; [done|]|]; apply IH.
    + constructor; [done|apply IH].
Qed.

(** Where the pattern matches nowhere, [re.sub] returns the subject. *)
Lemma sub_go_id ic r repl b a :
  (∀ pre a', a = pre ++ a' → match_at ic r (Pos (rev pre ++ b) a') = None) →
  sub_go ic r repl 0 b a = a.
Proof.
  revert b. induction a as [|c a IH]; intros b H; cbn [sub_go].
  - pose proof (H [] [] eq_refl) as H0. simpl in H0. by rewrite H0.
  - pose proof (H [] (c :: a) eq_refl) as H0. simpl in H0. rewrite H0.
    f_equal. apply IH.
    intros pre a' ->. specialize (H (c :: pre) a' eq_refl).
    simpl in H. by rewrite <- app_assoc in H.
Qed.

Lemma sub_go_skip_all ic r b a : sub_go ic r [] (length a) b a = [].
Proof.
  revert b. induction a as [|c a IH]; intros b; cbn [sub_go length]; [|done].
  by destruct (match_at _ _ _).
Qed.

(** With an empty replacement, [s$] can only remove [s] at the end of a
    text that has no newline: the result is a prefix of the text. *)
Lemma sub_lit_eol_prefix s b a :
  ¬ In newline a →
  ∃ t, a = sub_go false (Seq (lit_chars s) Eol) [] 0 b a ++ t.
Proof.
  revert b. induction a as [|c a IH]; intros b Hnl.
  - exists []. cbn [sub_go]. by destruct (match_at _ _ _).
  - cbn [sub_go]. destruct (match_at _ _ _) as [mt|] eqn:E.
    + apply match_at_lit_eol in E as [[Hs|Hs] ->].
      * subst s. cbn [group0 length app]. rewrite sub_go_skip_all. by exists (c :: a).
      * exfalso. apply Hnl. rewrite Hs. apply in_app_iff. right. by left.
    + destruct (IH (c :: b)) as [t Ht]; [intros ?; apply Hnl; by right|].
      exists t. simpl. by rewrite <- Ht.
Qed.

(** [^\s*(?:VALVE|CHECK)\s+] matches only at the start of the text, and
    only white space, one of the two words and a white-space character. *)
Lemma match_at_prefix b a mt :
  match_at false Script.re_prefix (Pos b a) = Some mt →
  b = []
  ∧ ∃ ws q sp rest,
      a = ws ++ q ++ sp :: rest
      ∧ Forall (fun c => Py.is_space c = true) ws
      ∧ (q = chars "VALVE" ∨ q = chars "CHECK")
      ∧ Py.is_space sp = true.
Proof.
  intros (st' & cap & Hin & _)%match_at_Some.
  change Script.re_prefix
    with (Seq Bol (Seq (Star space)
                       (Seq (Alt (lit_chars (chars "VALVE")) (lit_chars (chars "CHECK")))
                            (Plus space)))) in Hin.
  apply m_seq_elem in Hin as ([b1 a1] & cap1 & H1 & Hin).
  apply m_bol_elem in H1 as ([= -> ->] & _ & Hb). simpl in Hb. subst b.
  split; [done|].
  apply m_seq_elem in Hin as ([b2 a2] & cap2 & H2 & Hin).
  apply m_rep_elem in H2 as (_ & ws & -> & _ & Hws & _). cbn [before after] in *.
  apply m_seq_elem in Hin as ([b3 a3] & cap3 & H3 & Hin).
  apply m_rep_elem in Hin as (_ & run & -> & _ & Hrun & Hlen).
  cbn [before after] in *.
  destruct run as [|sp run]; [simpl in Hlen; lia|].
  apply Forall_cons in Hrun as [Hsp _]. rewrite cls_space in Hsp.
  assert (Hq : ∃ q, a2 = q ++ (sp :: run) ++ after st'
                    ∧ (q = chars "VALVE" ∨ q = chars "CHECK")).
  { apply m_alt_elem in H3 as [H3|H3]; apply m_lit_elem in H3 as (_ & -> & _);
      eauto. }
  destruct Hq as (q & -> & Hq).
  exists ws, q, sp, (run ++ after st'). repeat split; [|done..].
  eapply Forall_impl; [exact Hws|]. intros c Hc. by rewrite <- cls_space.
Qed.

Lemma sub_prefix_mid k b a :
  b ≠ [] → sub_go false Script.re_prefix [] k b a = drop k a.
Proof.
  revert k b. induction a as [|c a IH]; intros k b Hb.
  - destruct k; cbn [sub_go]; [|done].
    destruct (match_at _ _ _) eqn:E; [|done].
    by apply match_at_prefix in E as [? _].
  - destruct k; cbn [sub_go]; [|by apply IH].
    destruct (match_at _ _ _) eqn:E; [by apply match_at_prefix in E as [? _]|].
    simpl. f_equal. by rewrite IH.
Qed.

(** With an empty replacement the result is a suffix of the text. *)
Lemma sub_prefix_suffix a : ∃ pre, a = pre ++ sub false Script.re_prefix [] a.
Proof.
  unfold sub. destruct a as [|c a]; cbn [sub_go].
  - exists []. by destruct (match_at _ _ _).
  - destruct (match_at _ _ _) as [mt|].
    + destruct (length (group0 mt)) as [|k]; rewrite sub_prefix_mid by done.
      * by exists [].
      * exists (c :: take k a). simpl. by rewrite take_drop.
    + rewrite sub_prefix_mid by done. by exists [].
Qed.

End substitution.

(** ** The normal form of a code *)
Section normal_form.
Import Re.

Lemma collapsed_no_newline l : collapsed l → ¬ In newline l.
Proof.
  intros Hc Hin. apply (collapsed_space _ _ _ Hc) in Hin; [discriminate|done].
Qed.

Lemma normalize_chars_clean x : clean (Script.normalize_chars x).
Proof.
  unfold Script.normalize_chars.
  set (s1 := Py.upper (Py.strip x)).
  set (s2 := sub false Script.re_bracket_d [] s1).
  set (s3 := sub false Script.re_spaces (chars " ") s2).
  set (s4 := sub false Script.re_mr [] s3).
  set (s5 := sub false Script.re_prefix [] s4).
  assert (U1 : Forall upper_fixed s1) by apply upper_fixed_all.
  assert (U2 : Forall upper_fixed s2) by (apply sub_go_Forall; [done|constructor]).
  assert (U3 : Forall upper_fixed s3).
  { apply sub_go_Forall; [done|]. by repeat constructor. }
  assert (U4 : Forall upper_fixed s4) by (apply sub_go_Forall; [done|constructor]).
  assert (U5 : Forall upper_fixed s5) by (apply sub_go_Forall; [done|constructor]).
  assert (C3 : collapsed s3).
  { subst s3. rewrite sub_spaces. apply collapse_collapsed. }
  assert (C4 : collapsed s4).
  { destruct (sub_lit_eol_prefix (chars "MR") [] s3) as [t Ht].
    { by apply collapsed_no_newline. }
    unfold collapsed in *. rewrite Ht in C3. by apply collapsed_prefix in C3. }
  assert (C5 : collapsed s5).
  { destruct (sub_prefix_suffix s4) as [pre Hp]. fold s5 in Hp.
    unfold collapsed in C4. rewrite Hp in C4. by apply collapsed_suffix in C4. }
  destruct (strip_infix s5) as (ws1 & ws2 & Hs).
  destruct (strip_trimmed s5) as [L T].
  split; [|done|done|].
  - unfold collapsed in C5. rewrite Hs in C5.
    apply collapsed_suffix in C5. by apply collapsed_prefix in C5.
  - rewrite Hs in U5. apply Forall_app in U5 as [_ U5].
    by apply Forall_app in U5 as [U5 _].
Qed.

Lemma no_trail_app pre c : ¬ (no_trail (pre ++ [c]) ∧ Py.is_space c = true).
Proof.
  unfold no_trail. rewrite rev_app_distr. simpl. intros [H1 H2]. congruence.
Qed.

(** A clean text with nothing left to remove is a fixed point. *)
Lemma normalize_chars_fixed y :
  clean y →
  ¬ chars "[D]" `suffix_of` y → ¬ chars "MR" `suffix_of` y →
  ¬ chars "VALVE " `prefix_of` y → ¬ chars "CHECK " `prefix_of` y →
  Script.normalize_chars y = y.
Proof.
  intros [Hc Hl Ht Hu] HD HMR HV HC. unfold Script.normalize_chars.
  rewrite (strip_id y), (upper_id y) by done.
  assert (E2 : sub false Script.re_bracket_d [] y = y).
  { apply sub_go_id. intros pre a' ->.
    destruct (match_at _ _ _) eqn:E; [exfalso|done].
    apply (match_at_lit_eol (chars "[D]")) in E as [[-> | ->] _].
    - apply HD. by exists pre.
    - apply (no_trail_app (pre ++ chars "[D]") newline).
      by rewrite <- app_assoc. }
  rewrite E2.
  assert (E3 : sub false Script.re_spaces (chars " ") y = y).
  { rewrite sub_spaces. by apply collapsed_id. }
  rewrite E3.
  assert (E4 : sub false Script.re_mr [] y = y).
  { apply sub_go_id. intros pre a' ->.
    destruct (match_at _ _ _) eqn:E; [exfalso|done].
    apply (match_at_lit_eol (chars "MR")) in E as [[-> | ->] _].
    - apply HMR. by exists pre.
    - apply (no_trail_app (pre ++ chars "MR") newline).
      by rewrite <- app_assoc. }
  rewrite E4.
  assert (E5 : sub false Script.re_prefix [] y = y).
  { apply sub_go_id. intros pre a' ->.
    destruct (match_at _ _ _) eqn:E; [exfalso|done].
    apply match_at_prefix in E as (Hb & ws & q & sp & rest & -> & Hws & Hq & Hsp).
    rewrite app_nil_r in Hb. apply (f_equal (@rev ascii)) in Hb.
    rewrite rev_involutive in Hb. simpl in Hb. subst pre.
    destruct ws as [|w ws].
    - simpl in *. assert (sp = " "%char) as ->.
      { apply (collapsed_space false (q ++ sp :: rest)); [done| |done].
        apply in_app_iff. right. by left. }
      destruct Hq as [-> | ->]; [apply HV|apply HC]; by exists rest.
    - apply Forall_cons in Hws as [Hw _]. simpl in Hl. congruence. }
  rewrite E5. by apply strip_id.
Qed.

End normal_form.

(** C3, as stated, fails: one pass removes one trailing [D], then one
    trailing MR, then one leading qualifier, so whatever a removal uncovers
    is removed by the next pass only. *)
Lemma normalize_code_not_idempotent :
  Script.normalize_code (Script.normalize_code "CHECK VALVE CH-1234")
  ≠ Script.normalize_code "CHECK VALVE CH-1234"
  ∧ Script.normalize_code "CHECK VALVE CH-1234" = "VALVE CH-1234"
  ∧ Script.normalize_code (Script.normalize_code "CHECK VALVE CH-1234") = "CH-1234"
  ∧ Script.normalize_code "CH-1234 MR MR" = "CH-1234 MR"
  ∧ Script.normalize_code (Script.normalize_code "CH-1234 MR MR") = "CH-1234"
  ∧ Script.normalize_code "CH-1234[D] MR" = "CH-1234[D]"
  ∧ Script.normalize_code (Script.normalize_code "CH-1234[D] MR") = "CH-1234".
Proof.
  split; [intros H; vm_compute in H; discriminate|].
  repeat split; vm_compute; reflexivity.
Qed.

(** C3, amended.  The result [y] of the normalizer is always trimmed, in
    upper case and with single blanks as its only white space, and a second
    pass returns it unchanged, [normalize(normalize(x)) = normalize(x)],
    whenever [y] has nothing left that a pass removes: no trailing [D], no
    trailing MR, and no leading VALVE or CHECK followed by a blank. *)
Theorem normalize_code_stable (x : string) :
  let y := Script.normalize_code x in
  clean (chars y)
  ∧ (¬ ends_with "[D]" y → ¬ ends_with "MR" y →
     ¬ begins_with "VALVE " y → ¬ begins_with "CHECK " y →
     Script.normalize_code y = y).
Proof.
  intros y. unfold y, Script.normalize_code, ends_with, begins_with.
  rewrite !list_ascii_of_string_of_list_ascii.
  split; [apply normalize_chars_clean|].
  intros. f_equal. apply normalize_chars_fixed; [apply normalize_chars_clean|done..].
Qed.

(** A code whose normal form, CH-1234, has nothing left to remove. *)
Lemma normalize_code_stable_witness :
  Script.normalize_code (Script.normalize_code "  valve   ch-1234  mr ")
  = Script.normalize_code "  valve   ch-1234  mr ".
Proof.
  destruct (normalize_code_stable "  valve   ch-1234  mr ") as [_ H].
  apply H; unfold ends_with, begins_with;
    apply (bool_decide_eq_false_1 _); vm_compute; reflexivity.
Defined.

(** * Further properties of the code *)

(** ** The text of a document *)
Section page_text.
Import Re.

Lemma replace_go_absent c new s : ¬ In c s → Py.replace_go [c] new 0 s = s.
Proof.
  induction s as [|x s IH]; intros Hc; [done|].
  cbn [Py.replace_go Py.starts_with].
  destruct (Ascii.eqb_spec c x) as [->|Hx].
  - exfalso. apply Hc. by left.
  - cbn [andb]. rewrite IH; [done|]. intros H. apply Hc. by right.
Qed.

Lemma split_on_absent sep s : ¬ In sep s → Py.split_on sep s = [s].
Proof.
  induction s as [|x s IH]; intros Hc; [done|].
  cbn [Py.split_on].
  destruct (Ascii.eqb_spec x sep) as [->|Hx].
  - exfalso. apply Hc. by left.
  - rewrite IH; [done|]. intros H. apply Hc. by right.
Qed.

Lemma split_on_app sep p s :
  ¬ In sep p → Py.split_on sep (p ++ sep :: s) = p :: Py.split_on sep s.
Proof.
  induction p as [|x p IH]; intros Hc.
  - cbn [app Py.split_on]. by rewrite Ascii.eqb_refl.
  - cbn [app Py.split_on].
    destruct (Ascii.eqb_spec x sep) as [->|Hx].
    + exfalso. apply Hc. by left.
    + rewrite IH; [done|]. intros H. apply Hc. by right.
Qed.

(** Splitting undoes joining when no piece holds the separator. *)
Lemma split_on_join sep ls :
  ls ≠ [] → Forall (fun l => ¬ In sep l) ls →
  Py.split_on sep (Py.join [sep] ls) = ls.
Proof.
  induction ls as [|p ls IH]; [done|]. intros _ H.
  apply Forall_cons in H as [Hp Hls].
  destruct ls as [|q ls].
  - cbn [Py.join]. by apply split_on_absent.
  - change (Py.join [sep] (p :: q :: ls)) with (p ++ sep :: Py.join [sep] (q :: ls)).
    rewrite split_on_app by done. f_equal. by apply IH.
Qed.

Lemma match_at_letter_digit b a :
  match_at false Script.re_letter_digit (Pos b a)
  = if match b with c :: _ => is_letter c | [] => false end
       && match a with c :: _ => Py.is_digit c | [] => false end
    then Some (Match [] None) else None.
Proof.
  unfold match_at, Script.re_letter_digit. rewrite m_seq.
  destruct b as [|x b].
  - cbn [m width back before after mbind option_bind flat_map]. done.
  - assert (Hx : cls_has false false [IRange "a" "z"; IRange "A" "Z"] x = is_letter x).
    { unfold cls_has, items_have. cbn [existsb item_has andb xorb].
      rewrite !orb_false_r. reflexivity. }
    cbn [m width back before after mbind option_bind].
    rewrite Hx. destruct (is_letter x); cbn [andb].
    + cbn [existsb]. rewrite Nat.eqb_refl. cbn [orb flat_map].
      destruct a as [|c a]; [done|].
      cbn [m after before]. rewrite cls_digit.
      destruct (Py.is_digit c); cbn; [|done].
      unfold between. cbn. by rewrite Nat.sub_diag.
    + done.
Qed.

Lemma sub_letter_digit_go b a :
  sub_go false Script.re_letter_digit (chars " ") 0 b a
  = space_out (match b with c :: _ => is_letter c | [] => false end) a.
Proof.
  revert b. induction a as [|c a IH]; intros b.
  - cbn [sub_go]. rewrite match_at_letter_digit, andb_false_r. done.
  - cbn [sub_go space_out]. rewrite match_at_letter_digit.
    destruct (_ && Py.is_digit c); cbn [group0 length app]; by rewrite IH.
Qed.

Lemma space_out_Forall (P : ascii → Prop) prev a :
  P " "%char → Forall P a → Forall P (space_out prev a).
Proof.
  intros Hs. revert prev. induction a as [|c a IH]; intros prev Ha; [constructor|].
  apply Forall_cons in Ha as [Hc Ha]. cbn [space_out].
  destruct (prev && Py.is_digit c); repeat constructor; auto.
Qed.

Lemma letter_not_space c : is_letter c = true → Py.is_space c = false.
Proof.
  unfold is_letter, Py.is_lower, Py.is_upper, Py.is_space.
  rewrite orb_true_iff, !andb_true_iff, !Nat.leb_le.
  intros H. apply orb_false_iff. rewrite !andb_false_iff, !Nat.leb_gt. lia.
Qed.

Lemma digit_not_space c : Py.is_digit c = true → Py.is_space c = false.
Proof.
  unfold Py.is_digit, Py.is_space.
  rewrite !andb_true_iff, !Nat.leb_le.
  intros H. apply orb_false_iff. rewrite !andb_false_iff, !Nat.leb_gt. lia.
Qed.

Lemma digit_not_letter c : Py.is_digit c = true → is_letter c = false.
Proof.
  unfold Py.is_digit, is_letter, Py.is_lower, Py.is_upper.
  rewrite !andb_true_iff, !Nat.leb_le.
  intros H. apply orb_false_iff. rewrite !andb_false_iff, !Nat.leb_gt. lia.
Qed.

(** Putting the blanks in keeps white space single. *)
Lemma space_out_collapsed prev sp a :
  (prev = true → sp = false) →
  collapsed_go sp a = true → collapsed_go sp (space_out prev a) = true.
Proof.
  revert prev sp. induction a as [|c a IH]; intros prev sp Hp; [done|].
  cbn [space_out collapsed_go].
  destruct (Py.is_space c) eqn:Es.
  - assert (Py.is_digit c = false) as ->.
    { destruct (Py.is_digit c) eqn:Ed; [|done]. apply digit_not_space in Ed. congruence. }
    rewrite andb_false_r. cbn [collapsed_go]. rewrite Es.
    rewrite !andb_true_iff. intros [[-> ->] H]. repeat split.
    apply IH; [|done]. intros Hl. apply letter_not_space in Hl. congruence.
  - intros H. destruct (prev && Py.is_digit c) eqn:E.
    + apply andb_true_iff in E as [-> Ed]. rewrite (Hp eq_refl).
      cbn [collapsed_go]. rewrite Es.
      change (Py.is_space " ") with true. cbn [Ascii.eqb andb negb].
      change (Ascii.eqb " " " ") with true. cbn [andb].
      by apply IH.
    + cbn [collapsed_go]. rewrite Es. by apply IH.
Qed.

Lemma space_out_separated prev a : separated_go prev (space_out prev a) = true.
Proof.
  revert prev. induction a as [|c a IH]; intros prev; [done|].
  cbn [space_out]. destruct (prev && Py.is_digit c) eqn:E.
  - cbn [separated_go]. change (Py.is_digit " ") with false.
    rewrite andb_false_r. change (is_letter " ") with false. cbn [andb negb].
    by rewrite IH.
  - cbn [separated_go]. by rewrite E, IH.
Qed.

Lemma separated_weaken prev l : separated_go prev l = true → separated l.
Proof.
  unfold separated. destruct l as [|c l]; [done|]. cbn [separated_go andb].
  rewrite andb_true_iff. by intros [_ ->].
Qed.

Lemma separated_suffix prev pre l : separated_go prev (pre ++ l) = true → separated l.
Proof.
  revert prev. induction pre as [|c pre IH]; intros prev; cbn [app].
  - apply separated_weaken.
  - cbn [separated_go]. rewrite andb_true_iff. intros [_ H]. by eapply IH.
Qed.

Lemma separated_prefix prev l t :
  separated_go prev (l ++ t) = true → separated_go prev l = true.
Proof.
  revert prev. induction l as [|c l IH]; intros prev; [done|].
  cbn [app separated_go]. rewrite !andb_true_iff. intros [-> H]. eauto.
Qed.

Lemma strip_nil_isspace l : Py.isspace (Py.strip l) = false.
Proof.
  destruct (strip_trimmed l) as [Hl _].
  destruct (Py.strip l) as [|c s]; [done|]. cbn in *. by rewrite Hl.
Qed.

(** A page adds the one line [page_line], unless that line is empty. *)
Lemma page_lines_eq text :
  Script.page_lines text
  = match page_line (chars text) with [] => [] | l => [l] end.
Proof.
  unfold Script.page_lines, page_line.
  destruct (chars text) as [|c t] eqn:E; [done|]. rewrite <- E. clear E c t.
  rewrite sub_spaces.
  assert (Hc : collapsed (collapse_go false (chars text))) by apply collapse_collapsed.
  unfold Py.replace. rewrite (replace_go_absent Script.form_feed) by
    (intros Hin; by apply (collapsed_space _ _ _ Hc) in Hin).
  unfold sub. rewrite sub_letter_digit_go.
  rewrite split_on_absent.
  - cbn [map List.filter]. rewrite strip_nil_isspace.
    destruct (Py.strip _); [done|]. by rewrite bool_decide_eq_false_2.
  - assert (H : Forall (fun c => c ≠ newline) (space_out false (collapse_go false (chars text)))).
    { apply space_out_Forall; [done|]. apply Forall_forall. intros c Hin ->.
      apply list_elem_of_In in Hin. by apply collapsed_no_newline in Hin. }
    intros Hin. rewrite Forall_forall in H. apply list_elem_of_In in Hin.
    by apply H in Hin.
Qed.

Lemma infix_collapsed ws1 l ws2 :
  collapsed (ws1 ++ l ++ ws2) → collapsed l.
Proof.
  intros H. apply collapsed_suffix in H. by apply collapsed_prefix in H.
Qed.

Lemma page_line_tidy text : page_line text ≠ [] → tidy (page_line text).
Proof.
  intros Hne. unfold page_line in *.
  set (t := space_out false (collapse_go false text)) in *.
  destruct (strip_infix t) as (ws1 & ws2 & Ht).
  destruct (strip_trimmed t) as [Hl Hr].
  split; try done.
  - apply (infix_collapsed ws1 _ ws2). rewrite <- Ht.
    apply space_out_collapsed; [done|]. apply collapse_collapsed.
  - pose proof (space_out_separated false (collapse_go false text)) as Hs.
    fold t in Hs. rewrite Ht in Hs. apply separated_suffix in Hs.
    by apply separated_prefix in Hs.
Qed.

Lemma page_lines_tidy text : Forall tidy (Script.page_lines text).
Proof.
  rewrite page_lines_eq. destruct (page_line (chars text)) as [|c l] eqn:E; [constructor|].
  constructor; [|constructor]. rewrite <- E. apply page_line_tidy. by rewrite E.
Qed.

Lemma page_lines_length text : length (Script.page_lines text) ≤ 1.
Proof. rewrite page_lines_eq. destruct (page_line _); simpl; lia. Qed.

Lemma flat_map_length_le {A B} (f : A → list B) (l : list A) n :
  (∀ x, length (f x) ≤ n) → length (flat_map f l) ≤ n * length l.
Proof.
  intros H. induction l as [|x l IH]; cbn [flat_map length]; [lia|].
  rewrite length_app. specialize (H x). lia.
Qed.

Lemma tidy_no_newline l : tidy l → ¬ In newline l.
Proof. intros [_ H _ _ _]. by apply collapsed_no_newline. Qed.

Lemma join_nil sep ls :
  Forall (fun l => l ≠ []) ls → Py.join sep ls = [] → ls = [].
Proof.
  destruct ls as [|p ls]; [done|]. intros H. apply Forall_cons in H as [Hp _].
  destruct ls; cbn [Py.join]; [done|]. by destruct p.
Qed.

Lemma extracted_lines pages :
  Script.extract_text_from_pdf (Some pages) ≠ "" →
  Py.split_on newline (chars (Script.extract_text_from_pdf (Some pages)))
  = flat_map Script.page_lines pages.
Proof.
  cbn [Script.extract_text_from_pdf]. intros Hne.
  rewrite list_ascii_of_string_of_list_ascii.
  assert (Ht : Forall tidy (flat_map Script.page_lines pages)).
  { apply Forall_flat_map, Forall_forall. intros ? _. apply page_lines_tidy. }
  apply split_on_join.
  - intros E. apply Hne. by rewrite E.
  - eapply Forall_impl; [exact Ht|]. apply tidy_no_newline.
Qed.

End page_text.

(** X1.  [extract_text_from_pdf] gives at most one line per page: since the
    white-space pass has already turned every line break and form feed into
    a blank, splitting at line breaks finds nothing to split.  When the
    extracted text is not empty, its lines are the lines that the pages
    contribute, in order, there are no more of them than pages, and each
    line is not empty, has single blanks as its only white space, none at
    its ends, and no digit directly after a letter. *)
Theorem extract_text_one_line_per_page (pages : list string) :
  Script.extract_text_from_pdf (Some pages) ≠ "" →
  lines_of (Script.extract_text_from_pdf (Some pages))
  = map str (flat_map Script.page_lines pages)
  ∧ length (lines_of (Script.extract_text_from_pdf (Some pages))) ≤ length pages
  ∧ Forall (fun line => tidy (chars line))
           (lines_of (Script.extract_text_from_pdf (Some pages))).
Proof.
  intros Hne. unfold lines_of. rewrite extracted_lines by done.
  split; [done|]. split.
  - rewrite length_map.
    pose proof (flat_map_length_le Script.page_lines pages 1 page_lines_length). lia.
  - apply Forall_map, Forall_flat_map, Forall_forall. intros text _.
    eapply Forall_impl; [apply page_lines_tidy|]. intros l Hl. simpl.
    by rewrite list_ascii_of_string_of_list_ascii.
Qed.

(** Two pages with text, one of them of two lines, and an empty page. *)
Lemma extract_text_one_line_per_page_witness :
  lines_of (Script.extract_text_from_pdf
              (Some ["Valve CH1234" +:+ String Re.newline "QTY5"; ""; "DP 12"]))
  = ["Valve CH 1234 QTY 5"; "DP 12"].
Proof.
  destruct (extract_text_one_line_per_page
              ["Valve CH1234" +:+ String Re.newline "QTY5"; ""; "DP 12"]) as [H _].
  - vm_compute. discriminate.
  - rewrite H. vm_compute. reflexivity.
Defined.

(** ** A pattern that the extracted text cannot match *)
Section dead_pattern.
Import Re.

Lemma separated_app_blank prev x y :
  separated_go prev x = true → separated y →
  separated_go prev (x ++ " "%char :: y) = true.
Proof.
  revert prev. induction x as [|c x IH]; intros prev Hx Hy.
  - cbn [app separated_go]. change (Py.is_digit " ") with false.
    rewrite andb_false_r. exact Hy.
  - cbn [app separated_go] in *. apply andb_true_iff in Hx as [-> Hx]. by apply IH.
Qed.

(** [' '.join(line.split())] keeps letters and digits apart. *)
Lemma separated_split_go cur l :
  separated (rev cur ++ l) →
  separated (Py.join (chars " ") (Py.split_go cur l)).
Proof.
  revert cur. induction l as [|c l IH]; intros cur H.
  - rewrite app_nil_r in H. destruct cur; [done|exact H].
  - cbn [Py.split_go]. destruct (Py.is_space c) eqn:Es.
    + assert (Hl : separated (Py.join (chars " ") (Py.split_go [] l))).
      { apply IH. apply (separated_suffix false (rev cur ++ [c])).
        by rewrite <- app_assoc. }
      destruct cur as [|x cur]; [exact Hl|].
      destruct (Py.split_go [] l) as [|q qs] eqn:E.
      * apply (separated_prefix _ _ (c :: l)). exact H.
      * change (Py.join (chars " ") (rev (x :: cur) :: q :: qs))
          with (rev (x :: cur) ++ " "%char :: Py.join (chars " ") (q :: qs)).
        apply separated_app_blank; [|exact Hl].
        apply (separated_prefix _ _ (c :: l)). exact H.
    + apply IH. cbn [rev]. by rewrite <- app_assoc.
Qed.

Lemma finditer_go_none ic r b a :
  (∀ pre a', a = pre ++ a' → match_at ic r (Pos (rev pre ++ b) a') = None) →
  finditer_go ic r 0 b a = [].
Proof.
  revert b. induction a as [|c a IH]; intros b H.
  - pose proof (H [] [] eq_refl) as H0. cbn [rev app] in H0.
    cbn [finditer_go]. by rewrite H0.
  - pose proof (H [] (c :: a) eq_refl) as H0. cbn [rev app] in H0.
    cbn [finditer_go]. rewrite H0.
    apply IH. intros pre a' ->. pose proof (H (c :: pre) a' eq_refl) as H1.
    cbn [rev] in H1. by rewrite <- app_assoc in H1.
Qed.

Lemma m_chr_elem ic x b a cap st' cap' :
  In (st', cap') (m ic (Chr x) (Pos b a) cap) →
  ∃ c a', a = c :: a' ∧ chr_eq ic x c = true ∧ st' = Pos (c :: b) a' ∧ cap' = cap.
Proof.
  cbn [m before after]. destruct a as [|c a]; [done|].
  destruct (chr_eq ic x c) eqn:E; [|done].
  intros [[= <- <-]|[]]. eauto 6.
Qed.

Lemma no_elem_nil {A} (l : list A) : (∀ x, ¬ In x l) → l = [].
Proof. destruct l as [|x l]; [done|]. intros H. destruct (H x). by left. Qed.

(** A pattern that asks for a letter directly followed by a digit finds
    nothing in a text that keeps them apart. *)
Lemma m_letter_digit ic y x items lo hi rest b a cap :
  (∀ c, chr_eq ic x c = true → is_letter c = true) →
  (∀ c, cls_has ic false items c = true → Py.is_digit c = true) →
  0 < lo → separated a →
  m ic (Seq (Seq (Chr y) (Chr x)) (Seq (Rep false items lo hi) rest)) (Pos b a) cap = [].
Proof.
  intros Hx Hd Hlo Hs. apply no_elem_nil. intros e Hin.
  apply m_seq_elem in Hin as (st1 & cap1 & H1 & Hin).
  apply m_seq_elem in H1 as (st0 & cap0 & H0 & H1).
  apply m_chr_elem in H0 as (c0 & a0 & -> & _ & -> & _).
  apply m_chr_elem in H1 as (c1 & a1 & -> & Hc1 & -> & _).
  apply m_seq_elem in Hin as ([b2 a2] & cap2 & H2 & _).
  apply m_rep_elem in H2 as (_ & run & -> & _ & Hrun & Hlen).
  destruct run as [|c2 run]; [simpl in Hlen; lia|].
  apply Forall_cons in Hrun as [Hc2 _].
  apply Hx in Hc1. apply Hd in Hc2.
  unfold separated in Hs. cbn [separated_go app] in Hs.
  rewrite Hc1, Hc2 in Hs. cbn in Hs. by rewrite andb_false_r in Hs.
Qed.

Lemma chr_eq_P c : chr_eq true "P" c = true → is_letter c = true.
Proof. destruct c as [[] [] [] [] [] [] [] []]; vm_compute; congruence. Qed.

Lemma cls_digit_ic c : cls_has true false digit c = true → Py.is_digit c = true.
Proof. destruct c as [[] [] [] [] [] [] [] []]; vm_compute; congruence. Qed.

Lemma lines_of_separated pages line :
  line ∈ lines_of (Script.extract_text_from_pdf (Some pages)) →
  separated (chars line).
Proof.
  destruct (decide (Script.extract_text_from_pdf (Some pages) = "")) as [E|Hne].
  - rewrite E. intros H. apply list_elem_of_In in H. destruct H as [<-|[]]. done.
  - unfold lines_of. rewrite extracted_lines by done.
    intros H. apply list_elem_of_fmap in H as (l & -> & Hl).
    rewrite list_ascii_of_string_of_list_ascii.
    apply list_elem_of_In, in_flat_map in Hl as (text & _ & Hl).
    pose proof (page_lines_tidy text) as Ht. rewrite Forall_forall in Ht.
    apply list_elem_of_In, Ht in Hl. by destruct Hl.
Qed.

End dead_pattern.

(** X2.  On a line of text that [extract_text_from_pdf] returns, the third
    pattern of [extract_codes_from_line], the DP technical format
    [DP\d{2}\.[A-Z0-9]+...], never matches: it asks for a digit directly
    after the letter P, and the extraction has put a blank between every
    letter and a digit that follows it. *)
Theorem dp_technical_never_matches (pages : list string) (line : string)
                                   (pattern : Re.regex) :
  line ∈ lines_of (Script.extract_text_from_pdf (Some pages)) →
  Script.patterns !! 2 = Some pattern →
  Re.finditer true pattern (Py.join (chars " ") (Py.split (chars line))) = [].
Proof.
  intros Hline Hp. apply lines_of_separated in Hline.
  injection Hp as <-. unfold Re.finditer.
  apply finditer_go_none. intros pre a' E.
  apply match_at_None.
  apply (m_letter_digit true "D" "P" Re.digit 2 (Some 2)).
  - apply chr_eq_P.
  - apply cls_digit_ic.
  - lia.
  - apply (separated_suffix false pre). rewrite <- E.
    apply (separated_split_go [] (chars line)). exact Hline.
Qed.

(** The page "DP12.A.34.BC.5" becomes the line "DP 12.A.34.BC.5". *)
Lemma dp_technical_never_matches_witness :
  Re.finditer true
    (Re.seq [Re.Lit "DP"; Re.Times Re.digit 2; Re.Chr "."; 
             Re.Plus [Re.IRange "A" "Z"; Re.IRange "0" "9"];
             Re.Chr "."; Re.Times Re.digit 2; Re.Chr "."; Re.Times Script.upper_AZ 2;
             Re.Chr "."; Re.Plus Re.digit; Re.Opt (Re.Cls false Script.upper_AZ)])
    (Py.join (chars " ") (Py.split (chars "DP 12.A.34.BC.5"))) = [].
Proof.
  apply (dp_technical_never_matches ["DP12.A.34.BC.5"]).
  - apply (bool_decide_eq_true_1 (_ ∈ _)). vm_compute. reflexivity.
  - reflexivity.
Defined.

Section page_items.
Import Script.

Lemma unique_items_length seen items : length (unique_items seen items) ≤ length items.
Proof.
  revert seen. induction items as [|x items IH]; intros seen; [done|].
  cbn [unique_items]. destruct (_ && _); cbn [length]; [specialize (IH (item_codes x :: seen))|specialize (IH seen)]; lia.
Qed.

Lemma omap_length_le {A B} (f : A → option B) l : length (omap f l) ≤ length l.
Proof. induction l as [|x l IH]; [done|]. cbn. destruct (f x); cbn; lia. Qed.

Lemma process_content_length doc_type content :
  length (process_content doc_type content) ≤ length content.
Proof.
  unfold process_content. etrans; [apply unique_items_length|apply omap_length_le].
Qed.

End page_items.

(** X3.  A file adds at most one item per page to [self.items], and none
    when it cannot be read: every page is one line, every line at most one
    item, and the duplicate filter only removes items.  So a folder gives
    at most as many items as its files have pages. *)
Theorem items_bounded_by_pages (filename : string) (reader : option (list string))
                               (entries : list (string * option (list string))) :
  length (Script.process_file filename reader) ≤ length (default [] reader)
  ∧ length (Script.process_folder entries)
    ≤ list_sum (map (fun entry => length (default [] entry.2)) entries).
Proof.
  assert (H : ∀ filename reader,
            length (Script.process_file filename reader) ≤ length (default [] reader)).
  { clear. intros filename reader. unfold Script.process_file.
    destruct (negb _); [simpl; lia|].
    destruct (bool_decide _) eqn:E; [simpl; lia|].
    apply bool_decide_eq_false_1 in E.
    destruct reader as [pages|]; [|done].
    etrans; [apply process_content_length|].
    rewrite length_map, extracted_lines by done.
    change (default [] (Some pages)) with pages.
    pose proof (flat_map_length_le Script.page_lines pages 1 page_lines_length). lia. }
  split; [apply H|]. unfold Script.process_folder.
  induction entries as [|[name pages] entries IH]; [done|].
  cbn [flat_map map list_sum snd]. rewrite length_app.
  specialize (H name pages). simpl. lia.
Qed.

(** ** Document types and the document summary *)
(** X4.  [determine_doc_type] depends on the file name only: whatever the
    content is, the result is the same, and it is DataSheet, PO or SO. *)
Theorem doc_type_from_file_name (filename content content' : string) :
  Script.determine_doc_type filename content
  = Script.determine_doc_type filename content'
  ∧ Script.determine_doc_type filename content ∈ ["DataSheet"; "PO"; "SO"].
Proof.
  unfold Script.determine_doc_type.
  destruct (_ || _); [split; [done|set_solver]|].
  destruct (existsb _ _); [split; [done|set_solver]|].
  split.
  - by repeat match goal with |- context [if ?b then _ else _] => destruct b end.
  - repeat match goal with |- context [if ?b then _ else _] => destruct b end;
      set_solver.
Qed.

Section documents.
Import Script.



Lemma filter_none {A} (f : A → bool) (l : list A) :
  (∀ x, x ∈ l → f x = false) → List.filter f l = [].
Proof.
  induction l as [|x l IH]; intros H; [done|]. cbn [List.filter].
  rewrite (H x) by left. apply IH. intros y Hy. apply H. by right.
Qed.



End documents.

Section summary.
Import Script.

Lemma bump_keys k d :
  map fst (bump k d)
  = map fst d ++ (if bool_decide (k ∈ map fst d) then [] else [k]).
Proof.
  induction d as [|[k' n] d IH]; [done|]. cbn [bump].
  destruct (decide (k' = k)) as [->|Hk].
  - rewrite (bool_decide_eq_true_2 (k = k)) by done. cbn [map fst].
    rewrite bool_decide_eq_true_2 by left. by rewrite app_nil_r.
  - rewrite (bool_decide_eq_false_2 (k' = k)) by done. cbn [map fst].
    rewrite IH. cbn [app]. f_equal.
    destruct (bool_decide (k ∈ map fst d)) eqn:E.
    + apply bool_decide_eq_true_1 in E. rewrite bool_decide_eq_true_2; [done|by right].
    + apply bool_decide_eq_false_1 in E. rewrite bool_decide_eq_false_2; [done|].
      intros [->|H]%elem_of_cons; done.
Qed.

Lemma bump_sum k d : list_sum (map snd (bump k d)) = S (list_sum (map snd d)).
Proof.
  induction d as [|[k' n] d IH]; [done|]. cbn [bump].
  destruct (bool_decide (k' = k)); cbn [map snd]; rewrite ?IH; simpl; lia.
Qed.

Lemma bump_elem k d k' n' :
  NoDup (map fst d) →
  (k', n') ∈ bump k d →
  (k' ≠ k ∧ (k', n') ∈ d)
  ∨ (k' = k ∧ ((n' = 1 ∧ k ∉ map fst d) ∨ ∃ n, n' = n + 1 ∧ (k, n) ∈ d)).
Proof.
  induction d as [|[k0 n0] d IH]; cbn [bump map fst]; intros Hnd.
  - intros [= -> ->]%list_elem_of_singleton. right. split; [done|]. left.
    split; [done|]. apply not_elem_of_nil.
  - apply NoDup_cons in Hnd as [Hk0 Hnd].
    destruct (decide (k0 = k)) as [Hk|Hk];
      [rewrite (bool_decide_eq_true_2 (k0 = k)) by done
      |rewrite (bool_decide_eq_false_2 (k0 = k)) by done].
    + subst k0. intros [[= -> ->]|H]%elem_of_cons.
      * right. split; [done|]. right. exists n0. split; [done|left].
      * left. split; [|by right]. intros ->. apply Hk0.
        apply list_elem_of_fmap. by exists (k, n').
    + intros [[= -> ->]|H]%elem_of_cons.
      * left. split; [done|left].
      * destruct (IH Hnd H) as [[Hne Hin]|[-> [[-> Hout]|(n & -> & Hin)]]].
        -- left. split; [done|by right].
        -- right. split; [done|]. left. split; [done|].
           intros [?|?]%elem_of_cons; done.
        -- right. split; [done|]. right. exists n. split; [done|by right].
Qed.

Lemma bump_NoDup k d : NoDup (map fst d) → NoDup (map fst (bump k d)).
Proof.
  intros Hnd. rewrite bump_keys. case_bool_decide as Hk.
  - by rewrite app_nil_r.
  - apply NoDup_app. split; [done|]. split.
    + intros x Hx [->|[]%not_elem_of_nil]%elem_of_cons. done.
    + apply NoDup_singleton.
Qed.

Lemma doc_summary_snoc items item :
  doc_summary (items ++ [item]) = bump (source_doc item) (doc_summary items).
Proof. unfold doc_summary. by rewrite fold_left_app. Qed.

Lemma filter_is_doc_snoc k items item :
  length (List.filter (is_doc k) (items ++ [item]))
  = length (List.filter (is_doc k) items)
    + (if bool_decide (source_doc item = k) then 1 else 0).
Proof.
  rewrite List.filter_app, length_app. cbn [List.filter]. unfold is_doc at 2.
  by destruct (bool_decide _).
Qed.

Lemma doc_summary_invariant items :
  NoDup (map fst (doc_summary items))
  ∧ (∀ k n, (k, n) ∈ doc_summary items →
       0 < n ∧ n = length (List.filter (is_doc k) items))
  ∧ (∀ item, item ∈ items → source_doc item ∈ map fst (doc_summary items))
  ∧ list_sum (map snd (doc_summary items)) = length items.
Proof.
  induction items as [|item items (I1 & I2 & I3 & I4)] using rev_ind.
  - split; [apply NoDup_nil_2|]. split; [by intros k n ?%not_elem_of_nil|].
    split; [by intros item ?%not_elem_of_nil|done].
  - rewrite doc_summary_snoc. split; [by apply bump_NoDup|]. split; [|split].
    + intros k n Hin. rewrite filter_is_doc_snoc.
      destruct (bump_elem _ _ _ _ I1 Hin) as [[Hne Hd]|[-> [[-> Hout]|(n0 & -> & Hd)]]].
      * rewrite bool_decide_eq_false_2 by done.
        destruct (I2 _ _ Hd). lia.
      * rewrite bool_decide_eq_true_2 by done.
        rewrite filter_none; [simpl; lia|]. intros x Hx.
        apply bool_decide_eq_false_2. intros E. apply Hout. rewrite <- E. by apply I3.
      * rewrite bool_decide_eq_true_2 by done. destruct (I2 _ _ Hd). lia.
    + intros x Hx. rewrite bump_keys. apply elem_of_app.
      apply elem_of_app in Hx as [Hx|Hx].
      * left. by apply I3.
      * apply list_elem_of_singleton in Hx as ->.
        case_bool_decide; [by left|right; left].
    + rewrite bump_sum, length_app, I4. simpl. lia.
Qed.

End summary.

(** X6.  The document summary of [analyze_and_report] has one entry per
    document type that occurs among the items, each with the number of
    items of that type, which is positive; the counts add up to the number
    of items. *)
Theorem doc_summary_counts (items : list Script.ValveItem) :
  NoDup (map fst (Script.doc_summary items))
  ∧ (∀ item, item ∈ items →
       (Script.source_doc item,
        length (List.filter (Script.is_doc (Script.source_doc item)) items))
       ∈ Script.doc_summary items)
  ∧ (∀ k n, (k, n) ∈ Script.doc_summary items →
       0 < n ∧ n = length (List.filter (Script.is_doc k) items))
  ∧ list_sum (map snd (Script.doc_summary items)) = length items.
Proof.
  destruct (doc_summary_invariant items) as (I1 & I2 & I3 & I4).
  split; [done|]. split; [|done].
  intros item Hin. apply I3, list_elem_of_fmap in Hin as ([k n] & E & Hd).
  simpl in E. rewrite E. by destruct (I2 _ _ Hd) as [_ <-].
Qed.

(** ** Data sheets *)
Section data_sheets.
Import Script.












End data_sheets.



(** ** Duplicate items and the lists of the analysis *)
Section duplicates.
Import Script.

Lemma unique_items_distinct seen items :
  NoDup (map item_codes (unique_items seen items))
  ∧ ∀ c, c ∈ map item_codes (unique_items seen items) → c ∉ seen.
Proof.
  revert seen. induction items as [|x items IH]; intros seen; cbn [unique_items].
  - split; [apply NoDup_nil_2|by intros c ?%not_elem_of_nil].
  - destruct (bool_decide (item_codes x ≠ ∅)) eqn:E1; cbn [andb]; [|apply IH].
    destruct (bool_decide (item_codes x ∈ seen)) eqn:E2; cbn [negb]; [apply IH|].
    apply bool_decide_eq_false_1 in E2.
    destruct (IH (item_codes x :: seen)) as [Hnd Hout]. cbn [map]. split.
    + apply NoDup_cons. split; [|done]. intros Hin. apply Hout in Hin.
      apply Hin. left.
    + intros c [->|Hin]%elem_of_cons; [done|]. apply Hout in Hin.
      intros Hs. apply Hin. by right.
Qed.

Lemma unique_items_sublist seen items : unique_items seen items `sublist_of` items.
Proof.
  revert seen. induction items as [|x items IH]; intros seen; cbn [unique_items].
  - constructor.
  - destruct (_ && _); [apply sublist_skip|apply sublist_cons]; apply IH.
Qed.

(** The first item with a given set of codes is kept. *)
Lemma unique_items_first seen pre item post :
  item_codes item ≠ ∅ → item_codes item ∉ seen →
  item_codes item ∉ map item_codes pre →
  item ∈ unique_items seen (pre ++ item :: post).
Proof.
  revert seen. induction pre as [|p pre IH]; intros seen Hne Hs Hp.
  - cbn [app unique_items]. rewrite bool_decide_eq_true_2 by done.
    rewrite bool_decide_eq_false_2 by done. left.
  - cbn [app unique_items]. cbn [map] in Hp.
    apply not_elem_of_cons in Hp as [Hx Hp].
    destruct (_ && _).
    + right. apply IH; [done| |done]. by intros [?|?]%elem_of_cons.
    + by apply IH.
Qed.

Lemma omap_process_line_codes doc_type content :
  Forall (fun item => item_codes item ≠ ∅)
         (omap (fun line => process_line line doc_type) content).
Proof.
  apply Forall_forall. intros item (line & _ & Hl)%list_elem_of_omap.
  by apply process_line_codes in Hl as [_ ?].
Qed.

End duplicates.

(** X7.  The duplicate filter of [process_pdfs] keeps, of the items parsed
    from one document and in their order, the first item of every set of
    codes: the kept items have pairwise different sets of codes, they are a
    sublist of the parsed ones, and every parsed item whose set of codes
    does not occur before it is kept. *)
Theorem duplicates_dropped (doc_type : string) (content : list string) :
  let found := omap (fun line => Script.process_line line doc_type) content in
  let kept := Script.process_content doc_type content in
  NoDup (map Script.item_codes kept)
  ∧ kept `sublist_of` found
  ∧ (∀ pre item post,
       found = pre ++ item :: post →
       Script.item_codes item ∉ map Script.item_codes pre →
       item ∈ kept).
Proof.
  intros found kept. unfold kept, Script.process_content. fold found.
  split; [apply unique_items_distinct|]. split; [apply unique_items_sublist|].
  intros pre item post E Hpre.
  rewrite E. apply unique_items_first; [|apply not_elem_of_nil|done].
  pose proof (omap_process_line_codes doc_type content) as H. fold found in H.
  rewrite E, Forall_forall in H. apply H. apply elem_of_app. right. left.
Qed.

Section analysis_lists.
Import Script.
Variable mappings : gmap string (gset string).

Lemma record_match_lists po_item so_item a a' :
  record_match po_item so_item a = Some a' → lists_agree a → lists_agree a'.
Proof.
  unfold record_match, lists_agree. destruct (next_iter _); [|done].
  intros [= <-]. cbn [mbind option_bind unmatched_items mismatched_items
    quantity_mismatches price_mismatches material_spec_mismatches matched_items].
  intros (H1 & H2 & H3 & H4).
  destruct (bool_decide (quantity _ ≠ _)), (price_differs _ _),
    (bool_decide (material_spec _ ≠ _));
    rewrite ?length_app; cbn [length]; lia.
Qed.

Lemma scan_so_items_lists po_item so_items a found a' :
  scan_so_items mappings po_item so_items a = Some (found, a') →
  lists_agree a → if found then lists_agree a' else a' = a.
Proof.
  induction so_items as [|so_item rest IH]; cbn [scan_so_items].
  - by intros [= <- <-].
  - destruct (items_match mappings po_item so_item); [|exact IH].
    destruct (record_match po_item so_item a) as [a1|] eqn:E; [|done].
    intros [= <- <-]. by eapply record_match_lists.
Qed.

Lemma fold_analyze_None so_items po_items :
  fold_left (analyze_po mappings so_items) po_items None = None.
Proof. by induction po_items. Qed.

Lemma analyze_loop_lists so_items po_items a a' :
  fold_left (analyze_po mappings so_items) po_items (Some a) = Some a' →
  lists_agree a → lists_agree a'.
Proof.
  revert a. induction po_items as [|po_item rest IH]; intros a; cbn [fold_left].
  - by intros [= <-].
  - cbn [analyze_po].
    destruct (scan_so_items mappings po_item so_items (count_po a))
      as [[found a1]|] eqn:E; [|by rewrite fold_analyze_None].
    intros Hf Ha. apply IH in Hf; [done|].
    apply scan_so_items_lists in E; [|exact Ha].
    destruct found; [done|]. subst a1.
    destruct Ha as (H1 & H2 & H3 & H4). unfold lists_agree. simpl.
    rewrite length_app. simpl. lia.
Qed.

End analysis_lists.

(** X8.  The analysis of script.py always ends normally, and its lists agree
    with its counters: there is one entry in [unmatched_items] per
    mismatched item, and each list of discrepancies (quantity, price,
    material) has at most one entry per matched item. *)
Theorem analysis_lists_agree (mappings : gmap string (gset string))
                             (items : list Script.ValveItem) :
  ∃ a, Script.analyze_and_report mappings items = Some a
    ∧ length (Script.unmatched_items a) = Script.mismatched_items a
    ∧ length (Script.quantity_mismatches a) ≤ Script.matched_items a
    ∧ length (Script.price_mismatches a) ≤ Script.matched_items a
    ∧ length (Script.material_spec_mismatches a) ≤ Script.matched_items a.
Proof.
  unfold Script.analyze_and_report.
  destruct (analyze_loop_counters mappings
              (List.filter (Script.is_doc "SO") items)
              (List.filter (Script.is_doc "PO") items) Script.analysis0)
    as (a & Ha & _).
  exists a. split; [exact Ha|].
  change (lists_agree a).
  eapply analyze_loop_lists; [exact Ha|].
  unfold lists_agree. simpl. lia.
Qed.

(** ** Ranges of prices and quantities *)
Section price_loops.

Lemma price_loop_range patterns line p0 :
  Script.price_loop patterns line p0 = p0
  ∨ Script.price_ok (Script.price_loop patterns line p0) = true.
Proof.
  induction patterns as [|pattern rest IH]; cbn [Script.price_loop]; [by left|].
  destruct (Script.price_of line pattern) as [p|]; [|exact IH].
  destruct (Script.price_ok p) eqn:E; [by right|exact IH].
Qed.

Lemma last_cons_default {A} (x d : A) l : List.last (x :: l) d = List.last l x.
Proof.
  revert x d. induction l as [|y l IH]; intros x d; [done|].
  change (List.last (x :: y :: l) d) with (List.last (y :: l) d).
  by rewrite !IH.
Qed.

Lemma price_loop2_last patterns line p0 :
  Forall (price_fails2 line) patterns →
  Script2.price_loop patterns line p0
  = List.last (omap (Script2.price_of line) patterns) p0.
Proof.
  intros H. revert p0. induction H as [|pattern rest Hp _ IH]; intros p0; [done|].
  cbn [Script2.price_loop omap list_omap].
  destruct (Script2.price_of line pattern) as [p|] eqn:E; [|apply IH].
  rewrite (Hp p E), last_cons_default. apply IH.
Qed.

Lemma qty_loop_range patterns line :
  ∃ qty, (0 < qty < 10000)%N
         ∧ Script.qty_loop patterns line "1" = Py.str_of_int qty.
Proof.
  induction patterns as [|pattern rest IH]; cbn [Script.qty_loop].
  - exists 1%N. split; [lia|reflexivity].
  - destruct (Script.qty_of line pattern) as [qty|]; [|exact IH].
    destruct (Script.qty_ok qty) eqn:E; [|exact IH].
    exists qty. split; [|done]. unfold Script.qty_ok in E.
    apply andb_true_iff in E as [E1 E2]. apply N.ltb_lt in E1, E2. lia.
Qed.

End price_loops.

(** X9.  In script.py the price of a line is 0.0 or lies strictly between 0
    and 1000000. *)
Theorem price_zero_or_in_range (line : string) :
  (Script.extract_quantity_and_price line).2 = 0%float
  ∨ (PrimFloat.ltb 0 (Script.extract_quantity_and_price line).2 = true
     ∧ PrimFloat.ltb (Script.extract_quantity_and_price line).2 1000000 = true).
Proof.
  cbn [Script.extract_quantity_and_price snd].
  destruct (price_loop_range Script.price_patterns (chars line) 0) as [->|H];
    [by left|right].
  by apply andb_true_iff in H.
Qed.

(** X10.  In script2.py, when no price pattern yields a number strictly
    between 0 and 1000000 on a line, the price is not reset: it is the
    number that the last pattern with a number has parsed (0.0 if no
    pattern has one), because the loop assigns [price] before the range
    test. *)
Theorem price2_out_of_range_kept (line : string) :
  Forall (price_fails2 (chars line)) Script2.price_patterns →
  (Script2.extract_quantity_and_price line).2
  = List.last (omap (Script2.price_of (chars line)) Script2.price_patterns) 0%float.
Proof.
  intros H. cbn [Script2.extract_quantity_and_price snd].
  by apply price_loop2_last.
Qed.

(** On "USD 2,000,000" script2.py keeps 2000000.0 where script.py has 0.0. *)
Lemma price2_out_of_range_kept_witness :
  (Script2.extract_quantity_and_price "USD 2,000,000").2 = 2000000%float
  ∧ (Script.extract_quantity_and_price "USD 2,000,000").2 = 0%float.
Proof.
  split; [|vm_compute; reflexivity].
  rewrite price2_out_of_range_kept; [vm_compute; reflexivity|].
  repeat constructor; intros p H; vm_compute in H; try discriminate.
  injection H as <-. vm_compute. reflexivity.
Defined.

(** X11.  In both scripts the quantity of a line is the decimal text of an
    integer strictly between 0 and 10000. *)
Theorem quantity_in_range (line : string) :
  ∃ qty qty2 : N,
    (0 < qty < 10000)%N ∧ (0 < qty2 < 10000)%N
    ∧ (Script.extract_quantity_and_price line).1 = Py.str_of_int qty
    ∧ (Script2.extract_quantity_and_price line).1 = Py.str_of_int qty2.
Proof.
  destruct (qty_loop_range Script.qty_patterns (chars line)) as (qty & Hq & E).
  destruct (qty_loop_range Script2.qty_patterns (chars line)) as (qty2 & Hq2 & E2).
  exists qty, qty2. cbn [Script.extract_quantity_and_price
                         Script2.extract_quantity_and_price fst].
  split; [exact Hq|]. split; [exact Hq2|]. split; [exact E|].
  rewrite <- E2. apply qty_loop2_eq.
Qed.

(** ** The case of the codes *)
Section code_case.
Import Re.

Lemma chars_app (s t : string) : chars (s +:+ t) = chars s ++ chars t.
Proof. induction s as [|c s IH]; [done|]. cbn. by rewrite <- IH. Qed.

Lemma digit_upper_fixed c : Py.is_digit c = true → upper_fixed c.
Proof.
  unfold upper_fixed, Py.upper_char. intros H.
  destruct (Py.is_lower c) eqn:E; [|done].
  apply digit_not_letter in H. unfold is_letter in H. by rewrite E in H.
Qed.

Lemma digits_upper ds :
  Forall (fun c => Py.is_digit c = true) ds → upper_text (str ds).
Proof.
  intros H. unfold upper_text. rewrite list_ascii_of_string_of_list_ascii.
  apply upper_id. eapply Forall_impl; [exact H|]. apply digit_upper_fixed.
Qed.

(** The first [\d{4}] of a text consists of digits. *)
Lemma four_digits_digits code num :
  four_digits code = Some num → Forall (fun c => Py.is_digit c = true) (chars num).
Proof.
  unfold four_digits. destruct (search _ _ _) as [mt|] eqn:E; [|done].
  intros [= <-]. rewrite list_ascii_of_string_of_list_ascii.
  unfold search in E. apply search_from_Some in E as (pre & a & _ & H).
  apply match_at_Some in H as ([b' a'] & cap & Hin & ->).
  apply m_rep_elem in Hin as (_ & run & -> & _ & Hrun & _). cbn [group0 after].
  rewrite between_app. eapply Forall_impl; [exact Hrun|].
  intros c Hc. by rewrite <- cls_digit.
Qed.

Lemma upper_text_upper l : upper_text (str (Py.upper l)).
Proof.
  unfold upper_text. rewrite list_ascii_of_string_of_list_ascii.
  apply upper_id, upper_fixed_all.
Qed.

Lemma upper_text_derived pre num post :
  upper_text pre → Forall (fun c => Py.is_digit c = true) (chars num) →
  upper_text post → upper_text (pre +:+ num +:+ post).
Proof.
  unfold upper_text. intros Hpre Hnum Hpost. rewrite !chars_app.
  unfold Py.upper in *. rewrite !map_app, Hpre, Hpost. do 2 f_equal.
  apply upper_id. eapply Forall_impl; [exact Hnum|]. apply digit_upper_fixed.
Qed.

Lemma add_match_upper clean_line codes mt :
  set_Forall upper_text codes →
  set_Forall upper_text (Script.add_match clean_line codes mt).
Proof.
  intros Hc. unfold Script.add_match.
  destruct (Py.strip (group0 mt)) as [|c0 g]; [done|].
  set (new := str (Py.upper (sub false Script.re_spaces (chars " ") (c0 :: g)))).
  assert (Hnew : upper_text new) by apply upper_text_upper.
  assert (H1 : set_Forall upper_text (codes ∪ {[new]})).
  { apply set_Forall_union; [done|]. by apply set_Forall_singleton. }
  set (codes2 := if Py.contains (chars "CH-") (chars new) then _ else _).
  assert (H2 : set_Forall upper_text codes2).
  { subst codes2. destruct (Py.contains _ _); [|done].
    destruct (four_digits new) as [num|] eqn:En; [|done].
    apply four_digits_digits in En.
    apply set_Forall_union; [apply set_Forall_union; [exact H1|]|];
      apply set_Forall_singleton; by apply upper_text_derived. }
  clearbody codes2.
  destruct (search false Script.re_marc clean_line) as [mm|] eqn:Em; [|done].
  apply search_marc_digits in Em as (ds & -> & _ & Hds). cbn [default].
  apply set_Forall_union; [done|]. apply set_Forall_singleton.
  by apply digits_upper.
Qed.

Lemma add_match2_upper codes mt :
  set_Forall upper_text codes → set_Forall upper_text (Script2.add_match codes mt).
Proof.
  intros Hc. unfold Script2.add_match.
  apply set_Forall_union; [done|]. apply set_Forall_singleton, upper_text_upper.
Qed.

Lemma fold_upper {B} (P : gset string → Prop) (f : gset string → B → gset string)
                 (l : list B) codes :
  (∀ codes x, P codes → P (f codes x)) → P codes → P (fold_left f l codes).
Proof.
  intros Hf. revert codes. induction l as [|x l IH]; intros codes H; [done|].
  cbn [fold_left]. by apply IH, Hf.
Qed.

End code_case.

(** X12.  Every code that the extractors return is in upper case, in both
    scripts: the matched text is upper-cased, and the derived DP and DPCV
    codes and the Marc code of script.py consist of upper-case text and
    digits. *)
Theorem extracted_codes_upper_case (line code : string) :
  (code ∈ Script.extract_codes_from_line line → upper_text code)
  ∧ (code ∈ Script2.extract_codes_from_line line → upper_text code).
Proof.
  split.
  - unfold Script.extract_codes_from_line.
    destruct (existsb _ _); [by intros ?%not_elem_of_empty|].
    revert code. change (set_Forall upper_text
      (fold_left (Script.add_pattern (Py.join (chars " ") (Py.split (chars line))))
                 Script.patterns ∅)).
    apply fold_upper; [|apply set_Forall_empty].
    intros codes pattern H. unfold Script.add_pattern.
    apply fold_upper; [|done].
    intros ? ?. apply add_match_upper.
  - unfold Script2.extract_codes_from_line.
    destruct (existsb _ _); [by intros ?%not_elem_of_empty|].
    revert code. change (set_Forall upper_text
      (fold_left (Script2.add_pattern (chars line)) Script2.patterns ∅)).
    apply fold_upper; [|apply set_Forall_empty].
    intros codes pattern H. unfold Script2.add_pattern.
    apply fold_upper; [|done].
    intros ? ?. apply add_match2_upper.
Qed.

(** Two codes of the lower-case line "ch-1234 mr qty 5". *)
Lemma extracted_codes_upper_case_witness :
  upper_text "CH-1234 MR" ∧ upper_text "DP 1234 MM".
Proof.
  split.
  - apply (proj2 (extracted_codes_upper_case "ch-1234 mr qty 5" "CH-1234 MR")).
    apply (bool_decide_eq_true_1 (_ ∈ _)); vm_compute; reflexivity.
  - apply (proj1 (extracted_codes_upper_case "ch-1234 mr qty 5" "DP 1234 MM")).
    apply (bool_decide_eq_true_1 (_ ∈ _)); vm_compute; reflexivity.
Defined.

(** ** The contents of the alias table *)
Section table_contents.
Import Script.
Implicit Types d : gmap string (gset string).

Lemma get_set_add_to k v d k' x :
  x ∈ get_set (add_to k v d) k' ↔ x ∈ get_set d k' ∨ (k' = k ∧ x = v).
Proof.
  unfold add_to. destruct (decide (k = k')) as [->|Hne].
  - unfold get_set at 1. rewrite lookup_insert_eq. cbn [default from_option id].
    rewrite elem_of_union, elem_of_singleton. intuition congruence.
  - unfold get_set at 1. rewrite lookup_insert_ne by done.
    fold (get_set d k'). intuition congruence.
Qed.

Lemma load_row_elem d r k v :
  v ∈ get_set (load_row d r) k ↔ v ∈ get_set d k ∨ links r k v.
Proof.
  unfold load_row, links, kept_row, null_marker, is_nan_text.
  set (a := str (Py.strip (chars (acode r)))).
  set (c := str (Py.strip (chars (cpartno r)))).
  destruct (decide (a = "")) as [Ha|Ha];
    [rewrite (bool_decide_eq_true_2 (a = "")) by done; cbn [orb]; intuition congruence|].
  rewrite (bool_decide_eq_false_2 (a = "")) by done.
  destruct (decide (c = "")) as [Hc|Hc];
    [rewrite (bool_decide_eq_true_2 (c = "")) by done; cbn [orb]; intuition congruence|].
  rewrite (bool_decide_eq_false_2 (c = "")) by done.
  destruct (decide (Py.lower (chars a) = chars "nan")) as [Hna|Hna];
    [rewrite (bool_decide_eq_true_2 (Py.lower (chars a) = _)) by done;
     cbn [orb]; intuition congruence|].
  rewrite (bool_decide_eq_false_2 (Py.lower (chars a) = _)) by done.
  destruct (decide (Py.lower (chars c) = chars "nan")) as [Hnc|Hnc];
    [rewrite (bool_decide_eq_true_2 (Py.lower (chars c) = _)) by done;
     cbn [orb]; intuition congruence|].
  rewrite (bool_decide_eq_false_2 (Py.lower (chars c) = _)) by done.
  cbn [orb].
  destruct (decide (normalize_code a = a)) as [Ea|Ea];
    [rewrite (bool_decide_eq_false_2 (normalize_code a ≠ a)) by tauto
    |rewrite (bool_decide_eq_true_2 (normalize_code a ≠ a)) by done];
  (destruct (decide (normalize_code c = c)) as [Ec|Ec];
    [rewrite (bool_decide_eq_false_2 (normalize_code c ≠ c)) by tauto
    |rewrite (bool_decide_eq_true_2 (normalize_code c ≠ c)) by done]);
  rewrite !get_set_add_to; try rewrite Ea; try rewrite Ec; intuition congruence.
Qed.

Lemma load_rows_elem df d k v :
  v ∈ get_set (fold_left load_row df d) k
  ↔ v ∈ get_set d k ∨ ∃ r, r ∈ df ∧ links r k v.
Proof.
  revert d. induction df as [|r df IH]; intros d; cbn [fold_left].
  - split; [by left|]. intros [?|(r & ?%not_elem_of_nil & _)]; done.
  - rewrite IH, load_row_elem. split.
    + intros [[?|?]|(r' & ? & ?)]; [by left|right..].
      * exists r. split; [left|done].
      * exists r'. split; [by right|done].
    + intros [?|(r' & [->|?]%elem_of_cons & ?)]; [by left; left|by left; right|].
      right. by exists r'.
Qed.

Lemma existsb_impl {A} (f g : A → bool) l :
  (∀ x, f x = true → g x = true) → existsb f l = true → existsb g l = true.
Proof.
  intros H. rewrite !existsb_exists. intros (x & ? & ?). exists x. eauto.
Qed.

Lemma intersects_mono a a' b :
  a ⊆ a' → intersects a b = true → intersects a' b = true.
Proof.
  intros Hs. rewrite !intersects_true. intros (x & ? & ?). exists x. split; [|done].
  by apply Hs.
Qed.

End table_contents.

(** X13.  The alias table holds exactly the links of the catalog rows that
    are not skipped: [v] is stored under [k] if and only if some kept row
    has [v] as one of its two trimmed codes and [k] as the other one or as
    the normal form of the other one. *)
Theorem alias_table_contents (df : list Script.row) (k v : string) :
  v ∈ get_set (Script.load_erp_codes df) k ↔ ∃ r, r ∈ df ∧ links r k v.
Proof.
  unfold Script.load_erp_codes. rewrite load_rows_elem. split; [|by right].
  intros [H|H]; [|done]. unfold get_set in H. rewrite lookup_empty in H.
  by apply not_elem_of_empty in H.
Qed.

Lemma items_match_more_rows (df more : list Script.row)
                            (po_item so_item : Script.ValveItem) :
  Script.items_match (Script.load_erp_codes df) po_item so_item = true →
  Script.items_match (Script.load_erp_codes (df ++ more)) po_item so_item = true.
Proof.
  unfold Script.items_match.
  destruct (Script.direct_match _ _); [done|].
  destruct (Script.numeric_match _ _); [done|].
  unfold Script.mapped_match. apply existsb_impl. intros po_code.
  assert (Hm : ∀ k, get_set (Script.load_erp_codes df) k
                    ⊆ get_set (Script.load_erp_codes (df ++ more)) k).
  { intros k v Hv. unfold Script.load_erp_codes. rewrite fold_left_app.
    by apply load_rows_keep. }
  rewrite !orb_true_iff, !andb_true_iff.
  intros [H|[Hn H]]; [left|right; split; [done|]];
    eapply intersects_mono; eauto.
Qed.

Section more_codes.
Import Script.

Lemma numbers_of_mono a a' : a ⊆ a' → numbers_of a ⊆ numbers_of a'.
Proof.
  intros Hs num. unfold numbers_of. rewrite !elem_of_set_omap.
  intros (code & ? & ?). exists code. split; [by apply Hs|done].
Qed.

Lemma intersects_mono_both a a' b b' :
  a ⊆ a' → b ⊆ b' → intersects a b = true → intersects a' b' = true.
Proof.
  intros Ha Hb. rewrite !intersects_true. intros (x & ? & ?). exists x.
  split; [by apply Ha|by apply Hb].
Qed.

Lemma existsb_elements_mono (f g : string → bool) (a a' : gset string) :
  a ⊆ a' → (∀ x, f x = true → g x = true) →
  existsb f (elements a) = true → existsb g (elements a') = true.
Proof.
  intros Ha Hfg. rewrite !existsb_exists. intros (x & Hx & Hf). exists x.
  split; [|by apply Hfg]. apply list_elem_of_In, elem_of_elements, Ha.
  by apply elem_of_elements, list_elem_of_In.
Qed.

End more_codes.

Lemma items_match_more_codes (mappings : gmap string (gset string))
                             (po_item so_item po_item' so_item' : Script.ValveItem) :
  Script.item_codes po_item ⊆ Script.item_codes po_item' →
  Script.item_codes so_item ⊆ Script.item_codes so_item' →
  Script.items_match mappings po_item so_item = true →
  Script.items_match mappings po_item' so_item' = true.
Proof.
  intros Hpo Hso. unfold Script.items_match.
  destruct (Script.direct_match (Script.item_codes po_item) _) eqn:E1.
  { intros _. unfold Script.direct_match in *.
    by rewrite (intersects_mono_both _ _ _ _ Hpo Hso E1). }
  destruct (Script.direct_match (Script.item_codes po_item') _); [done|].
  destruct (Script.numeric_match (Script.item_codes po_item) _) eqn:E2.
  { intros _. unfold Script.numeric_match in *.
    by rewrite (intersects_mono_both _ _ _ _ (numbers_of_mono _ _ Hpo)
                  (numbers_of_mono _ _ Hso) E2). }
  destruct (Script.numeric_match (Script.item_codes po_item') _); [done|].
  unfold Script.mapped_match. apply existsb_elements_mono; [done|].
  intros po_code. rewrite !orb_true_iff, !andb_true_iff.
  intros [H|[Hn H]]; [left|right; split; [done|]];
    by eapply intersects_mono_both.
Qed.

(** X14.  [items_match] is monotone: a pair of items that it accepts with
    the table of some catalog rows is still accepted when more rows are
    loaded after them and when either item carries more codes. *)
Theorem matches_are_monotone (df more : list Script.row)
    (po_item so_item po_item' so_item' : Script.ValveItem) :
  Script.item_codes po_item ⊆ Script.item_codes po_item' →
  Script.item_codes so_item ⊆ Script.item_codes so_item' →
  Script.items_match (Script.load_erp_codes df) po_item so_item = true →
  Script.items_match (Script.load_erp_codes (df ++ more)) po_item' so_item' = true.
Proof.
  intros Hpo Hso H.
  eapply items_match_more_codes; [exact Hpo|exact Hso|].
  by apply items_match_more_rows.
Qed.

(** An alias pair still matches after a second row is loaded and further
    codes are found. *)
Lemma matches_are_monotone_witness :
  Script.items_match
    (Script.load_erp_codes
       ([ {| Script.acode := "VLV-100"; Script.cpartno := "X100" |} ]
        ++ [ {| Script.acode := "VLV-200"; Script.cpartno := "X200" |} ]))
    (item_of {["VLV-100"; "CH-1234 MR"]} "PO")
    (item_of {["X100"; "9123456"]} "SO") = true.
Proof.
  apply (matches_are_monotone _ _ (item_of {["VLV-100"]} "PO")
                              (item_of {["X100"]} "SO")).
  - apply (bool_decide_eq_true_1 (_ ⊆ _)). vm_compute. reflexivity.
  - apply (bool_decide_eq_true_1 (_ ⊆ _)). vm_compute. reflexivity.
  - vm_compute. reflexivity.
Defined.

(** ** Arguments that the normalizer does not tell apart *)
Section insensitive.

Lemma is_space_upper c : Py.is_space (Py.upper_char c) = Py.is_space c.
Proof. destruct c as [[] [] [] [] [] [] [] []]; reflexivity. Qed.

Lemma is_space_lower c : Py.is_space (Py.lower_char c) = Py.is_space c.
Proof. destruct c as [[] [] [] [] [] [] [] []]; reflexivity. Qed.

Lemma upper_lower_char c : Py.upper_char (Py.lower_char c) = Py.upper_char c.
Proof. destruct c as [[] [] [] [] [] [] [] []]; reflexivity. Qed.

Lemma lstrip_map (f : ascii → ascii) l :
  (∀ c, Py.is_space (f c) = Py.is_space c) →
  Py.lstrip (map f l) = map f (Py.lstrip l).
Proof.
  intros Hf. induction l as [|c l IH]; [done|].
  cbn [map Py.lstrip]. rewrite Hf. by destruct (Py.is_space c).
Qed.

Lemma strip_map (f : ascii → ascii) l :
  (∀ c, Py.is_space (f c) = Py.is_space c) →
  Py.strip (map f l) = map f (Py.strip l).
Proof.
  intros Hf. unfold Py.strip, Py.rstrip.
  by rewrite !lstrip_map, <- !map_rev, lstrip_map, map_rev.
Qed.

Lemma strip_strip l : Py.strip (Py.strip l) = Py.strip l.
Proof. destruct (strip_trimmed l). by apply strip_id. Qed.

Lemma normalize_chars_arg x y :
  Py.upper (Py.strip x) = Py.upper (Py.strip y) →
  Script.normalize_chars x = Script.normalize_chars y.
Proof. unfold Script.normalize_chars. by intros ->. Qed.

End insensitive.

(** X15.  [normalize_code] ignores the white space around its argument and
    gives the same result for the argument in upper case; for an argument
    of ASCII characters it also gives the same result for the argument in
    lower case, so that the case of ASCII letters does not matter. *)
Theorem normalize_code_ignores_case_and_margins (code : string) :
  Script.normalize_code (str (Py.upper (chars code))) = Script.normalize_code code
  ∧ (ascii_text code = true →
     Script.normalize_code (str (Py.lower (chars code))) = Script.normalize_code code)
  ∧ Script.normalize_code (str (Py.strip (chars code))) = Script.normalize_code code.
Proof.
  unfold Script.normalize_code. rewrite !list_ascii_of_string_of_list_ascii.
  split; [|split]; [|intros _|]; f_equal; apply normalize_chars_arg.
  - unfold Py.upper. rewrite strip_map by apply is_space_upper.
    apply upper_id, upper_fixed_all.
  - unfold Py.upper, Py.lower. rewrite strip_map by apply is_space_lower.
    rewrite map_map. apply map_ext. apply upper_lower_char.
  - by rewrite strip_strip.
Qed.

(** A code in mixed case with blanks around it. *)
Lemma normalize_code_ignores_case_and_margins_witness :
  ascii_text " Valve  ch-1234 mr " = true
  ∧ Script.normalize_code " VALVE  CH-1234 MR " = Script.normalize_code " Valve  ch-1234 mr "
  ∧ Script.normalize_code " valve  ch-1234 mr " = Script.normalize_code " Valve  ch-1234 mr "
  ∧ Script.normalize_code "Valve  ch-1234 mr" = Script.normalize_code " Valve  ch-1234 mr "
  ∧ Script.normalize_code " Valve  ch-1234 mr " = "CH-1234".
Proof.
  destruct (normalize_code_ignores_case_and_margins " Valve  ch-1234 mr ")
    as (H1 & H2 & H3).
  split; [reflexivity|]. split; [exact H1|]. split; [exact (H2 eq_refl)|].
  split; [exact H3|]. vm_compute. reflexivity.
Defined.

(** ** The report of script2.py *)
Section frames.
Import Script2.

Lemma count_snoc {A} (f : A → bool) l x :
  count f (l ++ [x]) = count f l + (if f x then 1 else 0).
Proof.
  unfold count. rewrite List.filter_app, length_app. cbn [List.filter].
  by destruct (f x).
Qed.

Lemma count_split (l : list nat) :
  count (fun s => 80 <=? s) l + count (fun s => s <? 80) l = length l.
Proof.
  unfold count. induction l as [|s l IH]; [done|]. cbn [List.filter length].
  destruct (Nat.leb_spec 80 s), (Nat.ltb_spec s 80); cbn [length]; lia.
Qed.

Lemma match_items_score po_item so_items matched score :
  match_items po_item so_items = (matched, score) →
  (matched = None ∧ score = 0) ∨ (is_Some matched ∧ (score = 95 ∨ score = 100)).
Proof.
  induction so_items as [|so_item rest IH]; cbn [match_items].
  - intros [= <- <-]. by left.
  - destruct (direct_match _ _); [intros [= <- <-]; right; eauto|].
    destruct (fuzzy_match _ _); [intros [= <- <-]; right; eauto|]. exact IH.
Qed.

Lemma analyze_po_frame so_items a po_item a' n :
  analyze_po so_items (Some a) po_item = Some a' →
  frame_ok n a → frame_ok (S n) a'.
Proof.
  unfold analyze_po. cbn [mbind option_bind].
  destruct (match_items po_item so_items) as [matched score] eqn:E.
  apply match_items_score in E.
  destruct (next_iter (codes po_item)) as [po_code|]; [|done].
  intros Ha' [H1 H2 H3 H4 H5 H6 H7 H8 H9 H10].
  destruct E as [[-> ->]|[[so_item ->] Hs]].
  - injection Ha' as <-.
    split; cbn [po_items so_matches match_scores quantity_matches price_matches
                material_matches]; rewrite ?length_app, ?count_snoc;
      change (0 <? 80) with true; cbn [negb length]; try lia.
    apply Forall_app. split; [done|]. constructor; [tauto|constructor].
  - destruct (next_iter (codes so_item)) as [so_code|]; [|done].
    injection Ha' as <-.
    assert (Hlt : (score <? 80) = false) by (apply Nat.ltb_ge; lia).
    split; cbn [po_items so_matches match_scores quantity_matches price_matches
                material_matches]; rewrite ?length_app, ?count_snoc, ?Hlt;
      cbn [length]; try lia;
      try (match goal with |- context [negb ?b] => destruct b end; cbn [negb]; lia).
    apply Forall_app. split; [done|]. constructor; [tauto|constructor].
Qed.

Lemma fold_analyze2_None so_items po_items :
  fold_left (analyze_po so_items) po_items None = None.
Proof. by induction po_items. Qed.

Lemma analyze_loop_frame so_items pos a a' n :
  fold_left (analyze_po so_items) pos (Some a) = Some a' →
  frame_ok n a → frame_ok (n + length pos) a'.
Proof.
  revert a n. induction pos as [|po_item rest IH]; intros a n; cbn [fold_left].
  - intros [= <-]. by rewrite Nat.add_0_r.
  - destruct (analyze_po so_items (Some a) po_item) as [a1|] eqn:E;
      [|by rewrite fold_analyze2_None].
    intros Hf Ha. cbn [length]. rewrite Nat.add_succ_r.
    apply (IH a1 (S n)); [done|]. by eapply analyze_po_frame.
Qed.

Lemma analyze_matches_frame items df :
  analyze_matches items = Some df →
  frame_ok (length (List.filter (is_doc "PO") items)) df.
Proof.
  unfold analyze_matches. intros H.
  apply (analyze_loop_frame _ _ _ _ 0) in H; [done|].
  split; cbn; done.
Qed.

Lemma select_length {A} (mask : list bool) (column : list A) :
  length mask = length column →
  length (select mask column) = count id mask.
Proof.
  revert column. induction mask as [|b mask IH]; intros [|x column]; try done.
  cbn [length select]. intros [= H]. unfold count in *. cbn [List.filter id].
  destruct b; cbn [length]; by rewrite IH.
Qed.

Lemma count_map {A B} (f : B → bool) (g : A → B) l :
  count f (map g l) = count (fun x => f (g x)) l.
Proof.
  unfold count. induction l as [|x l IH]; [done|]. cbn [map List.filter].
  destruct (f (g x)); cbn [length]; by rewrite IH.
Qed.

Lemma generate_insights_None df : generate_insights df = None ↔ rows df = 0.
Proof.
  unfold generate_insights. destruct (rows df) as [|n]; [done|].
  cbn [N.of_nat]. split; [|done]. intros H. cbv zeta in H. discriminate H.
Qed.

Lemma collect_items_codes pdf_folder entries :
  Forall has_codes2 (collect_items pdf_folder entries).
Proof.
  apply Forall_forall. intros item. unfold collect_items.
  rewrite list_elem_of_In, in_flat_map. intros ([filename doc] & _ & Hin).
  destruct (Py.ends_with _ _); [|done].
  destruct doc as [pages|]; [|done].
  apply list_elem_of_In in Hin. by eapply process_pdf2_codes.
Qed.

End frames.

(** X16.  The summary sheet of the report of script2.py is consistent with
    the frame of the analysis: there is at least one PO item, the frame
    has one row per PO item, Matched Items + Unmatched Items = Total PO
    Items, and every unmatched item is also counted as a quantity mismatch
    and as a material mismatch.  The sheet of the unmatched items is
    written exactly when Unmatched Items is positive, and has that many
    rows. *)
Theorem report_summary_consistent (items : list Script2.ValveItem)
                                  (df : Script2.analysis) (wb : Script2.workbook) :
  Script2.analyze_matches items = Some df →
  Script2.generate_excel_report items df = Some wb →
  ∃ total sales matched unmatched quantity material,
    Script2.summary wb
    = [ ("Total PO Items", total); ("Total SO Items", sales);
        ("Matched Items", matched); ("Unmatched Items", unmatched);
        ("Quantity Mismatches", quantity); ("Material Spec Mismatches", material) ]
    ∧ 0 < total
    ∧ Script2.rows (Script2.matching_details wb) = total
    ∧ matched + unmatched = total
    ∧ unmatched ≤ quantity
    ∧ unmatched ≤ material
    ∧ match Script2.unmatched_items wb with
      | Some sheet => 0 < unmatched ∧ Script2.rows sheet = unmatched
      | None => unmatched = 0
      end.
Proof.
  intros Hdf Hwb. apply analyze_matches_frame in Hdf.
  destruct Hdf as [H1 H2 H3 H4 H5 H6 H7 H8 H9 H10].
  unfold Script2.generate_excel_report in Hwb.
  destruct (Script2.generate_insights df) as [found|] eqn:Ei; [|done].
  assert (Hrows : Script2.rows df ≠ 0).
  { intros E. apply generate_insights_None in E. congruence. }
  cbn [mbind option_bind] in Hwb. injection Hwb as <-.
  cbn [Script2.summary Script2.matching_details Script2.unmatched_items].
  unfold Script2.summary_data. do 6 eexists. split; [reflexivity|].
  unfold Script2.rows in *. fold (Script2.count (Script2.is_doc "PO") items) in *.
  pose proof (count_split (Script2.match_scores df)) as Hs.
  split; [lia|]. split; [lia|]. split; [lia|]. split; [lia|]. split; [lia|].
  assert (Hsel : length (Script2.select
                   (map (fun s => s <? 80) (Script2.match_scores df))
                   (Script2.po_items df))
                 = Script2.count (fun s => s <? 80) (Script2.match_scores df)).
  { rewrite select_length by (rewrite length_map; lia). by rewrite count_map. }
  cbn [Script2.select_rows Script2.po_items]. rewrite Hsel.
  case_bool_decide as E; [done|]. split; [lia|exact Hsel].
Qed.

(** Two PO lines, one of which has no SO line. *)
Lemma report_summary_consistent_witness :
  ∃ wb total sales matched unmatched quantity material,
    Script2.process_all true "pdf_folder"
      [ ("purchase_order_1.pdf", Some ["CH-1234 QTY 5"; "CH-5678 QTY 2"]);
        ("so_1.pdf", Some ["CH-1234 QTY 5"]) ]
    = Script2.Returned (Some wb)
    ∧ Script2.summary wb
      = [ ("Total PO Items", total); ("Total SO Items", sales);
          ("Matched Items", matched); ("Unmatched Items", unmatched);
          ("Quantity Mismatches", quantity); ("Material Spec Mismatches", material) ]
    ∧ matched + unmatched = total
    ∧ unmatched ≤ quantity.
Proof.
  set (entries := [ ("purchase_order_1.pdf", Some ["CH-1234 QTY 5"; "CH-5678 QTY 2"]);
                    ("so_1.pdf", Some ["CH-1234 QTY 5"]) ]).
  set (items := Script2.collect_items "pdf_folder" entries).
  destruct (Script2.analyze_matches items) as [df|] eqn:Hdf;
    [|vm_compute in Hdf; discriminate].
  destruct (Script2.generate_excel_report items df) as [wb|] eqn:Hwb.
  - destruct (report_summary_consistent items df wb Hdf Hwb)
      as (total & sales & matched & unmatched & quantity & material
          & H1 & _ & _ & H2 & H3 & _).
    exists wb, total, sales, matched, unmatched, quantity, material.
    split; [|split; [exact H1|split; [exact H2|exact H3]]].
    unfold Script2.process_all. fold items. cbn [negb].
    rewrite Hdf, Hwb. reflexivity.
  - exfalso. revert Hwb. unfold Script2.generate_excel_report.
    destruct (Script2.generate_insights df) eqn:Ei; [done|].
    apply generate_insights_None in Ei.
    apply analyze_matches_frame in Hdf as [Hrows _ _ _ _ _ _ _ _ _].
    fold (Script2.rows df) in Hrows. rewrite Ei in Hrows. vm_compute in Hrows.
    discriminate.
Defined.

(** X17.  [process_all] of script2.py, once the catalog is loaded: it returns
    without a report when the files give no item; it raises, by the
    division by zero of the match rate in [generate_insights], when they
    give items but none of a purchase order; and it writes the report when
    there is a PO item. *)
Theorem process_all_outcome (pdf_folder : string)
                            (entries : list (string * option (list string))) :
  let items := Script2.collect_items pdf_folder entries in
  (items = [] → Script2.process_all true pdf_folder entries = Script2.Returned None)
  ∧ (items ≠ [] → List.filter (Script2.is_doc "PO") items = [] →
     Script2.process_all true pdf_folder entries = Script2.Raised)
  ∧ (List.filter (Script2.is_doc "PO") items ≠ [] →
     ∃ wb, Script2.process_all true pdf_folder entries = Script2.Returned (Some wb)).
Proof.
  intros items. unfold Script2.process_all. fold items. cbn [negb].
  destruct (analyze_matches_is_Some items (collect_items_codes pdf_folder entries))
    as [df Hdf].
  pose proof (analyze_matches_frame items df Hdf) as [Hrows _ _ _ _ _ _ _ _ _].
  fold (Script2.rows df) in Hrows.
  rewrite Hdf. unfold Script2.generate_excel_report.
  split; [by intros ->|]. split.
  - intros Hne Hpo. rewrite Hpo in Hrows.
    apply generate_insights_None in Hrows. rewrite Hrows.
    by destruct items.
  - intros Hpo.
    destruct (Script2.generate_insights df) as [found|] eqn:Ei.
    + destruct items; [done|]. cbn [mbind option_bind]. eauto.
    + apply generate_insights_None in Ei. rewrite Ei in Hrows.
      by destruct (List.filter _ items).
Qed.

(** A folder with a sales order only. *)
Lemma process_all_outcome_witness :
  Script2.process_all true "pdf_folder" [("so_1.pdf", Some ["CH-1234 QTY 5"])]
  = Script2.Raised.
Proof.
  apply (process_all_outcome "pdf_folder" [("so_1.pdf", Some ["CH-1234 QTY 5"])]).
  - vm_compute. discriminate.
  - vm_compute. reflexivity.
Defined.

(** ** File names *)
Section file_names.

Lemma split_on_two sep p b : 2 ≤ length (Py.split_on sep (p ++ sep :: b)).
Proof.
  induction p as [|c p IH]; cbn [app Py.split_on].
  - rewrite Ascii.eqb_refl. cbn [length]. destruct b; cbn; [lia|].
    destruct (Ascii.eqb _ _); [cbn; lia|]. destruct (Py.split_on sep b); cbn; lia.
  - destruct (Ascii.eqb c sep); [cbn [length]; lia|].
    destruct (Py.split_on sep (p ++ sep :: b)) as [|q qs]; [cbn in IH; lia|].
    exact IH.
Qed.

Lemma last_split_on sep p b :
  List.last (Py.split_on sep (p ++ sep :: b)) [] = List.last (Py.split_on sep b) [].
Proof.
  induction p as [|c p IH]; cbn [app Py.split_on].
  - rewrite Ascii.eqb_refl. by destruct (Py.split_on sep b) eqn:E.
  - pose proof (split_on_two sep p b) as H2.
    destruct (Ascii.eqb c sep).
    + rewrite <- IH. by destruct (Py.split_on sep (p ++ sep :: b)).
    + rewrite <- IH. destruct (Py.split_on sep (p ++ sep :: b)) as [|q [|q' qs]];
        [cbn in H2; lia..|done].
Qed.

Lemma split_on_nonempty sep s : Py.split_on sep s ≠ [].
Proof.
  destruct s as [|c s]; [done|]. cbn [Py.split_on].
  destruct (Ascii.eqb c sep); [done|]. by destruct (Py.split_on sep s).
Qed.

Lemma ends_with_app suffix s :
  Py.ends_with suffix s = true → ∃ p, s = p ++ suffix.
Proof.
  unfold Py.ends_with. intros (t & E)%starts_with_app.
  exists (rev t). apply (f_equal (@rev ascii)) in E.
  by rewrite rev_involutive, rev_app_distr, rev_involutive in E.
Qed.

(** The base name of a path joined from a folder and a plain name is the
    name. *)
Lemma basename_path_join folder name :
  ¬ In "/"%char name → Py.basename (Py.path_join folder name) = name.
Proof.
  intros Hn. unfold Py.path_join.
  assert (Hb : Py.basename name = name).
  { unfold Py.basename. by rewrite split_on_absent. }
  destruct (Py.starts_with (chars "/") name) eqn:Es.
  { apply starts_with_app in Es as [t ->]. destruct Hn. by left. }
  destruct folder as [|f folder]; [done|].
  change (chars "/") with ["/"%char].
  destruct (Py.ends_with _ _) eqn:E.
  - apply ends_with_app in E as [p ->]. rewrite <- app_assoc. cbn [app].
    unfold Py.basename in *. by rewrite last_split_on.
  - change ((f :: folder) ++ ["/"%char] ++ name)
      with ((f :: folder) ++ "/"%char :: name).
    unfold Py.basename in *. by rewrite last_split_on.
Qed.

Lemma ends_with_lower suffix s :
  Py.lower suffix = suffix →
  Py.ends_with suffix s = true → Py.ends_with suffix (Py.lower s) = true.
Proof.
  intros Hs (p & ->)%ends_with_app. unfold Py.ends_with, Py.lower in *.
  rewrite map_app, Hs, rev_app_distr. apply starts_with_app. eauto.
Qed.

End file_names.

(** X18.  For a file name without a slash, script2.py decides the document
    type by the name alone, whatever the folder is called, and a name that
    it takes for a purchase order is one for script.py too, unless the name
    marks a data sheet.  A name that ends in .pdf for script2.py does so for
    script.py as well, which compares the lower-case name. *)
Theorem purchase_order_names (folder filename content : string) :
  ¬ In "/"%char (chars filename) →
  Script2.doc_type_of (str (Py.path_join (chars folder) (chars filename)))
  = Script2.doc_type_of filename
  ∧ (Script2.doc_type_of filename = "PO" →
     Script.determine_doc_type filename content
     = if data_sheet_name filename then "DataSheet" else "PO")
  ∧ (Py.ends_with (chars ".pdf") (chars filename) = true →
     Py.ends_with (chars ".pdf") (Py.lower (chars filename)) = true).
Proof.
  intros Hn. split; [|split].
  - unfold Script2.doc_type_of. rewrite list_ascii_of_string_of_list_ascii.
    rewrite basename_path_join by done.
    unfold Py.basename. by rewrite split_on_absent.
  - unfold Script2.doc_type_of, Py.basename. rewrite split_on_absent by done.
    cbn [List.last]. unfold Script.determine_doc_type, data_sheet_name.
    destruct (Py.contains (chars "PURCHASE_ORDER") _) eqn:E; [|done]. intros _.
    destruct (_ || _); [done|]. unfold Script.po_terms. cbn [existsb]. by rewrite E.
  - by apply ends_with_lower.
Qed.

(** A purchase order in the folder pdf_folder. *)
Lemma purchase_order_names_witness :
  Script2.doc_type_of "pdf_folder/Purchase_Order_7.pdf" = "PO"
  ∧ Script.determine_doc_type "Purchase_Order_7.pdf" "" = "PO".
Proof.
  destruct (purchase_order_names "pdf_folder" "Purchase_Order_7.pdf" "")
    as (H1 & H2 & _).
  - apply (bool_decide_eq_true_1 (¬ _)). vm_compute. reflexivity.
  - split.
    + exact (eq_trans H1 eq_refl).
    + apply H2. reflexivity.
Defined.

(** ** The two scripts on one line *)
Section shared_codes.
Import Re.

(** A match moves the position forward over a piece of the text. *)
Lemma m_text ic r st cap st' cap' :
  In (st', cap') (m ic r st cap) →
  ∃ run, after st = run ++ after st' ∧ before st' = rev run ++ before st.
Proof.
  revert st cap st' cap'.
  induction r as [|x|neg items|r1 IH1 r2 IH2|r1 IH1 r2 IH2|neg items lo hi
                  |r1 IH1|r1 IH1| | | |r1 IH1|r1 IH1];
    intros [b a] cap st' cap'.
  - intros [[= <- <-]|[]]. by exists [].
  - intros (c & a' & -> & _ & -> & _)%m_chr_elem. by exists [c].
  - cbn [m after before]. destruct a as [|c a]; [done|].
    destruct (cls_has ic neg items c); [|done].
    intros [[= <- <-]|[]]. by exists [c].
  - intros (st1 & cap1 & H1 & H2)%m_seq_elem.
    apply IH1 in H1 as (run1 & E1 & B1). apply IH2 in H2 as (run2 & E2 & B2).
    exists (run1 ++ run2). rewrite E1, E2, B2, B1, rev_app_distr, !app_assoc. done.
  - intros [H|H]%m_alt_elem; eauto.
  - intros (_ & run & E & B & _)%m_rep_elem. eauto.
  - cbn [m]. intros [H|[[= <- <-]|[]]]%in_app_iff; [eauto|by exists []].
  - intros (_ & cap0 & H)%m_grp_elem. eauto.
  - intros (-> & _)%m_bol_elem. by exists [].
  - intros (-> & _)%m_eol_elem. by exists [].
  - cbn [m]. destruct (at_boundary _); [|done]. intros [[= <- <-]|[]]. by exists [].
  - cbn [m]. destruct (_ ≫= _) as [st0|]; [|done].
    destruct (existsb _ _); [|done]. intros [[= <- <-]|[]]. by exists [].
  - cbn [m]. destruct (m ic r1 _ _); [done|]. intros [[= <- <-]|[]]. by exists [].
Qed.

Lemma zero_width_same ic r st cap st' cap' :
  zero_width r = true → In (st', cap') (m ic r st cap) → st' = st.
Proof.
  destruct r; try done; intros _.
  - by intros [[= <- <-]|[]].
  - by intros (-> & _)%m_bol_elem.
  - by intros (-> & _)%m_eol_elem.
  - cbn [m]. destruct (at_boundary _); [|done]. by intros [[= <- <-]|[]].
  - cbn [m]. destruct (_ ≫= _) as [st0|]; [|done].
    destruct (existsb _ _); [|done]. by intros [[= <- <-]|[]].
  - cbn [m]. destruct (m ic _ _ _); [done|]. by intros [[= <- <-]|[]].
Qed.

Lemma chr_eq_space ic x c :
  chr_eq ic x c = true → Py.is_space c = Py.is_space (Py.lower_char x).
Proof.
  unfold chr_eq. destruct ic.
  - intros E%Ascii.eqb_eq. by rewrite <- (is_space_lower c), <- E.
  - intros ->%Ascii.eqb_eq. by rewrite is_space_lower.
Qed.

(** A match of a pattern that leads with a visible character begins with
    one. *)
Lemma leads_visible ic r st cap st' cap' :
  leads r = true → In (st', cap') (m ic r st cap) →
  ∃ c t, after st = (c :: t) ++ after st' ∧ Py.is_space c = false.
Proof.
  revert st cap st' cap'.
  induction r as [|x|neg items|r1 IH1 r2 IH2|r1 IH1 r2 IH2|neg items lo hi
                  |r1 IH1|r1 IH1| | | |r1 IH1|r1 IH1];
    intros st cap st' cap'; try done; cbn [leads].
  - intros Hx. destruct st as [b a].
    intros (c & a' & -> & Hc & -> & _)%m_chr_elem.
    exists c, []. split; [done|]. apply chr_eq_space in Hc. rewrite Hc.
    by apply negb_true_iff.
  - intros Hl (st1 & cap1 & H1 & H2)%m_seq_elem.
    apply orb_true_iff in Hl as [Hl|[Hz Hl]%andb_true_iff].
    + destruct (IH1 _ _ _ _ Hl H1) as (c & t & E & Hc).
      apply m_text in H2 as (run2 & E2 & _).
      exists c, (t ++ run2). split; [|done]. rewrite E, E2.
      cbn [app]. by rewrite app_assoc.
    + apply (zero_width_same _ _ _ _ _ _ Hz) in H1 as ->. eauto.
  - intros [Hl1 Hl2]%andb_true_iff [H|H]%m_alt_elem; eauto.
  - intros Hl (_ & cap0 & H)%m_grp_elem. eauto.
Qed.

Lemma finditer_go_elem ic r skip b a mt :
  In mt (finditer_go ic r skip b a) →
  ∃ pre a', a = pre ++ a' ∧ match_at ic r (Pos (rev pre ++ b) a') = Some mt.
Proof.
  revert skip b. induction a as [|c a IH]; intros skip b.
  - destruct skip; [|done]. cbn [finditer_go].
    destruct (match_at ic r (Pos b [])) as [mt0|] eqn:E; [|done].
    intros [<-|[]]. by exists [], [].
  - assert (Hstep : ∀ k, In mt (finditer_go ic r k (c :: b) a) →
              ∃ pre a', c :: a = pre ++ a'
                        ∧ match_at ic r (Pos (rev pre ++ b) a') = Some mt).
    { intros k (pre & a' & -> & H)%IH. exists (c :: pre), a'. split; [done|].
      cbn [rev]. by rewrite <- app_assoc. }
    destruct skip as [|k]; cbn [finditer_go]; [|apply Hstep].
    destruct (match_at ic r (Pos b (c :: a))) as [mt0|] eqn:E; [|apply Hstep].
    intros [<-|H]; [by exists [], (c :: a)|by eapply Hstep].
Qed.

(** A match found in a text is a piece of it, and for a pattern that leads
    with a visible character the piece begins with one. *)
Lemma finditer_piece r line mt :
  leads r = true → In mt (finditer true r line) →
  ∃ pre c t rest,
    line = pre ++ (c :: t) ++ rest ∧ group0 mt = c :: t ∧ Py.is_space c = false.
Proof.
  intros Hl (pre & a & -> & H)%finditer_go_elem.
  apply match_at_Some in H as ([b' a'] & cap & Hin & ->).
  destruct (leads_visible _ _ _ _ _ _ Hl Hin) as (c & t & E & Hc).
  cbn [after] in E. exists pre, c, t, a'. subst a. split; [done|].
  cbn [group0]. by rewrite between_app.
Qed.

Lemma lstrip_visible c t : Py.is_space c = false → Py.lstrip (c :: t) = c :: t.
Proof. intros H. cbn [Py.lstrip]. by rewrite H. Qed.

Lemma lstrip_app_visible l c : Py.is_space c = false → Py.lstrip (l ++ [c]) ≠ [].
Proof.
  intros H. induction l as [|x l IH]; cbn [app Py.lstrip].
  - by rewrite H.
  - by destruct (Py.is_space x).
Qed.

Lemma strip_visible c t : Py.is_space c = false → Py.strip (c :: t) ≠ [].
Proof.
  intros H. unfold Py.strip. rewrite lstrip_visible by done.
  unfold Py.rstrip. cbn [rev]. intros E.
  apply (f_equal (@rev ascii)) in E. rewrite rev_involutive in E. cbn [rev] in E.
  by eapply lstrip_app_visible.
Qed.

(** [' '.join(line.split())] leaves a line alone that has single blanks as
    its only white space and none at its ends. *)
Lemma join_split_go cur l :
  l = [] ∨ no_trail l →
  collapsed_go (bool_decide (cur = [])) l = true →
  Py.join (chars " ") (Py.split_go cur l) = rev cur ++ l.
Proof.
  revert cur. induction l as [|c l IH]; intros cur Ht Hc.
  - cbn [Py.split_go]. rewrite app_nil_r. by destruct cur.
  - destruct Ht as [?|Ht]; [done|].
    assert (Ht' : l = [] ∨ no_trail l).
    { destruct l as [|x l]; [by left|right]. unfold no_trail in *.
      cbn [rev] in *. destruct (rev l ++ [x]) eqn:E; [by destruct (rev l)|exact Ht]. }
    cbn [Py.split_go]. cbn [collapsed_go] in Hc.
    destruct (Py.is_space c) eqn:Es.
    + apply andb_true_iff in Hc as [[Hb Hp]%andb_true_iff Hc].
      apply Ascii.eqb_eq in Hb as ->. apply negb_true_iff in Hp.
      destruct cur as [|x cur]; [done|].
      destruct l as [|y l]; [vm_compute in Ht; discriminate|].
      pose proof (IH [] Ht' Hc) as Hj. cbn [rev app] in Hj.
      destruct (Py.split_go [] (y :: l)) as [|q qs] eqn:E; [done|].
      change (Py.join (chars " ") (rev (x :: cur) :: q :: qs))
        with (rev (x :: cur) ++ " "%char :: Py.join (chars " ") (q :: qs)).
      by rewrite Hj.
    + rewrite (IH (c :: cur) Ht' Hc). cbn [rev]. by rewrite <- app_assoc.
Qed.

Lemma join_split_tidy l :
  collapsed l → no_lead l → no_trail l →
  Py.join (chars " ") (Py.split l) = l.
Proof.
  intros Hc Hl Ht. unfold Py.split. rewrite join_split_go; [done|by right|].
  destruct l as [|c l]; [done|]. cbn [no_lead] in Hl. unfold collapsed in Hc.
  cbn [collapsed_go] in *. by rewrite Hl in *.
Qed.

Lemma fold_add_match_grows clean_line mts codes :
  codes ⊆ fold_left (Script.add_match clean_line) mts codes.
Proof.
  revert codes. induction mts as [|mt mts IH]; intros codes; [done|].
  cbn [fold_left]. etrans; [apply add_match_grows|apply IH].
Qed.

Lemma fold_add_pattern_grows clean_line ps codes :
  codes ⊆ fold_left (Script.add_pattern clean_line) ps codes.
Proof.
  revert codes. induction ps as [|p ps IH]; intros codes; [done|].
  cbn [fold_left]. etrans; [apply fold_add_match_grows|apply IH].
Qed.

Lemma add_match_has clean_line codes mt c t :
  Py.strip (group0 mt) = c :: t →
  str (Py.upper (sub false Script.re_spaces (chars " ") (c :: t)))
  ∈ Script.add_match clean_line codes mt.
Proof.
  intros E. unfold Script.add_match. rewrite E.
  set (new := str _).
  assert (H1 : new ∈ codes ∪ {[new]}) by (apply elem_of_union_r; by apply elem_of_singleton).
  destruct (search false Script.re_marc clean_line) as [mm|];
    (destruct (Py.contains _ _); [destruct (four_digits _) as [num|]|]);
    rewrite ?elem_of_union, ?elem_of_singleton in *; tauto.
Qed.

Lemma fold_add_match_has clean_line mts codes mt c t :
  In mt mts → Py.strip (group0 mt) = c :: t →
  str (Py.upper (sub false Script.re_spaces (chars " ") (c :: t)))
  ∈ fold_left (Script.add_match clean_line) mts codes.
Proof.
  revert codes. induction mts as [|mt0 mts IH]; intros codes; [done|].
  intros [->|Hin] E; cbn [fold_left].
  - apply fold_add_match_grows. by apply add_match_has.
  - by apply IH.
Qed.

Lemma fold_add_pattern_has clean_line ps codes p mt c t :
  In p ps → In mt (finditer true p clean_line) → Py.strip (group0 mt) = c :: t →
  str (Py.upper (sub false Script.re_spaces (chars " ") (c :: t)))
  ∈ fold_left (Script.add_pattern clean_line) ps codes.
Proof.
  revert codes. induction ps as [|p0 ps IH]; intros codes; [done|].
  intros [->|Hin] Hmt E; cbn [fold_left].
  - apply fold_add_pattern_grows. unfold Script.add_pattern.
    by eapply fold_add_match_has.
  - by eapply IH.
Qed.

Lemma fold_add_match2_elem mts codes code :
  code ∈ fold_left Script2.add_match mts codes →
  code ∈ codes ∨ ∃ mt, In mt mts ∧ code = str (Py.upper (Py.strip (group0 mt))).
Proof.
  revert codes. induction mts as [|mt mts IH]; intros codes; cbn [fold_left]; [by left|].
  intros [H|(mt' & ? & ?)]%IH.
  - unfold Script2.add_match in H. apply elem_of_union in H as [H|H]; [by left|].
    apply elem_of_singleton in H. right. exists mt. split; [by left|done].
  - right. exists mt'. split; [by right|done].
Qed.

Lemma fold_add_pattern2_elem line ps codes code :
  code ∈ fold_left (Script2.add_pattern line) ps codes →
  code ∈ codes
  ∨ ∃ p mt, In p ps ∧ In mt (finditer true p line)
            ∧ code = str (Py.upper (Py.strip (group0 mt))).
Proof.
  revert codes. induction ps as [|p ps IH]; intros codes; cbn [fold_left]; [by left|].
  intros [H|(p' & mt & ? & ? & ?)]%IH.
  - unfold Script2.add_pattern in H.
    apply fold_add_match2_elem in H as [H|(mt & ? & ?)]; [by left|].
    right. exists p, mt. split; [by left|done].
  - right. exists p', mt. split; [by right|done].
Qed.

Lemma patterns2_shared p :
  In p Script2.patterns → In p Script.patterns ∧ leads p = true.
Proof.
  intros [<-|[<-|[<-|[<-|[]]]]]; (split; [|reflexivity]).
  - right. left. reflexivity.
  - do 3 right. left. reflexivity.
  - do 2 right. left. reflexivity.
  - left. reflexivity.
Qed.

End shared_codes.

(** X19.  On a line with single blanks as its only white space and none at
    its ends that script.py does not skip, script.py finds every code that
    script2.py finds: the four patterns of script2.py are among the eight
    of script.py, and on such a line both scripts turn a match into the
    same code. *)
Theorem script2_codes_found_by_script (line : string) :
  collapsed (chars line) → no_lead (chars line) → no_trail (chars line) →
  skipped line = false →
  Script2.extract_codes_from_line line ⊆ Script.extract_codes_from_line line.
Proof.
  intros Hc Hl Ht Hs code.
  unfold Script2.extract_codes_from_line, Script.extract_codes_from_line.
  unfold skipped in Hs. rewrite Hs. rewrite join_split_tidy by done.
  destruct (existsb _ Script2.skip_words); [by intros ?%not_elem_of_empty|].
  intros [H|(p & mt & Hp & Hmt & ->)]%fold_add_pattern2_elem;
    [by apply not_elem_of_empty in H|].
  apply patterns2_shared in Hp as [Hp Hlead].
  destruct (finditer_piece _ _ _ Hlead Hmt) as (pre & c & t & rest & E & Eg & Hv).
  destruct (Py.strip (Re.group0 mt)) as [|c' t'] eqn:Es.
  { rewrite Eg in Es. by apply strip_visible in Es. }
  assert (Hcol : collapsed (c' :: t')).
  { destruct (strip_infix (Re.group0 mt)) as (w1 & w2 & Ew).
    rewrite Es, Eg in Ew. apply (infix_collapsed (pre ++ w1) _ (w2 ++ rest)).
    rewrite E, Ew in Hc. by rewrite <- !app_assoc in *. }
  pose proof (fold_add_pattern_has (chars line) Script.patterns ∅ p mt c' t'
                Hp Hmt Es) as Hin.
  by rewrite sub_spaces, (collapsed_id false) in Hin.
Qed.

(** A line with a CH code, a quantity and no skip marker. *)
Lemma script2_codes_found_by_script_witness :
  Script2.extract_codes_from_line "CH-1234 MR QTY 5"
  ⊆ Script.extract_codes_from_line "CH-1234 MR QTY 5".
Proof.
  apply script2_codes_found_by_script; vm_compute; reflexivity.
Defined.

Section agreement.

Lemma qty_loop_app l1 l2 line quantity :
  Script.qty_loop (l1 ++ l2) line quantity = Script.qty_loop l1 line quantity
  ∨ Script.qty_loop l1 line quantity = quantity.
Proof.
  induction l1 as [|pattern l1 IH]; cbn [app Script.qty_loop]; [by right|].
  destruct (Script.qty_of line pattern) as [qty|]; [|exact IH].
  destruct (Script.qty_ok qty); [by left|exact IH].
Qed.

Lemma price_loop_app l1 l2 line p0 q0 :
  Script2.price_ok (Script2.price_loop l1 line p0) = true →
  Script2.price_ok p0 = false →
  Script.price_loop (l1 ++ l2) line q0 = Script2.price_loop l1 line p0.
Proof.
  revert p0. induction l1 as [|pattern l1 IH]; intros p0;
    cbn [app Script.price_loop Script2.price_loop]; [congruence|].
  change (Script.price_of line pattern) with (Script2.price_of line pattern).
  destruct (Script2.price_of line pattern) as [v|]; [|apply IH].
  change (Script.price_ok v) with (Script2.price_ok v).
  destruct (Script2.price_ok v) eqn:E; [done|]. intros H _. by apply IH.
Qed.

End agreement.

(** X20.  The two scripts agree on the quantity of a line unless script2.py
    falls back to its default "1", and they agree on the price whenever
    the price of script2.py lies strictly between 0 and 1000000: the
    patterns of script2.py are the first ones of script.py's lists. *)
Theorem scripts_agree_on_quantity_and_price (line : string) :
  ((Script.extract_quantity_and_price line).1
   = (Script2.extract_quantity_and_price line).1
   ∨ (Script2.extract_quantity_and_price line).1 = "1")
  ∧ (Script2.price_ok (Script2.extract_quantity_and_price line).2 = true →
     (Script.extract_quantity_and_price line).2
     = (Script2.extract_quantity_and_price line).2).
Proof.
  cbn [Script.extract_quantity_and_price Script2.extract_quantity_and_price fst snd].
  split.
  - exact (qty_loop_app Script2.qty_patterns (drop 4 Script.qty_patterns)
                        (chars line) "1").
  - intros H.
    exact (price_loop_app Script2.price_patterns (drop 3 Script.price_patterns)
                          (chars line) 0 0 H eq_refl).
Qed.

(** A line with a price in range. *)
Lemma scripts_agree_on_quantity_and_price_witness :
  (Script.extract_quantity_and_price "CH-1234 QTY 5 USD 120.50").2
  = (Script2.extract_quantity_and_price "CH-1234 QTY 5 USD 120.50").2.
Proof.
  apply (scripts_agree_on_quantity_and_price "CH-1234 QTY 5 USD 120.50").
  vm_compute. reflexivity.
Defined.

(** ** Lines that the extraction leaves alone *)
Section fixed_lines.

Lemma space_out_id prev a : separated_go prev a = true → space_out prev a = a.
Proof.
  revert prev. induction a as [|c a IH]; intros prev; [done|].
  cbn [separated_go space_out]. intros [Hc Ha]%andb_true_iff.
  apply negb_true_iff in Hc. rewrite Hc. f_equal. by apply IH.
Qed.

Lemma page_line_tidy_id l : tidy l → page_line l = l.
Proof.
  intros [_ Hc Hl Ht Hs]. unfold page_line.
  rewrite (collapsed_id false) by done.
  rewrite space_out_id by done. by apply strip_id.
Qed.

End fixed_lines.

(** X21.  The extraction leaves a line alone that is already in the
    extracted form: a page whose text is such a line contributes exactly
    that line, and the text extracted from a document of that one page is
    the line itself. *)
Theorem extracted_line_is_fixed (line : string) :
  tidy (chars line) →
  Script.page_lines line = [chars line]
  ∧ Script.extract_text_from_pdf (Some [line]) = line.
Proof.
  intros Ht.
  assert (H : Script.page_lines line = [chars line]).
  { rewrite page_lines_eq, page_line_tidy_id by done.
    destruct (chars line) eqn:E; [by destruct Ht|done]. }
  split; [exact H|].
  cbn [Script.extract_text_from_pdf flat_map]. rewrite H. cbn [app Py.join].
  apply string_of_list_ascii_of_string.
Qed.

(** A line as the extraction returns it. *)
Lemma extracted_line_is_fixed_witness :
  Script.extract_text_from_pdf (Some ["Valve CH 1234 QTY 5"]) = "Valve CH 1234 QTY 5".
Proof.
  apply (extracted_line_is_fixed "Valve CH 1234 QTY 5").
  split; [done|vm_compute; reflexivity..].
Defined.
